(** * MLP-Mixer (image_classification/MLP-Mixer/mlp_mixer.py)

    A shallow embedding of the model-definition module and the properties
    of its layers: [Identity], [PatchEmbedding], [Mlp], [MixerBlock],
    [MlpMixer] and [build_mlp_mixer].

    Tensors are a shape together with a row-major buffer of scalars.  The
    scalar type is a parameter (a type class), so that every statement holds
    for whatever number type the tensor library computes with.  Python floats
    that the module itself computes with (the mlp ratios, the rates, the
    epsilon) are IEEE binary64 values, Python ints are [Z].  Layer
    construction and the stochastic layers thread the state of the random
    number generator; a Python exception is [None]. *)

From Stdlib Require Import ZArith QArith Qabs Lia.
From Stdlib Require Import Floats.SpecFloat.
From stdpp Require Import base option list strings gmap.

Set Default Proof Using "Type".

(* ================================================================== *)
(** * Python numbers *)

Module Py.

(** A Python [float]: IEEE 754 binary64. *)
Definition float := spec_float.
Definition prec : Z := 53.
Definition emax : Z := 1024.

(** The literals of the module. *)
Definition f0_0 : float := S754_zero false.
Definition f0_5 : float := S754_finite false 4503599627370496 (-53).
Definition f4_0 : float := S754_finite false 4503599627370496 (-50).
Definition f1em6 : float := S754_finite false 4722366482869645 (-72).

(** [float(z)], the implicit conversion in [float * int]: the nearest
    double, OverflowError when there is none. *)
Definition float_of_int (z : Z) : option float :=
  match binary_normalize prec emax z 0 false with
  | S754_infinity _ | S754_nan => None
  | f => Some f
  end.

(** [a * z] for a float [a] and an int [z]. *)
Definition fmul_int (a : float) (z : Z) : option float :=
  f ← float_of_int z; Some (SFmul prec emax a f).

(** [int(f)]: truncation towards zero; ValueError on nan, OverflowError
    on an infinity. *)
Definition int (f : float) : option Z :=
  match f with
  | S754_zero _ => Some 0%Z
  | S754_finite s m e =>
      let v := match e with
               | Z0 => Zpos m
               | Zpos k => Z.shiftl (Zpos m) (Zpos k)
               | Zneg k => Z.shiftr (Zpos m) (Zpos k)
               end in
      Some (if s then Z.opp v else v)
  | S754_infinity _ | S754_nan => None
  end.

(** [1.0], the bound in the range check of a probability. *)
Definition f1_0 : float := S754_finite false 4503599627370496 (-52).

(** The exact value of a finite float. *)
Definition to_Q (f : float) : Q :=
  match f with
  | S754_finite s m e =>
      let q := (inject_Z (Zpos m) * Qpower 2 e)%Q in
      if s then Qopp q else q
  | _ => 0%Q
  end.

(** [p < 0 or p > 1], the test that rejects a dropout probability. *)
Definition bad_probability (p : float) : bool :=
  SFltb p f0_0 || SFltb f1_0 p.

End Py.

(* ================================================================== *)
(** * Scalars and tensors *)

(** The element type of tensors, with the operations the layers use. *)
Class Scalar := {
  R : Type;
  rzero : R;
  rone : R;
  radd : R → R → R;
  rsub : R → R → R;
  rmul : R → R → R;
  rdiv : R → R → R;
  rsqrt : R → R;
  (** the GELU activation on one element *)
  rgelu : R → R;
  (** a count as a scalar, the divisor of a mean *)
  of_nat : nat → R;
  (** a Python float constant as a scalar *)
  of_float : Py.float → R;
}.

Section Tensors.
Context {SC : Scalar}.

Record Tensor := mkTensor { shape : list nat; data : list R }.

Definition numel (sh : list nat) : nat := foldr Nat.mul 1 sh.

(** The buffer has one element per index. *)
Definition wf (t : Tensor) : Prop := length (data t) = numel (shape t).

Definition has_shape (t : Tensor) (sh : list nat) : Prop :=
  shape t = sh ∧ wf t.

(** Element at flat offset [i]. *)
Definition at_ (t : Tensor) (i : nat) : R := nth i (data t) rzero.

Definition rsum (l : list R) : R := foldr radd rzero l.

(** Buffers are built by tabulating a function over the row-major index. *)
Definition tab (n : nat) (f : nat → R) : list R := map f (seq 0 n).

Definition tab2 (a b : nat) (f : nat → nat → R) : list R :=
  tab (a * b) (λ o, f (o / b) (o mod b)).

Definition tab3 (a b c : nat) (f : nat → nat → nat → R) : list R :=
  tab (a * b * c) (λ o, f (o / (b * c)) (o / c mod b) (o mod c)).

Definition tab4 (a b c d : nat) (f : nat → nat → nat → nat → R) : list R :=
  tab (a * b * c * d)
      (λ o, f (o / (b * c * d)) (o / (c * d) mod b) (o / d mod c) (o mod d)).

(** Reading a tensor of rank 3 or 4 at an index (row-major offsets). *)
Definition get3 (t : Tensor) (i j k : nat) : R :=
  match shape t with
  | [_; b; c] => at_ t ((i * b + j) * c + k)
  | _ => rzero
  end.
Definition get4 (t : Tensor) (i j k l : nat) : R :=
  match shape t with
  | [_; b; c; d] => at_ t (((i * b + j) * c + k) * d + l)
  | _ => rzero
  end.

Definition full (sh : list nat) (v : R) : Tensor :=
  mkTensor sh (replicate (numel sh) v).

(** The last axis of a shape and the axes before it. *)
Definition split_last (sh : list nat) : option (list nat * nat) :=
  match reverse sh with
  | [] => None
  | d :: rpre => Some (reverse rpre, d)
  end.

End Tensors.

(* ================================================================== *)
(** * Parameter initializers *)

(** [paddle.nn.initializer]: the initializers that occur. *)
Inductive Initializer :=
| XavierUniform
| Normal (mean std : Py.float)
| Constant (value : Py.float)
| ConvDefault.

(** [paddle.ParamAttr(initializer=...)]. *)
Record ParamAttr := mkParamAttr { initializer : Initializer }.

(** [Normal(std=1e-6)]: the mean keeps its default, 0.0. *)
Definition Normal_std (std : Py.float) : Initializer := Normal Py.f0_0 std.

(* ================================================================== *)
(** * Random numbers, state and exceptions *)

(** The generator behind parameter initialization and the stochastic
    layers: a state and the draws from it. *)
Class RandomSource `{Scalar} := {
  G : Type;
  (** one element of a parameter of the given shape *)
  sample_param : Initializer → list nat → G → R * G;
  (** one factor of a dropout mask for drop probability [p]: zero for a
      dropped element, the rescaling factor for a kept one *)
  sample_keep : Py.float → G → R * G;
}.

Section Monad.
Context {SC : Scalar} {RS : RandomSource}.

(** A computation that may draw random numbers and may raise. *)
Definition M (A : Type) : Type := G → option (A * G).

Global Instance M_ret : MRet M := λ A a g, Some (a, g).
Global Instance M_bind : MBind M := λ A B f m g,
  match m g with
  | Some (a, g') => f a g'
  | None => None
  end.

Definition raise {A} : M A := λ _, None.

(** A computation that draws nothing. *)
Definition pure_ {A} (o : option A) : M A := λ g,
  match o with Some a => Some (a, g) | None => None end.

Definition draw {A} (f : G → A * G) : M A := λ g, Some (f g).

Fixpoint replicateM {A} (n : nat) (m : M A) : M (list A) :=
  match n with
  | 0 => mret []
  | S n => a ← m; l ← replicateM n m; mret (a :: l)
  end.

(** Threading a value through a list of steps. *)
Fixpoint foldM {A B} (f : B → A → M A) (l : list B) (a : A) : M A :=
  match l with
  | [] => mret a
  | b :: l => a' ← f b a; foldM f l a'
  end.

(** Total correctness: from every generator state the computation
    returns, and its result satisfies [P]. *)
Definition returns {A} (m : M A) (P : A → Prop) : Prop :=
  ∀ g, ∃ a g', m g = Some (a, g') ∧ P a.

(** Partial correctness: every result satisfies [P]. *)
Definition ensures {A} (m : M A) (P : A → Prop) : Prop :=
  ∀ g a g', m g = Some (a, g') → P a.

End Monad.

(* ================================================================== *)
(** * The tensor library: tensor methods *)

Section TensorMethods.
Context {SC : Scalar}.

(** [x + y].  The module only ever adds tensors of one shape (a residual
    branch and its input), so broadcasting is not modelled: unequal
    shapes are an error here. *)
Definition tensor_add (x y : Tensor) : option Tensor :=
  if decide (shape x = shape y)
  then Some (mkTensor (shape x) (zip_with radd (data x) (data y)))
  else None.

(** [x.transpose([0, 2, 1])]: swaps the last two axes of a rank-3
    tensor. *)
Definition transpose_0_2_1 (x : Tensor) : option Tensor :=
  match shape x with
  | [b; s; d] => Some (mkTensor [b; d; s] (tab3 b d s (λ i j k, get3 x i k j)))
  | _ => None
  end.

(** [x.flatten(start_axis=2, stop_axis=-1)]: merges the axes from the
    third on; the buffer is unchanged. *)
Definition flatten_2 (x : Tensor) : option Tensor :=
  match shape x with
  | a :: b :: c :: rest => Some (mkTensor [a; b; numel (c :: rest)] (data x))
  | _ => None
  end.

(** [x.mean(axis=1)]: the average over the second axis. *)
Definition mean_axis_1 (x : Tensor) : option Tensor :=
  match shape x with
  | a :: s :: rest =>
      let inner := numel rest in
      Some (mkTensor (a :: rest)
              (tab2 a inner (λ i k,
                 rdiv (rsum (tab s (λ j, at_ x ((i * s + j) * inner + k))))
                      (of_nat s))))
  | _ => None
  end.

(** An elementwise function. *)
Definition tensor_map (f : R → R) (x : Tensor) : Tensor :=
  mkTensor (shape x) (f <$> data x).

(** Row [r] of a tensor seen as rows of length [d] along its last axis. *)
Definition row (x : Tensor) (d r : nat) : list R :=
  tab d (λ i, at_ x (r * d + i)).

End TensorMethods.

(* ================================================================== *)
(** * The tensor library: [paddle.nn] layers *)

Section CreateParameter.
Context {SC : Scalar} {RS : RandomSource}.

(** A fresh parameter of the given shape, each element drawn by the
    initializer.  The library asserts that every size is larger than 0. *)
Definition create_parameter (sh : list Z) (init : Initializer) : M Tensor :=
  if forallb (Z.ltb 0) sh then
    let shn := Z.to_nat <$> sh in
    vs ← replicateM (numel shn) (draw (sample_param init shn));
    mret (mkTensor shn vs)
  else raise.

(** What a layer uses when it is given no [ParamAttr]: the library's
    defaults are Xavier-uniform weights and zero biases. *)
Definition weight_initializer (a : option ParamAttr) : Initializer :=
  match a with Some a => initializer a | None => XavierUniform end.
Definition bias_initializer (a : option ParamAttr) : Initializer :=
  match a with Some a => initializer a | None => Constant Py.f0_0 end.
End CreateParameter.

(** [nn.Linear(in_features, out_features, weight_attr, bias_attr)]:
    [y = x W + b] along the last axis, [W] of shape [[in; out]]. *)
Module Linear.
Section Defs.
Context {SC : Scalar} {RS : RandomSource}.

Record t := mk {
  weight : Tensor;
  bias : Tensor;
  weight_attr : option ParamAttr;
  bias_attr : option ParamAttr;
}.

Definition init (in_features out_features : Z)
    (weight_attr bias_attr : option ParamAttr) : M t :=
  w ← create_parameter [in_features; out_features]
        (weight_initializer weight_attr);
  b ← create_parameter [out_features] (bias_initializer bias_attr);
  mret (mk w b weight_attr bias_attr).

Definition forward (l : t) (x : Tensor) : option Tensor :=
  match shape (weight l), split_last (shape x) with
  | [n_in; n_out], Some (pre, d) =>
      if decide (d = n_in ∧ shape (bias l) = [n_out]) then
        Some (mkTensor (pre ++ [n_out])
                (tab2 (numel pre) n_out (λ r j,
                   radd (rsum (tab d (λ i,
                           rmul (at_ x (r * d + i))
                                (at_ (weight l) (i * n_out + j)))))
                        (at_ (bias l) j))))
      else None
  | _, _ => None
  end.
End Defs.
End Linear.

(** [nn.LayerNorm(normalized_shape, epsilon)] for an int
    [normalized_shape]: normalization along the last axis, then the
    elementwise scale and shift.  The scale and the shift are parameters
    of that size, which must be larger than 0. *)
Module LayerNorm.
Section Defs.
Context {SC : Scalar} {RS : RandomSource}.

Record t := mk {
  normalized_shape : nat;
  epsilon : Py.float;
  weight : Tensor;
  bias : Tensor;
}.

Definition init (normalized_shape : Z) (epsilon : Py.float) : M t :=
  if (0 <? normalized_shape)%Z then
    let n := Z.to_nat normalized_shape in
    mret (mk n epsilon (full [n] rone) (full [n] rzero))
  else raise.

Definition normalize (eps : R) (v : list R) (x : R) : R :=
  let n := of_nat (length v) in
  let mu := rdiv (rsum v) n in
  let var := rdiv (rsum ((λ a, rmul (rsub a mu) (rsub a mu)) <$> v)) n in
  rdiv (rsub x mu) (rsqrt (radd var eps)).

Definition forward (l : t) (x : Tensor) : option Tensor :=
  match split_last (shape x) with
  | Some (pre, d) =>
      if decide (d = normalized_shape l) then
        Some (mkTensor (shape x)
                (tab2 (numel pre) d (λ r j,
                   radd (rmul (normalize (of_float (epsilon l)) (row x d r)
                                         (at_ x (r * d + j)))
                              (at_ (weight l) j))
                        (at_ (bias l) j))))
      else None
  | None => None
  end.
End Defs.
End LayerNorm.

(** [nn.Conv2D(in_channels, out_channels, kernel_size, stride)]: no
    padding, no dilation, one group.  Each output element is the sum over
    the receptive field, taken channel by channel and row by row, plus the
    bias of the output channel.  The number of window positions along an
    axis is computed with the division that truncates towards zero and must
    be positive; a window that reaches beyond the image is clipped: what
    lies outside the image counts as zero. *)
Module Conv2D.
Section Defs.
Context {SC : Scalar} {RS : RandomSource}.

Record t := mk {
  kernel_size : Z * Z;
  stride : Z * Z;
  weight : Tensor;
  bias : Tensor;
}.

Definition init (in_channels out_channels : Z) (kernel_size stride : Z * Z)
    : M t :=
  w ← create_parameter
        [out_channels; in_channels; kernel_size.1; kernel_size.2] ConvDefault;
  b ← create_parameter [out_channels] (Constant Py.f0_0);
  mret (mk kernel_size stride w b).

(** Number of window positions along an axis of size [n]:
    [(n - k) / s + 1], the quotient truncated towards zero. *)
Definition out_size (n k s : nat) : Z :=
  (Z.quot (Z.of_nat n - Z.of_nat k) (Z.of_nat s) + 1)%Z.

(** The pixel of an input at a position of a window: zero outside the
    image. *)
Definition input_at (x : Tensor) (n ci i j : nat) : R :=
  match shape x with
  | [_; _; h; w] => if decide (i < h ∧ j < w) then get4 x n ci i j else rzero
  | _ => rzero
  end.

Definition forward (l : t) (x : Tensor) : option Tensor :=
  match shape x, shape (weight l) with
  | [b; c; h; w], [e; c'; kh; kw] =>
      let sh := Z.to_nat (stride l).1 in
      let sw := Z.to_nat (stride l).2 in
      let ho := out_size h kh sh in
      let wo := out_size w kw sw in
      if decide (c = c' ∧ shape (bias l) = [e] ∧ 0 < sh ∧ 0 < sw
                 ∧ (0 < ho)%Z ∧ (0 < wo)%Z) then
        Some (mkTensor [b; e; Z.to_nat ho; Z.to_nat wo]
                (tab4 b e (Z.to_nat ho) (Z.to_nat wo) (λ n o i j,
                   radd (rsum (tab3 c kh kw (λ ci ki kj,
                           rmul (input_at x n ci (i * sh + ki) (j * sw + kj))
                                (get4 (weight l) o ci ki kj))))
                        (at_ (bias l) o))))
      else None
  | _, _ => None
  end.
End Defs.
End Conv2D.

(** [nn.GELU()]. *)
Module GELU.
Section Defs.
Context {SC : Scalar}.
Record t := mk {}.
Definition forward (_ : t) (x : Tensor) : Tensor := tensor_map rgelu x.
End Defs.
End GELU.

(** [nn.Dropout(p)]: in training every element is multiplied by a freshly
    drawn mask factor; in evaluation the input is returned.  A probability
    outside [0, 1] is a ValueError. *)
Module Dropout.
Section Defs.
Context {SC : Scalar} {RS : RandomSource}.
Record t := mk { p : Py.float }.

Definition forward (l : t) (training : bool) (x : Tensor) : M Tensor :=
  if Py.bad_probability (p l) then raise
  else if training then
    ms ← replicateM (length (data x)) (draw (sample_keep (p l)));
    mret (mkTensor (shape x) (zip_with rmul (data x) ms))
  else mret x.
End Defs.
End Dropout.

(** [DropPath(drop_prob)], stochastic depth, from the sibling module
    [droppath]: its forward pass is a parameter of the development. *)
Module DropPath.
Record t := mk { drop_prob : Py.float }.
Class Impl `{RandomSource} := {
  forward : t → bool → Tensor → M Tensor;
}.
End DropPath.

(** [nn.Sequential] over a list of layers: each layer consumes the
    output of the one before it. *)
Module Sequential.
Section Defs.
Context {SC : Scalar} {RS : RandomSource}.
Definition forward {L} (layer_forward : L → Tensor → M Tensor)
    (layers : list L) (x : Tensor) : M Tensor :=
  foldM layer_forward layers x.
End Defs.
End Sequential.

(* ================================================================== *)
(** * The module [mlp_mixer]

    Every class is a module: its attributes are a record [t], its
    [__init__] is [init] and its [forward] is [forward].  The flag
    [training] of a forward pass is [self.training], which [train()] and
    [eval()] set on a layer and all its sublayers at once. *)

(** A Python exception inside an expression: [a // b]. *)
Definition floordiv (a b : Z) : option Z :=
  if decide (b = 0%Z) then None else Some (a / b)%Z.

(** [int(ratio * dim)]. *)
Definition scaled_dim (ratio : Py.float) (dim : Z) : option Z :=
  f ← Py.fmul_int ratio dim; Py.int f.

Module Identity.
Section Defs.
Context {SC : Scalar}.
Record t := mk {}.
Definition init : t := mk.
Definition forward (_ : t) (x : Tensor) : Tensor := x.
End Defs.
End Identity.

Module PatchEmbedding.
Section Defs.
Context {SC : Scalar} {RS : RandomSource}.

(** What [self.norm] holds: the given layer, or an [Identity]. *)
Inductive norm_t :=
| Norm (l : LayerNorm.t)
| NoNorm (l : Identity.t).

Record t := mk {
  image_size : Z * Z;
  patch_size : Z * Z;
  patches_resolution : Z * Z;
  num_patches : Z;
  in_channels : Z;
  embed_dim : Z;
  patch_embed : Conv2D.t;
  norm : norm_t;
}.

Definition init (image_size patch_size in_channels embed_dim : Z)
    (norm_layer : option LayerNorm.t) : M t :=
  let image_size := (image_size, image_size) in
  let patch_size := (patch_size, patch_size) in
  r0 ← pure_ (floordiv image_size.1 patch_size.1);
  r1 ← pure_ (floordiv image_size.2 patch_size.2);
  let patches_resolution := (r0, r1) in
  let num_patches := (patches_resolution.1 * patches_resolution.2)%Z in
  patch_embed ← Conv2D.init in_channels embed_dim patch_size patch_size;
  let norm := match norm_layer with
              | Some l => Norm l
              | None => NoNorm Identity.init
              end in
  mret (mk image_size patch_size patches_resolution num_patches
           in_channels embed_dim patch_embed norm).

Definition norm_forward (n : norm_t) (x : Tensor) : option Tensor :=
  match n with
  | Norm l => LayerNorm.forward l x
  | NoNorm l => Some (Identity.forward l x)
  end.

Definition forward (l : t) (x : Tensor) : option Tensor :=
  x ← Conv2D.forward (patch_embed l) x;
  x ← flatten_2 x;
  x ← transpose_0_2_1 x;
  x ← norm_forward (norm l) x;
  Some x.
End Defs.
End PatchEmbedding.

Module Mlp.
Section Defs.
Context {SC : Scalar} {RS : RandomSource}.

Record t := mk {
  fc1 : Linear.t;
  fc2 : Linear.t;
  act : GELU.t;
  dropout : Dropout.t;
}.

Definition _init_weights : ParamAttr * ParamAttr :=
  let weight_attr := mkParamAttr XavierUniform in
  let bias_attr := mkParamAttr (Normal_std Py.f1em6) in
  (weight_attr, bias_attr).

Definition init (in_features hidden_features : Z) (dropout : Py.float)
    : M t :=
  let '(w_attr_1, b_attr_1) := _init_weights in
  fc1 ← Linear.init in_features hidden_features
          (Some w_attr_1) (Some b_attr_1);
  let '(w_attr_2, b_attr_2) := _init_weights in
  fc2 ← Linear.init hidden_features in_features
          (Some w_attr_2) (Some b_attr_2);
  mret (mk fc1 fc2 GELU.mk (Dropout.mk dropout)).

Definition forward (l : t) (training : bool) (x : Tensor) : M Tensor :=
  x ← pure_ (Linear.forward (fc1 l) x);
  x ← mret (GELU.forward (act l) x);
  x ← Dropout.forward (dropout l) training x;
  x ← pure_ (Linear.forward (fc2 l) x);
  x ← Dropout.forward (dropout l) training x;
  mret x.
End Defs.
End Mlp.

Module MixerBlock.
Section Defs.
Context {SC : Scalar} {RS : RandomSource} {DP : DropPath.Impl}.

Record t := mk {
  norm1 : LayerNorm.t;
  mlp_tokens : Mlp.t;
  drop_path : DropPath.t;
  norm2 : LayerNorm.t;
  mlp_channels : Mlp.t;
}.

Definition init (dim seq_len : Z) (mlp_ratio : Py.float * Py.float)
    (dropout droppath : Py.float) : M t :=
  tokens_dim ← pure_ (scaled_dim mlp_ratio.1 dim);
  channels_dim ← pure_ (scaled_dim mlp_ratio.2 dim);
  norm1 ← LayerNorm.init dim Py.f1em6;
  mlp_tokens ← Mlp.init seq_len tokens_dim dropout;
  let drop_path := DropPath.mk droppath in
  norm2 ← LayerNorm.init dim Py.f1em6;
  mlp_channels ← Mlp.init dim channels_dim dropout;
  mret (mk norm1 mlp_tokens drop_path norm2 mlp_channels).

Definition forward (l : t) (training : bool) (x : Tensor) : M Tensor :=
  let h := x in
  x ← pure_ (LayerNorm.forward (norm1 l) x);
  x ← pure_ (transpose_0_2_1 x);
  x ← Mlp.forward (mlp_tokens l) training x;
  x ← pure_ (transpose_0_2_1 x);
  x ← DropPath.forward (drop_path l) training x;
  x ← pure_ (tensor_add x h);
  let h := x in
  x ← pure_ (LayerNorm.forward (norm2 l) x);
  x ← Mlp.forward (mlp_channels l) training x;
  x ← DropPath.forward (drop_path l) training x;
  x ← pure_ (tensor_add x h);
  mret x.
End Defs.
End MixerBlock.

Module MlpMixer.
Section Defs.
Context {SC : Scalar} {RS : RandomSource} {DP : DropPath.Impl}.

Record t := mk {
  num_classes : Z;
  num_features : Z;
  embed_dim : Z;
  patch_embed : PatchEmbedding.t;
  mixer_layers : list MixerBlock.t;
  norm : LayerNorm.t;
  head : Linear.t;
}.

(** The defaults of the keyword arguments that [build_mlp_mixer]
    leaves out. *)
Definition default_patch_size : Z := 16.
Definition default_patch_embed_norm : bool := false.

Definition init (num_classes image_size in_channels patch_size
    num_mixer_layers embed_dim : Z) (mlp_ratio : Py.float * Py.float)
    (dropout droppath : Py.float) (patch_embed_norm : bool) : M t :=
  norm_layer ← LayerNorm.init embed_dim Py.f1em6;
  patch_embed ← PatchEmbedding.init image_size patch_size in_channels
                  embed_dim
                  (if patch_embed_norm then Some norm_layer else None);
  mixer_layers ← replicateM (Z.to_nat num_mixer_layers)
                   (MixerBlock.init embed_dim
                      (PatchEmbedding.num_patches patch_embed)
                      mlp_ratio dropout droppath);
  norm ← LayerNorm.init embed_dim Py.f1em6;
  head ← Linear.init embed_dim num_classes None None;
  mret (mk num_classes embed_dim embed_dim patch_embed mixer_layers
           norm head).

Definition forward_features (l : t) (training : bool) (x : Tensor)
    : M Tensor :=
  x ← pure_ (PatchEmbedding.forward (patch_embed l) x);
  x ← Sequential.forward (λ b, MixerBlock.forward b training)
        (mixer_layers l) x;
  x ← pure_ (LayerNorm.forward (norm l) x);
  x ← pure_ (mean_axis_1 x);
  mret x.

Definition forward (l : t) (training : bool) (x : Tensor) : M Tensor :=
  x ← forward_features l training x;
  x ← pure_ (Linear.forward (head l) x);
  mret x.
End Defs.
End MlpMixer.

(** A config object: a tree of attributes with ints and floats at the
    leaves.  Reading a missing attribute is an AttributeError. *)
#[warnings="-register-all"]
Inductive Config :=
| CfgInt (z : Z)
| CfgFloat (f : Py.float)
| CfgNode (attrs : gmap string Config).

Definition getattr (name : string) (c : Config) : option Config :=
  match c with
  | CfgNode attrs => attrs !! name
  | _ => None
  end.

(** A size.  The constructors are modelled on int sizes, so that only
    an int leaf is read as one. *)
Definition as_int (c : Config) : option Z :=
  match c with CfgInt z => Some z | _ => None end.

(** A rate: the value is passed on as it is, and an int is used as the
    number it is. *)
Definition as_float (c : Config) : option Py.float :=
  match c with
  | CfgFloat f => Some f
  | CfgInt z => Some (binary_normalize Py.prec Py.emax z 0 false)
  | CfgNode _ => None
  end.

(** [config.a.b.c]. *)
Definition getpath (path : list string) (c : Config) : option Config :=
  foldl (λ o name, o ≫= getattr name) (Some c) path.

Section Build.
Context {SC : Scalar} {RS : RandomSource} {DP : DropPath.Impl}.

Definition build_mlp_mixer (config : Config) : M MlpMixer.t :=
  num_classes ← pure_ (getpath ["MODEL"; "NUM_CLASSES"] config ≫= as_int);
  image_size ← pure_ (getpath ["DATA"; "IMAGE_SIZE"] config ≫= as_int);
  num_mixer_layers ←
    pure_ (getpath ["MODEL"; "MIXER"; "NUM_LAYERS"] config ≫= as_int);
  embed_dim ←
    pure_ (getpath ["MODEL"; "MIXER"; "HIDDEN_SIZE"] config ≫= as_int);
  dropout ← pure_ (getpath ["MODEL"; "DROPOUT"] config ≫= as_float);
  droppath ← pure_ (getpath ["MODEL"; "DROPPATH"] config ≫= as_float);
  model ← MlpMixer.init num_classes image_size 3
            MlpMixer.default_patch_size num_mixer_layers embed_dim
            (Py.f0_5, Py.f4_0) dropout droppath
            MlpMixer.default_patch_embed_norm;
  mret model.
End Build.

(** The attributes that [build_mlp_mixer] reads. *)
Definition int_options : list (list string) :=
  [ ["MODEL"; "NUM_CLASSES"]; ["DATA"; "IMAGE_SIZE"];
    ["MODEL"; "MIXER"; "NUM_LAYERS"]; ["MODEL"; "MIXER"; "HIDDEN_SIZE"] ].
Definition float_options : list (list string) :=
  [ ["MODEL"; "DROPOUT"]; ["MODEL"; "DROPPATH"] ].

(** Their values: [num_classes], [image_size], [num_mixer_layers],
    [embed_dim], [dropout], [droppath]. *)
Definition read_options (config : Config)
    : option (Z * Z * Z * Z * Py.float * Py.float) :=
  ints ← mapM (λ path, getpath path config ≫= as_int) int_options;
  floats ← mapM (λ path, getpath path config ≫= as_float) float_options;
  match ints, floats with
  | [num_classes; image_size; num_mixer_layers; embed_dim],
    [dropout; droppath] =>
      Some (num_classes, image_size, num_mixer_layers, embed_dim,
            dropout, droppath)
  | _, _ => None
  end.

(* ================================================================== *)
(** * Invariants of constructed layers *)

Section Invariants.
Context {SC : Scalar} {RS : RandomSource} {DP : DropPath.Impl}.

(** A linear layer from [n_in] to [n_out] features. *)
Definition Linear_dims (l : Linear.t) (n_in n_out : nat) : Prop :=
  has_shape (Linear.weight l) [n_in; n_out] ∧ has_shape (Linear.bias l) [n_out].

(** The initializers a linear layer's parameters are drawn with. *)
Definition initialized_with (l : Linear.t) (w b : Initializer) : Prop :=
  weight_initializer (Linear.weight_attr l) = w
  ∧ bias_initializer (Linear.bias_attr l) = b.

(** The parameters of a linear layer from [n_in] to [n_out] features
    are what [create_parameter] draws, the weight first and the bias from
    the generator state the weight left, with the initializers [w] and
    [b]. *)
Definition drawn_by (l : Linear.t) (n_in n_out : Z) (w b : Initializer)
    : Prop :=
  ∃ g g' g'',
    create_parameter [n_in; n_out] w g = Some (Linear.weight l, g')
    ∧ create_parameter [n_out] b g' = Some (Linear.bias l, g'').

Definition LayerNorm_dims (l : LayerNorm.t) (n : nat) : Prop :=
  LayerNorm.normalized_shape l = n
  ∧ has_shape (LayerNorm.weight l) [n] ∧ has_shape (LayerNorm.bias l) [n].

(** A convolution of [c] input and [e] output channels whose window is
    [k] by [k] and moves by [k]. *)
Definition Conv2D_patch (l : Conv2D.t) (c e k : nat) : Prop :=
  has_shape (Conv2D.weight l) [e; c; k; k] ∧ has_shape (Conv2D.bias l) [e]
  ∧ Conv2D.stride l = (Z.of_nat k, Z.of_nat k)
  ∧ Conv2D.kernel_size l = (Z.of_nat k, Z.of_nat k).

(** An Mlp on [n] features with [h] hidden features. *)
Definition Mlp_dims (l : Mlp.t) (n h : nat) : Prop :=
  Linear_dims (Mlp.fc1 l) n h ∧ Linear_dims (Mlp.fc2 l) h n.

(** A mixer block for sequences of [seq_len] vectors of [dim] channels,
    with hidden sizes [td] and [cd]. *)
Definition MixerBlock_dims (l : MixerBlock.t) (dim seq_len td cd : nat) : Prop :=
  LayerNorm_dims (MixerBlock.norm1 l) dim
  ∧ LayerNorm_dims (MixerBlock.norm2 l) dim
  ∧ Mlp_dims (MixerBlock.mlp_tokens l) seq_len td
  ∧ Mlp_dims (MixerBlock.mlp_channels l) dim cd.

(** The rates a block was given. *)
Definition MixerBlock_rates (l : MixerBlock.t) (dropout droppath : Py.float)
    : Prop :=
  Mlp.dropout (MixerBlock.mlp_tokens l) = Dropout.mk dropout
  ∧ Mlp.dropout (MixerBlock.mlp_channels l) = Dropout.mk dropout
  ∧ MixerBlock.drop_path l = DropPath.mk droppath.

(** The stochastic-depth layer accepts every well-formed tensor and
    returns one of the same shape. *)
Definition DropPath_preserves_shape (l : DropPath.t) : Prop :=
  ∀ training x sh, has_shape x sh →
    returns (DropPath.forward l training x) (λ y, has_shape y sh).

(** The layers of a model, by kind. *)
Definition mlp_linears (m : Mlp.t) : list Linear.t := [Mlp.fc1 m; Mlp.fc2 m].

Definition block_linears (b : MixerBlock.t) : list Linear.t :=
  mlp_linears (MixerBlock.mlp_tokens b) ++ mlp_linears (MixerBlock.mlp_channels b).

Definition mixer_linears (m : MlpMixer.t) : list Linear.t :=
  mjoin (block_linears <$> MlpMixer.mixer_layers m).

Definition linear_layers (m : MlpMixer.t) : list Linear.t :=
  mixer_linears m ++ [MlpMixer.head m].

Definition patch_embed_norms (p : PatchEmbedding.t) : list LayerNorm.t :=
  match PatchEmbedding.norm p with
  | PatchEmbedding.Norm l => [l]
  | PatchEmbedding.NoNorm _ => []
  end.

Definition block_norms (b : MixerBlock.t) : list LayerNorm.t :=
  [MixerBlock.norm1 b; MixerBlock.norm2 b].

Definition layer_norms (m : MlpMixer.t) : list LayerNorm.t :=
  patch_embed_norms (MlpMixer.patch_embed m)
  ++ mjoin (block_norms <$> MlpMixer.mixer_layers m)
  ++ [MlpMixer.norm m].

(** The stochastic-depth layer, when it returns, returns a tensor of the
    shape it was given. *)
Definition DropPath_keeps_shape (l : DropPath.t) : Prop :=
  ∀ training x sh, has_shape x sh →
    ensures (DropPath.forward l training x) (λ y, has_shape y sh).

(** What makes a block run: its sizes, and rates its stochastic layers
    accept. *)
Definition MixerBlock_runs (l : MixerBlock.t) (dim seq_len : nat) : Prop :=
  (∃ td cd, MixerBlock_dims l dim seq_len td cd)
  ∧ Py.bad_probability (Dropout.p (Mlp.dropout (MixerBlock.mlp_tokens l))) = false
  ∧ Py.bad_probability (Dropout.p (Mlp.dropout (MixerBlock.mlp_channels l))) = false
  ∧ DropPath_preserves_shape (MixerBlock.drop_path l).

(** The output of a convolution, written out. *)
Definition conv_output (l : Conv2D.t) (x : Tensor) (b c h w e kh kw : nat)
    : Tensor :=
  let sh := Z.to_nat (Conv2D.stride l).1 in
  let sw := Z.to_nat (Conv2D.stride l).2 in
  let ho := Z.to_nat (Conv2D.out_size h kh sh) in
  let wo := Z.to_nat (Conv2D.out_size w kw sw) in
  mkTensor [b; e; ho; wo]
    (tab4 b e ho wo (λ n o i j,
       radd (rsum (tab3 c kh kw (λ ci ki kj,
               rmul (Conv2D.input_at x n ci (i * sh + ki) (j * sw + kj))
                    (get4 (Conv2D.weight l) o ci ki kj))))
            (at_ (Conv2D.bias l) o))).

(** What [self.norm] of a patch embedding must be to accept [e]
    channels. *)
Definition norm_accepts (n : PatchEmbedding.norm_t) (e : nat) : Prop :=
  match n with
  | PatchEmbedding.Norm l => LayerNorm.normalized_shape l = e
  | PatchEmbedding.NoNorm _ => True
  end.

(** The sequence length of a constructed model, as a size. *)
Definition seq_len_of (m : MlpMixer.t) : nat :=
  Z.to_nat (PatchEmbedding.num_patches (MlpMixer.patch_embed m)).

End Invariants.

(* ================================================================== *)
(** * Reference computations *)

Section References.
Context {SC : Scalar} {RS : RandomSource} {DP : DropPath.Impl}.

(** A residual connection around a branch: [x + branch(x)]. *)
Definition residual (branch : Tensor → M Tensor) (x : Tensor) : M Tensor :=
  t ← branch x; pure_ (tensor_add x t).

(** The token-mixing branch: [DropPath(transpose(mlp_tokens(transpose(
    norm1(x)))))]. *)
Definition token_mixing (l : MixerBlock.t) (training : bool) (x : Tensor)
    : M Tensor :=
  t ← pure_ (LayerNorm.forward (MixerBlock.norm1 l) x);
  t ← pure_ (transpose_0_2_1 t);
  t ← Mlp.forward (MixerBlock.mlp_tokens l) training t;
  t ← pure_ (transpose_0_2_1 t);
  DropPath.forward (MixerBlock.drop_path l) training t.

(** The channel-mixing branch: [DropPath(mlp_channels(norm2(x)))]. *)
Definition channel_mixing (l : MixerBlock.t) (training : bool) (x : Tensor)
    : M Tensor :=
  t ← pure_ (LayerNorm.forward (MixerBlock.norm2 l) x);
  t ← Mlp.forward (MixerBlock.mlp_channels l) training t;
  DropPath.forward (MixerBlock.drop_path l) training t.

(** The two stages, one after the other. *)
Definition two_stage (l : MixerBlock.t) (training : bool) (x : Tensor)
    : M Tensor :=
  x1 ← residual (token_mixing l training) x;
  residual (channel_mixing l training) x1.

(** The affine map of a linear layer from [n_in] to [n_out] features on
    one vector [v]: output [j] of [v W + b]. *)
Definition affine (fc : Linear.t) (n_in n_out : nat) (v : nat → R) (j : nat)
    : R :=
  radd (rsum (tab n_in (λ i,
          rmul (v i) (at_ (Linear.weight fc) (i * n_out + j)))))
       (at_ (Linear.bias fc) j).

(** The feed-forward network of an [Mlp] on [n] features with [h] hidden
    features, on one vector and without dropout: output [j] of
    [fc2(gelu(fc1(v)))]. *)
Definition feed_forward (l : Mlp.t) (n h : nat) (v : nat → R) (j : nat) : R :=
  affine (Mlp.fc2 l) h n (λ i, rgelu (affine (Mlp.fc1 l) n h v i)) j.

(** The square patch in block row [i], block column [j] of image [n],
    flattened channel by channel and row by row. *)
Definition patch (x : Tensor) (c p n i j : nat) : list R :=
  tab3 c p p (λ ci ki kj, get4 x n ci (i * p + ki) (j * p + kj)).

(** Splitting a batch of images into non-overlapping square patches of
    side [p], row by row: one flattened patch per sequence position.
    The images must divide evenly. *)
Definition split_patches (p : nat) (x : Tensor) : option Tensor :=
  match shape x with
  | [b; c; h; w] =>
      if decide (0 < p ∧ (p | h) ∧ (p | w)) then
        let wo := w / p in
        let n_patches := h / p * wo in
        Some (mkTensor [b; n_patches; c * p * p]
                (tab3 b n_patches (c * p * p) (λ n q m,
                   nth m (patch x c p n (q / wo) (q mod wo)) rzero)))
      else None
  | _ => None
  end.

(** The affine map that the convolution applies to a flattened window:
    a linear layer whose weight column [o] is the flattened kernel of
    output channel [o]. *)
Definition projection (l : Conv2D.t) : option Linear.t :=
  match shape (Conv2D.weight l) with
  | [e; c; kh; kw] =>
      let d := c * kh * kw in
      Some (Linear.mk
              (mkTensor [d; e]
                 (tab2 d e (λ m o, at_ (Conv2D.weight l) (o * d + m))))
              (Conv2D.bias l) None None)
  | _ => None
  end.

(** The reference computation: split into patches, project every patch
    with the one shared affine map, then the optional normalization. *)
Definition per_patch_projection (l : PatchEmbedding.t) (x : Tensor)
    : option Tensor :=
  patches ← split_patches (Z.to_nat (PatchEmbedding.patch_size l).1) x;
  fc ← projection (PatchEmbedding.patch_embed l);
  y ← Linear.forward fc patches;
  PatchEmbedding.norm_forward (PatchEmbedding.norm l) y.

(** The sequence of embeddings, written out: at position [q] of image
    [n], channel [o] is the flattened patch [q] times the flattened kernel
    [o], plus the bias. *)
Definition embedded (l : Conv2D.t) (x : Tensor) (b c h w e k : nat) : Tensor :=
  mkTensor [b; h / k * (w / k); e]
    (tab3 b (h / k * (w / k)) e (λ n q o,
       radd (rsum (tab (c * k * k) (λ m,
               rmul (nth m (patch x c k n (q / (w / k)) (q mod (w / k))) rzero)
                    (at_ (Conv2D.weight l) (o * (c * k * k) + m)))))
            (at_ (Conv2D.bias l) o))).

(** Two batches agree on the pixels covered by complete windows. *)
Definition agree_on_patches (k : nat) (x x' : Tensor) : Prop :=
  ∃ b c h w, shape x = [b; c; h; w] ∧ shape x' = [b; c; h; w]
    ∧ ∀ n ci i j, n < b → ci < c → i < h / k * k → j < w / k * k →
        get4 x n ci i j = get4 x' n ci i j.

End References.

(* ================================================================== *)
(** * Notions for the behaviour of a forward pass *)

Section Behaviour.
Context {SC : Scalar} {RS : RandomSource} {DP : DropPath.Impl}.

(** A computation that draws no random numbers: from every generator
    state it fails, or returns the same value and leaves the state as it
    was. *)
Definition draws_nothing {A} (m : M A) : Prop :=
  ∃ o : option A, ∀ g, m g = pure_ o g.

(** The stochastic-depth layer draws nothing in evaluation mode. *)
Definition DropPath_eval_draws_nothing : Prop :=
  ∀ (l : DropPath.t) (x : Tensor), draws_nothing (DropPath.forward l false x).

(** A batch of [b] images of [c] channels that holds [n] complete windows
    of side [k] per image. *)
Definition patch_grid (k : nat) (x : Tensor) (b c n : nat) : Prop :=
  ∃ h w, shape x = [b; c; h; w] ∧ k ≤ h ∧ k ≤ w ∧ h / k * (w / k) = n.

(** A batch of [b] images of [c] channels, none empty, with [n] window
    positions of side and stride [k] per image: the complete windows, or
    one clipped window along an axis shorter than [k]. *)
Definition window_grid (k : nat) (x : Tensor) (b c n : nat) : Prop :=
  ∃ h w, shape x = [b; c; h; w] ∧ 0 < h ∧ 0 < w
         ∧ Nat.max 1 (h / k) * Nat.max 1 (w / k) = n.

(** A computation that returns [a] from every generator state and
    leaves the state as it was. *)
Definition yields {A} (m : M A) (a : A) : Prop := ∀ g, m g = Some (a, g).

(** The blocks of a list applied one after the other, the first block of
    the list first: each block is given what the block before it returned
    and the generator state that block left. *)
Inductive applied_in_order (training : bool)
    : list MixerBlock.t → Tensor → G → Tensor → G → Prop :=
| applied_nil x g : applied_in_order training [] x g x g
| applied_cons b blocks x g x1 g1 y g' :
    MixerBlock.forward b training x g = Some (x1, g1) →
    applied_in_order training blocks x1 g1 y g' →
    applied_in_order training (b :: blocks) x g y g'.

(** The stochastic-depth layer returns its input in evaluation mode. *)
Definition DropPath_eval_identity : Prop :=
  ∀ (l : DropPath.t) (x : Tensor) (g : G),
    DropPath.forward l false x g = Some (x, g).

(** Sequence [n] of the batch [x] is sequence [n'] of the batch [x']:
    the same [s] vectors of [d] channels. *)
Definition same_sequence (s d : nat) (x : Tensor) (n : nat)
    (x' : Tensor) (n' : nat) : Prop :=
  ∀ j k, j < s → k < d → get3 x n j k = get3 x' n' j k.

(** Image [n] of the batch [x] is image [n'] of the batch [x']. *)
Definition same_image (c h w : nat) (x : Tensor) (n : nat)
    (x' : Tensor) (n' : nat) : Prop :=
  ∀ ci i j, ci < c → i < h → j < w → get4 x n ci i j = get4 x' n' ci i j.

End Behaviour.

(* ================================================================== *)
(** * A concrete instance

    Integer scalars, a linear congruential generator, and a stochastic
    depth layer that keeps or drops each sample of the batch as a whole.
    The statements below are exercised on it. *)

Module Example.

Definition ZScalar : Scalar := {|
  R := Z; rzero := 0%Z; rone := 1%Z;
  radd := Z.add; rsub := Z.sub; rmul := Z.mul; rdiv := Z.div;
  rsqrt := Z.sqrt; rgelu := Z.max 0;
  of_nat := Z.of_nat; of_float := λ f, default 0%Z (Py.int f) |}.

#[local] Existing Instance ZScalar.

Definition next (g : Z) : Z := ((g * 3 + 1) mod 1009)%Z.

Definition ZRandom : RandomSource :=
  @Build_RandomSource ZScalar Z
    (λ _ _ g, ((g mod 5 - 2)%Z, next g))
    (λ _ g, ((g mod 2)%Z, next g)).

#[local] Existing Instance ZRandom.

Definition drop_path_per_sample (l : DropPath.t) (training : bool)
    (x : Tensor) : M Tensor :=
  if training then
    ms ← replicateM (hd 0 (shape x))
           (draw (sample_keep (DropPath.drop_prob l)));
    mret (mkTensor (shape x)
            (tab (length (data x))
               (λ o, rmul (at_ x o)
                          (nth (o / numel (tail (shape x))) ms rzero))))
  else mret x.

Definition ZDropPath : DropPath.Impl :=
  {| DropPath.forward := drop_path_per_sample |}.

#[local] Existing Instance ZDropPath.

(** A small model: 4 by 4 images of one channel, patches of side 2,
    one mixer block, 2 channels, 2 classes. *)
Definition init_model : M MlpMixer.t :=
  MlpMixer.init 2 4 1 2 1 2 (Py.f0_5, Py.f4_0) Py.f0_0 Py.f0_0 false.

Definition seed : G := 1%Z.

(** An 8 by 8 image, smaller than a patch of side 16. *)
Definition small_image : Tensor := full [1; 1; 8; 8] 1%Z.

Definition image : Tensor :=
  mkTensor [1; 1; 4; 4] (Z.of_nat <$> seq 1 16).

(** A config object that also holds options that [build_mlp_mixer] does
    not read. *)
Definition config : Config :=
  CfgNode {[
    "DATA" := CfgNode {[ "IMAGE_SIZE" := CfgInt 32; "IN_CHANNELS" := CfgInt 1 ]};
    "MODEL" := CfgNode {[
      "NUM_CLASSES" := CfgInt 2;
      "DROPOUT" := CfgFloat Py.f0_0;
      "DROPPATH" := CfgFloat Py.f0_0;
      "MIXER" := CfgNode {[
        "NUM_LAYERS" := CfgInt 1;
        "HIDDEN_SIZE" := CfgInt 2;
        "PATCH_SIZE" := CfgInt 32;
        "MLP_RATIO" := CfgFloat Py.f1_0 ]} ]} ]}.

(** The config object without the stochastic-depth rate. *)
Definition config_without_droppath : Config :=
  CfgNode {[
    "DATA" := CfgNode {[ "IMAGE_SIZE" := CfgInt 32 ]};
    "MODEL" := CfgNode {[
      "NUM_CLASSES" := CfgInt 2;
      "DROPOUT" := CfgFloat Py.f0_0;
      "MIXER" := CfgNode {[
        "NUM_LAYERS" := CfgInt 1;
        "HIDDEN_SIZE" := CfgInt 2 ]} ]} ]}.

(** A config object for 8 by 8 images, smaller than the patch. *)
Definition config_small_image : Config :=
  CfgNode {[
    "DATA" := CfgNode {[ "IMAGE_SIZE" := CfgInt 8 ]};
    "MODEL" := CfgNode {[
      "NUM_CLASSES" := CfgInt 2;
      "DROPOUT" := CfgFloat Py.f0_0;
      "DROPPATH" := CfgFloat Py.f0_0;
      "MIXER" := CfgNode {[
        "NUM_LAYERS" := CfgInt 1;
        "HIDDEN_SIZE" := CfgInt 2 ]} ]} ]}.

(** The small model without mixer blocks. *)
Definition init_model_without_blocks : M MlpMixer.t :=
  MlpMixer.init 2 4 1 2 0 2 (Py.f0_5, Py.f4_0) Py.f0_0 Py.f0_0 false.

(** A batch of one sequence of four tokens of two channels, one that has
    the same first token, and one that has the same first channel. *)
Definition tokens : Tensor := mkTensor [1; 4; 2] [1; 2; 3; 4; 5; 6; 7; 8]%Z.
Definition tokens_same_token : Tensor :=
  mkTensor [1; 4; 2] [1; 2; 9; 9; 9; 9; 9; 9]%Z.
Definition tokens_same_channel : Tensor :=
  mkTensor [1; 4; 2] [1; 9; 3; 9; 5; 9; 7; 9]%Z.

(** A 6 by 2 image: three patches of side 2. *)
Definition tall_image : Tensor := full [1; 1; 6; 2] 1%Z.

(** A batch of two images whose second image is [image]. *)
Definition two_images : Tensor :=
  mkTensor [2; 1; 4; 4] (replicate 16 0%Z ++ (Z.of_nat <$> seq 1 16)).

(** The small model with two mixer blocks. *)
Definition init_model_two_blocks : M MlpMixer.t :=
  MlpMixer.init 2 4 1 2 2 2 (Py.f0_5, Py.f4_0) Py.f0_0 Py.f0_0 false.

(** [1.5], a dropout rate outside [[0, 1]]. *)
Definition rate_1_5 : Py.float := S754_finite false 6755399441055744 (-52).

(** A config object for 8 by 8 images and a model without mixer blocks,
    with the dropout rate given as the int [0]. *)
Definition config_small_image_no_block : Config :=
  CfgNode {[
    "DATA" := CfgNode {[ "IMAGE_SIZE" := CfgInt 8 ]};
    "MODEL" := CfgNode {[
      "NUM_CLASSES" := CfgInt 2;
      "DROPOUT" := CfgInt 0;
      "DROPPATH" := CfgFloat Py.f0_0;
      "MIXER" := CfgNode {[
        "NUM_LAYERS" := CfgInt 0;
        "HIDDEN_SIZE" := CfgInt 2 ]} ]} ]}.

(** A batch of one 8 by 8 image of three channels. *)
Definition small_rgb_image : Tensor := full [1; 3; 8; 8] 1%Z.

(** A 1 by 1 image of one channel. *)
Definition pixel : Tensor := full [1; 1; 1; 1] 1%Z.

(** A test on the result of a computation that may fail. *)
Definition holds {A} (o : option A) (p : A → bool) : bool :=
  match o with Some a => p a | None => false end.

End Example.

(* ================================================================== *)
(** * Facts: row-major indexing *)

Section IndexFacts.

Lemma divmod_encode (b i j : nat) :
  j < b → (i * b + j) / b = i ∧ (i * b + j) mod b = j.
Proof.
  intros Hj. split.
  - rewrite Nat.div_add_l by lia. rewrite Nat.div_small by lia. lia.
  - rewrite Nat.add_comm, Nat.Div0.mod_add. by apply Nat.mod_small.
Qed.

Lemma offset_lt (a b i j : nat) : i < a → j < b → i * b + j < a * b.
Proof.
  intros Hi Hj. assert ((i + 1) * b ≤ a * b) by (apply Nat.mul_le_mono_r; lia).
  lia.
Qed.

Lemma divmod_decode (b o : nat) : 0 < b → o = o / b * b + o mod b.
Proof. intros Hb. pose proof (Nat.div_mod_eq o b). lia. Qed.

Lemma div_lt_mul (a b o : nat) : o < a * b → o / b < a.
Proof.
  intros Ho. destruct (decide (b = 0)) as [->|Hb]; [lia|].
  apply Nat.Div0.div_lt_upper_bound. lia.
Qed.

Lemma mod_lt_mul (a b o : nat) : o < a * b → o mod b < b.
Proof. intros Ho. apply Nat.mod_upper_bound. lia. Qed.

End IndexFacts.

Section TabFacts.
Context {SC : Scalar}.

Lemma length_tab n f : length (tab n f) = n.
Proof. unfold tab. by rewrite length_map, length_seq. Qed.

Lemma nth_tab n f i : i < n → nth i (tab n f) rzero = f i.
Proof.
  intros Hi. unfold tab.
  rewrite (nth_indep _ rzero (f 0)) by (by rewrite length_map, length_seq).
  rewrite (map_nth f). by rewrite seq_nth.
Qed.

Lemma tab_ext n f g : (∀ i, i < n → f i = g i) → tab n f = tab n g.
Proof.
  intros Hfg. unfold tab. apply map_ext_in. intros i Hi.
  apply in_seq in Hi. apply Hfg. lia.
Qed.

Lemma length_tab2 a b f : length (tab2 a b f) = a * b.
Proof. apply length_tab. Qed.
Lemma length_tab3 a b c f : length (tab3 a b c f) = a * b * c.
Proof. apply length_tab. Qed.
Lemma length_tab4 a b c d f : length (tab4 a b c d f) = a * b * c * d.
Proof. apply length_tab. Qed.

Lemma nth_tab2 a b f i j :
  i < a → j < b → nth (i * b + j) (tab2 a b f) rzero = f i j.
Proof.
  intros Hi Hj. unfold tab2. rewrite nth_tab by (by apply offset_lt).
  by destruct (divmod_encode b i j Hj) as [-> ->].
Qed.

Lemma nth_tab3 a b c f i j k :
  i < a → j < b → k < c →
  nth ((i * b + j) * c + k) (tab3 a b c f) rzero = f i j k.
Proof.
  intros Hi Hj Hk. unfold tab3.
  rewrite nth_tab by (by repeat apply offset_lt).
  rewrite (Nat.mul_comm b c), <- Nat.Div0.div_div.
  destruct (divmod_encode c (i * b + j) k Hk) as [-> ->].
  by destruct (divmod_encode b i j Hj) as [-> ->].
Qed.

Lemma nth_tab4 a b c d f i j k l :
  i < a → j < b → k < c → l < d →
  nth (((i * b + j) * c + k) * d + l) (tab4 a b c d f) rzero = f i j k l.
Proof.
  intros Hi Hj Hk Hl. unfold tab4.
  rewrite nth_tab by (by repeat apply offset_lt).
  replace (b * c * d) with (d * c * b) by lia.
  replace (c * d) with (d * c) by lia.
  rewrite <- !Nat.Div0.div_div.
  destruct (divmod_encode d ((i * b + j) * c + k) l Hl) as [-> ->].
  destruct (divmod_encode c (i * b + j) k Hk) as [-> ->].
  by destruct (divmod_encode b i j Hj) as [-> ->].
Qed.

Lemma tab2_ext a b f g :
  (∀ i j, i < a → j < b → f i j = g i j) → tab2 a b f = tab2 a b g.
Proof.
  intros Hfg. apply tab_ext. intros o Ho.
  apply Hfg; [by apply div_lt_mul | by eapply mod_lt_mul].
Qed.

Lemma tab3_ext a b c f g :
  (∀ i j k, i < a → j < b → k < c → f i j k = g i j k) →
  tab3 a b c f = tab3 a b c g.
Proof.
  intros Hfg. apply tab_ext. intros o Ho. apply Hfg.
  - apply div_lt_mul. lia.
  - apply Nat.mod_upper_bound. nia.
  - apply Nat.mod_upper_bound. nia.
Qed.

Lemma numel_app sh1 sh2 : numel (sh1 ++ sh2) = numel sh1 * numel sh2.
Proof. induction sh1 as [|a sh1 IH]; simpl; [lia|]. rewrite IH. lia. Qed.

Lemma numel_snoc pre d : numel (pre ++ [d]) = numel pre * d.
Proof. rewrite numel_app. simpl. lia. Qed.

Lemma split_last_snoc pre d : split_last (pre ++ [d]) = Some (pre, d).
Proof.
  unfold split_last. rewrite reverse_app. simpl.
  by rewrite reverse_involutive.
Qed.

Lemma split_last_Some sh pre d :
  split_last sh = Some (pre, d) → sh = pre ++ [d].
Proof.
  unfold split_last. destruct (reverse sh) as [|d' rpre] eqn:E; [done|].
  intros [= <- <-]. apply (inj reverse).
  by rewrite E, reverse_app, reverse_involutive.
Qed.

Lemma has_shape_full sh v : has_shape (full sh v) sh.
Proof. split; [done|]. unfold wf. simpl. apply length_replicate. Qed.

End TabFacts.

(* ================================================================== *)
(** * Facts: the monad *)

Section MonadFacts.
Context {SC : Scalar} {RS : RandomSource}.

Lemma bind_eq {A B} (m : M A) (f : A → M B) g :
  (m ≫= f) g = match m g with Some (a, g') => f a g' | None => None end.
Proof. reflexivity. Qed.

Lemma bind_Some {A B} (m : M A) (f : A → M B) g b g' :
  (m ≫= f) g = Some (b, g') ↔
  ∃ a g1, m g = Some (a, g1) ∧ f a g1 = Some (b, g').
Proof.
  rewrite bind_eq. destruct (m g) as [[a g1]|]; split.
  - eauto.
  - by intros (? & ? & [= <- <-] & ?).
  - done.
  - by intros (? & ? & ? & ?).
Qed.

Lemma pure_Some {A} (o : option A) g a g' :
  pure_ o g = Some (a, g') ↔ o = Some a ∧ g' = g.
Proof.
  unfold pure_. destruct o as [x|]; split.
  - by intros [= -> ->].
  - by intros [[= ->] ->].
  - done.
  - by intros [? _].
Qed.

Lemma ret_Some {A} (x : A) g a g' :
  (mret x : M A) g = Some (a, g') ↔ a = x ∧ g' = g.
Proof.
  unfold mret, M_ret. split; [by intros [= -> ->] | by intros [-> ->]].
Qed.

Lemma bind_assoc {A B C} (m : M A) (f : A → M B) (k : B → M C) g :
  ((m ≫= f) ≫= k) g = (m ≫= λ a, f a ≫= k) g.
Proof. rewrite !bind_eq. by destruct (m g) as [[a g1]|]. Qed.

Lemma bind_ret_l {A B} (a : A) (f : A → M B) g : (mret a ≫= f) g = f a g.
Proof. reflexivity. Qed.

Lemma bind_ret_r {A} (m : M A) g : (m ≫= mret) g = m g.
Proof. rewrite bind_eq. by destruct (m g) as [[a g1]|]. Qed.

Lemma bind_ext {A B} (m : M A) (f f' : A → M B) g :
  (∀ a g1, f a g1 = f' a g1) → (m ≫= f) g = (m ≫= f') g.
Proof. intros E. rewrite !bind_eq. by destruct (m g) as [[a g1]|]. Qed.

Lemma returns_ret {A} (a : A) (P : A → Prop) : P a → returns (mret a) P.
Proof. intros Ha g. by exists a, g. Qed.

Lemma returns_bind {A B} (m : M A) (f : A → M B) P Q :
  returns m P → (∀ a, P a → returns (f a) Q) → returns (m ≫= f) Q.
Proof.
  intros Hm Hf g. destruct (Hm g) as (a & g1 & Em & Ha).
  destruct (Hf a Ha g1) as (b & g2 & Ef & Hb).
  exists b, g2. split; [|done]. apply bind_Some. eauto.
Qed.

Lemma returns_pure {A} (o : option A) (P : A → Prop) a :
  o = Some a → P a → returns (pure_ o) P.
Proof. intros -> Ha g. by exists a, g. Qed.

Lemma returns_pure_eq {A} (o : option A) a :
  o = Some a → returns (pure_ o) (λ a', a' = a).
Proof. intros E. by eapply returns_pure. Qed.

Lemma returns_draw {A} (f : G → A * G) : returns (draw f) (λ _, True).
Proof.
  intros g. exists (f g).1, (f g).2. split; [|done].
  unfold draw. by destruct (f g).
Qed.

Lemma returns_weaken {A} (m : M A) (P Q : A → Prop) :
  returns m P → (∀ a, P a → Q a) → returns m Q.
Proof. intros Hm HPQ g. destruct (Hm g) as (a & g' & ? & ?). eauto 6. Qed.

Lemma returns_replicateM {A} (m : M A) P n :
  returns m P → returns (replicateM n m) (λ l, length l = n ∧ Forall P l).
Proof.
  intros Hm. induction n as [|n IH]; simpl.
  - by apply returns_ret.
  - eapply returns_bind; [done|]. intros a Ha.
    eapply returns_bind; [done|]. intros l [Hl HP].
    apply returns_ret. split; [simpl; lia | by constructor].
Qed.

Lemma returns_foldM {A B} (f : B → A → M A) (l : list B)
    (I : A → Prop) (ok : B → Prop) a :
  (∀ b a, ok b → I a → returns (f b a) I) →
  Forall ok l → I a → returns (foldM f l a) I.
Proof.
  intros Hf Hl. revert a. induction Hl as [|b l Hb Hl IH]; intros a Ha; simpl.
  - by apply returns_ret.
  - eapply returns_bind; [by apply Hf|]. apply IH.
Qed.

Lemma returns_ensures {A} (m : M A) P : returns m P → ensures m P.
Proof.
  intros Hm g a g' E. destruct (Hm g) as (a' & g'' & E' & Ha).
  rewrite E in E'. by injection E' as -> ->.
Qed.

Lemma ensures_ret {A} (a : A) (P : A → Prop) : P a → ensures (mret a) P.
Proof. intros Ha g a' g' E. apply ret_Some in E as [-> _]. done. Qed.

Lemma ensures_bind {A B} (m : M A) (f : A → M B) P Q :
  ensures m P → (∀ a, P a → ensures (f a) Q) → ensures (m ≫= f) Q.
Proof.
  intros Hm Hf g b g' E. apply bind_Some in E as (a & g1 & Em & Ef).
  eapply Hf; [|done]. by eapply Hm.
Qed.

Lemma ensures_pure {A} (o : option A) (P : A → Prop) :
  (∀ a, o = Some a → P a) → ensures (pure_ o) P.
Proof. intros Ho g a g' E. apply pure_Some in E as [E _]. auto. Qed.

Lemma ensures_pure_eq {A} (o : option A) :
  ensures (pure_ o) (λ a, o = Some a).
Proof. by apply ensures_pure. Qed.

Lemma ensures_replicateM {A} (m : M A) P n :
  ensures m P → ensures (replicateM n m) (λ l, length l = n ∧ Forall P l).
Proof.
  intros Hm. induction n as [|n IH]; simpl.
  - by apply ensures_ret.
  - eapply ensures_bind; [done|]. intros a Ha.
    eapply ensures_bind; [done|]. intros l [Hl HP].
    apply ensures_ret. split; [simpl; lia | by constructor].
Qed.

(** Every element of a replicated construction was built by one run of
    the constructor. *)
Lemma replicateM_built {A} (m : M A) n g l g' :
  replicateM n m g = Some (l, g') →
  Forall (λ a, ∃ g1 g2, m g1 = Some (a, g2)) l.
Proof.
  revert g l. induction n as [|n IH]; simpl; intros g l E.
  - apply ret_Some in E as [-> _]. constructor.
  - apply bind_Some in E as (a & g1 & Em & E).
    apply bind_Some in E as (l' & g2 & El & E).
    apply ret_Some in E as [-> ->].
    constructor; [by exists g, g1 | by eapply IH].
Qed.

Lemma foldM_app {A B} (f : B → A → M A) (l1 l2 : list B) a g :
  foldM f (l1 ++ l2) a g = (foldM f l1 a ≫= foldM f l2) g.
Proof.
  revert a g. induction l1 as [|b l1 IH]; intros a g; simpl; [done|].
  rewrite bind_assoc. apply bind_ext. intros a' g1. apply IH.
Qed.

End MonadFacts.

(** One deterministic step of a computation, whose result is known. *)
Ltac step_pure E :=
  eapply returns_bind; [apply (returns_pure_eq _ _ E)|]; intros ? ->.

(* ================================================================== *)
(** * Facts: shapes of the tensor methods *)

Section TensorMethodFacts.
Context {SC : Scalar}.

Lemma tensor_add_total x y sh :
  has_shape x sh → has_shape y sh →
  ∃ z, tensor_add x y = Some z ∧ has_shape z sh.
Proof.
  intros [Sx Wx] [Sy Wy]. unfold tensor_add.
  rewrite decide_True by congruence. eexists. split; [done|].
  split; [done|]. unfold wf in *. simpl.
  rewrite length_zip_with. rewrite Wx, Wy, Sx, Sy. lia.
Qed.

Lemma zip_with_comm (f : R → R → R) (l k : list R) :
  (∀ a b, f a b = f b a) → zip_with f l k = zip_with f k l.
Proof.
  intros Hf. revert k. induction l as [|a l IH]; intros [|b k]; simpl; try done.
  by rewrite Hf, IH.
Qed.

Lemma tensor_add_comm x y :
  (∀ a b, radd a b = radd b a) → tensor_add x y = tensor_add y x.
Proof.
  intros Hc. unfold tensor_add.
  destruct (decide (shape x = shape y)) as [E|E].
  - rewrite decide_True by done. rewrite E. f_equal. f_equal.
    by apply zip_with_comm.
  - by rewrite decide_False by congruence.
Qed.

Lemma transpose_total x b s d :
  shape x = [b; s; d] →
  ∃ y, transpose_0_2_1 x = Some y ∧ has_shape y [b; d; s].
Proof.
  intros Sx. unfold transpose_0_2_1. rewrite Sx. eexists. split; [done|].
  split; [done|]. unfold wf. simpl. rewrite length_tab3. lia.
Qed.

Lemma transpose_inv x y :
  transpose_0_2_1 x = Some y →
  ∃ b s d, shape x = [b; s; d] ∧ has_shape y [b; d; s].
Proof.
  intros E. unfold transpose_0_2_1 in E.
  destruct (shape x) as [|b [|s [|d [|]]]] eqn:Sx; try done.
  destruct (transpose_total x b s d Sx) as (y' & E' & Hy).
  unfold transpose_0_2_1 in E'. rewrite Sx in E'.
  exists b, s, d. split; [done|]. congruence.
Qed.

(** The element at [(i, k, j)] of the transposed tensor is the element
    at [(i, j, k)] of the tensor. *)
Lemma transpose_get x y b s d i j k :
  shape x = [b; s; d] → transpose_0_2_1 x = Some y →
  i < b → j < s → k < d → get3 y i k j = get3 x i j k.
Proof.
  intros Sx E Hi Hj Hk. unfold transpose_0_2_1 in E. rewrite Sx in E.
  injection E as <-. unfold get3 at 1. simpl. unfold at_. simpl.
  by rewrite nth_tab3.
Qed.

Lemma flatten_2_total x a b c rest :
  has_shape x (a :: b :: c :: rest) →
  ∃ y, flatten_2 x = Some y ∧ has_shape y [a; b; numel (c :: rest)]
       ∧ data y = data x.
Proof.
  intros [Sx Wx]. unfold flatten_2. rewrite Sx. eexists. split; [done|].
  split; [|done]. split; [done|]. unfold wf in *. simpl in *.
  rewrite Wx, Sx. simpl. lia.
Qed.

Lemma mean_axis_1_total x a s rest :
  shape x = a :: s :: rest →
  ∃ y, mean_axis_1 x = Some y ∧ has_shape y (a :: rest).
Proof.
  intros Sx. unfold mean_axis_1. rewrite Sx. eexists. split; [done|].
  split; [done|]. unfold wf. simpl. by rewrite length_tab2.
Qed.

Lemma mean_axis_1_inv x y :
  mean_axis_1 x = Some y →
  ∃ a s rest, shape x = a :: s :: rest ∧ has_shape y (a :: rest).
Proof.
  intros E. unfold mean_axis_1 in E.
  destruct (shape x) as [|a [|s rest]] eqn:Sx; try done.
  destruct (mean_axis_1_total x a s rest Sx) as (y' & E' & Hy).
  unfold mean_axis_1 in E'. rewrite Sx in E'.
  exists a, s, rest. split; [done|]. congruence.
Qed.

Lemma has_shape_tensor_map f x sh :
  has_shape x sh → has_shape (tensor_map f x) sh.
Proof.
  intros [Sx Wx]. split; [done|]. unfold wf in *. simpl.
  by rewrite length_fmap.
Qed.

End TensorMethodFacts.

(* ================================================================== *)
(** * Facts: the library layers *)

Section LibraryFacts.
Context {SC : Scalar} {RS : RandomSource}.

Lemma create_parameter_ensures sh init :
  ensures (create_parameter sh init)
    (λ t, has_shape t (Z.to_nat <$> sh) ∧ Forall (λ z, 0 < z)%Z sh).
Proof.
  unfold create_parameter. destruct (forallb (Z.ltb 0) sh) eqn:E.
  - eapply ensures_bind; [apply (ensures_replicateM _ (λ _, True)); by intros ???|].
    intros vs [Hlen _]. apply ensures_ret. split; [by split|].
    apply Forall_forall. intros z Hz. apply list_elem_of_In in Hz.
    rewrite forallb_forall in E. apply E in Hz. lia.
  - by intros g t g' ?.
Qed.

Lemma create_parameter_returns sh init :
  Forall (λ z, 0 < z)%Z sh →
  returns (create_parameter sh init) (λ t, has_shape t (Z.to_nat <$> sh)).
Proof.
  intros Hsh. unfold create_parameter.
  assert (forallb (Z.ltb 0) sh = true) as ->.
  { apply forallb_forall. intros z Hz. apply list_elem_of_In in Hz.
    rewrite Forall_forall in Hsh. apply Hsh in Hz. lia. }
  eapply returns_bind; [apply returns_replicateM, returns_draw|].
  intros vs [Hlen _]. apply returns_ret. by split.
Qed.

Lemma Linear_init_ensures n_in n_out wa ba :
  ensures (Linear.init n_in n_out wa ba)
    (λ l, Linear_dims l (Z.to_nat n_in) (Z.to_nat n_out)
          ∧ Linear.weight_attr l = wa ∧ Linear.bias_attr l = ba
          ∧ (0 < n_in)%Z ∧ (0 < n_out)%Z).
Proof.
  unfold Linear.init.
  eapply ensures_bind; [apply create_parameter_ensures|]. intros w [Hw Pw].
  eapply ensures_bind; [apply create_parameter_ensures|]. intros b [Hb Pb].
  apply ensures_ret. unfold Linear_dims. simpl.
  inversion Pw as [|?? P1 P2]; subst. inversion P2; subst. done.
Qed.

Lemma Linear_init_returns n_in n_out wa ba :
  (0 < n_in)%Z → (0 < n_out)%Z →
  returns (Linear.init n_in n_out wa ba) (λ _, True).
Proof.
  intros Hi Ho. unfold Linear.init.
  eapply returns_bind; [apply create_parameter_returns; by repeat constructor|].
  intros w _.
  eapply returns_bind; [apply create_parameter_returns; by repeat constructor|].
  intros b _. by apply returns_ret.
Qed.

Lemma Linear_forward_total l x pre n_in n_out :
  shape (Linear.weight l) = [n_in; n_out] → shape (Linear.bias l) = [n_out] →
  shape x = pre ++ [n_in] →
  ∃ y, Linear.forward l x = Some y ∧ has_shape y (pre ++ [n_out]).
Proof.
  intros Sw Sb Sx. unfold Linear.forward.
  rewrite Sw, Sx, split_last_snoc, decide_True by done.
  eexists. split; [done|]. split; [done|]. unfold wf. simpl.
  by rewrite length_tab2, numel_snoc.
Qed.

Lemma Linear_forward_inv l x y :
  Linear.forward l x = Some y →
  ∃ pre n_in n_out,
    shape x = pre ++ [n_in] ∧ shape (Linear.weight l) = [n_in; n_out]
    ∧ shape (Linear.bias l) = [n_out] ∧ has_shape y (pre ++ [n_out]).
Proof.
  intros E. pose proof E as E0. unfold Linear.forward in E.
  destruct (shape (Linear.weight l)) as [|n_in [|n_out [|]]] eqn:Sw; try done.
  destruct (split_last (shape x)) as [[pre d]|] eqn:Sx; [|done].
  apply split_last_Some in Sx.
  destruct (decide _) as [[-> Sb]|]; [|done].
  destruct (Linear_forward_total l x pre n_in n_out Sw Sb Sx) as (y' & E' & Hy).
  rewrite E0 in E'. injection E' as <-. by exists pre, n_in, n_out.
Qed.

Lemma LayerNorm_init_ensures n eps :
  ensures (LayerNorm.init n eps)
    (λ l, LayerNorm_dims l (Z.to_nat n) ∧ LayerNorm.epsilon l = eps ∧ (0 < n)%Z).
Proof.
  unfold LayerNorm.init. destruct (0 <? n)%Z eqn:E.
  - apply ensures_ret. unfold LayerNorm_dims. simpl.
    repeat split; try done; try apply has_shape_full. lia.
  - by intros g t g' ?.
Qed.

Lemma LayerNorm_init_returns n eps :
  (0 < n)%Z → returns (LayerNorm.init n eps) (λ _, True).
Proof.
  intros Hn. unfold LayerNorm.init.
  assert ((0 <? n)%Z = true) as -> by lia. by apply returns_ret.
Qed.

Lemma LayerNorm_forward_total l x pre :
  shape x = pre ++ [LayerNorm.normalized_shape l] →
  ∃ y, LayerNorm.forward l x = Some y ∧ has_shape y (shape x).
Proof.
  intros Sx. unfold LayerNorm.forward.
  rewrite Sx, split_last_snoc, decide_True by done.
  eexists. split; [done|]. split; [done|]. unfold wf. simpl.
  by rewrite length_tab2, numel_snoc.
Qed.

Lemma LayerNorm_forward_inv l x y :
  LayerNorm.forward l x = Some y →
  ∃ pre, shape x = pre ++ [LayerNorm.normalized_shape l]
         ∧ has_shape y (shape x).
Proof.
  intros E. pose proof E as E0. unfold LayerNorm.forward in E.
  destruct (split_last (shape x)) as [[pre d]|] eqn:Sx; [|done].
  apply split_last_Some in Sx. destruct (decide _) as [->|]; [|done].
  destruct (LayerNorm_forward_total l x pre Sx) as (y' & E' & Hy).
  exists pre. split; [done|]. congruence.
Qed.

Lemma Dropout_forward_returns l training x sh :
  Py.bad_probability (Dropout.p l) = false → has_shape x sh →
  returns (Dropout.forward l training x) (λ y, has_shape y sh).
Proof.
  intros Hp [Sx Wx]. unfold Dropout.forward. rewrite Hp.
  destruct training; [|by apply returns_ret].
  eapply returns_bind; [apply returns_replicateM, returns_draw|].
  intros ms [Hlen _]. apply returns_ret. split; [done|].
  unfold wf in *. simpl. rewrite length_zip_with, Hlen. lia.
Qed.

Lemma GELU_forward_shape l x sh :
  has_shape x sh → has_shape (GELU.forward l x) sh.
Proof. apply has_shape_tensor_map. Qed.

End LibraryFacts.

(* ================================================================== *)
(** * Facts: [Mlp] and [MixerBlock] *)

Section MlpFacts.
Context {SC : Scalar} {RS : RandomSource}.

Lemma Mlp_init_ensures n_in n_hid p :
  ensures (Mlp.init n_in n_hid p)
    (λ l, Mlp_dims l (Z.to_nat n_in) (Z.to_nat n_hid)
          ∧ Mlp.dropout l = Dropout.mk p
          ∧ Forall (λ fc, initialized_with fc XavierUniform
                            (Normal_std Py.f1em6)) (mlp_linears l)
          ∧ (0 < n_in)%Z ∧ (0 < n_hid)%Z).
Proof.
  unfold Mlp.init, Mlp._init_weights. simpl.
  eapply ensures_bind; [apply Linear_init_ensures|].
  intros fc1 (D1 & W1 & B1 & Hin & Hhid).
  eapply ensures_bind; [apply Linear_init_ensures|].
  intros fc2 (D2 & W2 & B2 & _ & _).
  apply ensures_ret. unfold mlp_linears. simpl.
  split; [done|]. split; [done|]. split; [|done].
  apply Forall_cons; split; [unfold initialized_with; by rewrite W1, B1|].
  apply Forall_cons; split; [unfold initialized_with; by rewrite W2, B2|].
  constructor.
Qed.

Lemma Mlp_init_returns n_in n_hid p :
  (0 < n_in)%Z → (0 < n_hid)%Z → returns (Mlp.init n_in n_hid p) (λ _, True).
Proof.
  intros Hi Hh. unfold Mlp.init, Mlp._init_weights. simpl.
  eapply returns_bind; [by apply Linear_init_returns|]. intros fc1 _.
  eapply returns_bind; [by apply Linear_init_returns|]. intros fc2 _.
  by apply returns_ret.
Qed.

Lemma Mlp_forward_returns l training x pre n h :
  Mlp_dims l n h → Py.bad_probability (Dropout.p (Mlp.dropout l)) = false →
  has_shape x (pre ++ [n]) →
  returns (Mlp.forward l training x) (λ y, has_shape y (pre ++ [n])).
Proof.
  intros [[[W1 _] [B1 _]] [[W2 _] [B2 _]]] Hp [Sx Wx]. unfold Mlp.forward.
  destruct (Linear_forward_total _ x pre n h W1 B1 Sx) as (x1 & E1 & H1).
  step_pure E1.
  eapply returns_bind;
    [apply (returns_ret _ (λ y, has_shape y (pre ++ [h])));
     by apply GELU_forward_shape|].
  intros x2 H2. cbv beta in H2.
  eapply returns_bind; [by apply Dropout_forward_returns|]. intros x3 [S3 W3].
  destruct (Linear_forward_total _ x3 pre h n W2 B2 S3) as (x4 & E4 & H4).
  step_pure E4.
  eapply returns_bind; [by apply Dropout_forward_returns|]. intros x5 H5.
  by apply returns_ret.
Qed.

End MlpFacts.

Section MixerBlockFacts.
Context {SC : Scalar} {RS : RandomSource} {DP : DropPath.Impl}.

Lemma MixerBlock_init_ensures dim seq_len mlp_ratio dropout droppath :
  ensures (MixerBlock.init dim seq_len mlp_ratio dropout droppath)
    (λ l, ∃ td cd,
       scaled_dim mlp_ratio.1 dim = Some td
       ∧ scaled_dim mlp_ratio.2 dim = Some cd
       ∧ MixerBlock_dims l (Z.to_nat dim) (Z.to_nat seq_len)
           (Z.to_nat td) (Z.to_nat cd)
       ∧ MixerBlock_rates l dropout droppath
       ∧ Forall (λ n, LayerNorm.epsilon n = Py.f1em6) (block_norms l)
       ∧ Forall (λ fc, initialized_with fc XavierUniform
                         (Normal_std Py.f1em6)) (block_linears l)).
Proof.
  unfold MixerBlock.init.
  eapply ensures_bind; [apply ensures_pure_eq|]. intros td Htd.
  eapply ensures_bind; [apply ensures_pure_eq|]. intros cd Hcd.
  eapply ensures_bind; [apply LayerNorm_init_ensures|]. intros n1 (N1 & E1 & _).
  eapply ensures_bind; [apply Mlp_init_ensures|].
  intros mt (Dt & Pt & It & _ & _).
  eapply ensures_bind; [apply LayerNorm_init_ensures|]. intros n2 (N2 & E2 & _).
  eapply ensures_bind; [apply Mlp_init_ensures|].
  intros mc (Dc & Pc & Ic & _ & _).
  apply ensures_ret. exists td, cd.
  split; [done|]. split; [done|]. split; [done|].
  split; [unfold MixerBlock_rates; simpl; by rewrite Pt, Pc|].
  split; [by repeat constructor | by apply Forall_app].
Qed.

Lemma MixerBlock_init_returns dim seq_len mlp_ratio dropout droppath td cd :
  scaled_dim mlp_ratio.1 dim = Some td → scaled_dim mlp_ratio.2 dim = Some cd →
  (0 < dim)%Z → (0 < seq_len)%Z → (0 < td)%Z → (0 < cd)%Z →
  returns (MixerBlock.init dim seq_len mlp_ratio dropout droppath) (λ _, True).
Proof.
  intros Htd Hcd ????. unfold MixerBlock.init.
  step_pure Htd. step_pure Hcd.
  eapply returns_bind; [by apply LayerNorm_init_returns|]. intros n1 _.
  eapply returns_bind; [by apply Mlp_init_returns|]. intros mt _.
  eapply returns_bind; [by apply LayerNorm_init_returns|]. intros n2 _.
  eapply returns_bind; [by apply Mlp_init_returns|]. intros mc _.
  by apply returns_ret.
Qed.

Lemma MixerBlock_forward_returns l training x b dim seq_len :
  MixerBlock_runs l dim seq_len → has_shape x [b; seq_len; dim] →
  returns (MixerBlock.forward l training x)
    (λ y, has_shape y [b; seq_len; dim]).
Proof.
  intros ((td & cd & (N1 & _ & _) & (N2 & _ & _) & Dt & Dc) & Pt & Pc & HDP) Hx.
  pose proof Hx as [Sx Wx]. unfold MixerBlock.forward.
  destruct (LayerNorm_forward_total (MixerBlock.norm1 l) x [b; seq_len])
    as (x1 & E1 & [S1 W1]); [by rewrite N1|].
  step_pure E1. rewrite Sx in S1.
  destruct (transpose_total x1 b seq_len dim S1) as (x2 & E2 & H2).
  step_pure E2.
  eapply returns_bind;
    [by apply (Mlp_forward_returns _ training x2 [b; dim] seq_len td)|].
  intros x3 [S3 W3].
  destruct (transpose_total x3 b dim seq_len S3) as (x4 & E4 & H4).
  step_pure E4.
  eapply returns_bind; [by apply HDP|]. intros x5 H5. cbv beta in H5.
  destruct (tensor_add_total x5 x _ H5 Hx) as (x6 & E6 & H6).
  step_pure E6. pose proof H6 as [S6 W6].
  destruct (LayerNorm_forward_total (MixerBlock.norm2 l) x6 [b; seq_len])
    as (x7 & E7 & H7); [by rewrite N2|].
  step_pure E7. rewrite S6 in H7.
  eapply returns_bind;
    [by apply (Mlp_forward_returns _ training x7 [b; seq_len] dim cd)|].
  intros x8 H8. cbv beta in H8.
  eapply returns_bind; [by apply HDP|]. intros x9 H9. cbv beta in H9.
  destruct (tensor_add_total x9 x6 _ H9 H6) as (x10 & E10 & H10).
  step_pure E10. by apply returns_ret.
Qed.

End MixerBlockFacts.

(* ================================================================== *)
(** * Facts: [Conv2D] and [PatchEmbedding] *)

Section PatchEmbeddingFacts.
Context {SC : Scalar} {RS : RandomSource}.

Lemma Conv2D_init_ensures c e ks st :
  ensures (Conv2D.init c e ks st)
    (λ l, has_shape (Conv2D.weight l)
            [Z.to_nat e; Z.to_nat c; Z.to_nat ks.1; Z.to_nat ks.2]
          ∧ has_shape (Conv2D.bias l) [Z.to_nat e]
          ∧ Conv2D.kernel_size l = ks ∧ Conv2D.stride l = st
          ∧ (0 < e)%Z ∧ (0 < c)%Z ∧ (0 < ks.1)%Z ∧ (0 < ks.2)%Z).
Proof.
  unfold Conv2D.init.
  eapply ensures_bind; [apply create_parameter_ensures|]. intros w [Hw Pw].
  eapply ensures_bind; [apply create_parameter_ensures|]. intros b [Hb Pb].
  apply ensures_ret. simpl.
  inversion Pw as [|?? P1 P2]; subst. inversion P2 as [|?? P3 P4]; subst.
  inversion P4 as [|?? P5 P6]; subst. inversion P6; subst. done.
Qed.

Lemma Conv2D_init_returns c e ks st :
  (0 < c)%Z → (0 < e)%Z → (0 < ks.1)%Z → (0 < ks.2)%Z →
  returns (Conv2D.init c e ks st) (λ _, True).
Proof.
  intros. unfold Conv2D.init.
  eapply returns_bind; [apply create_parameter_returns; by repeat constructor|].
  intros w _.
  eapply returns_bind; [apply create_parameter_returns; by repeat constructor|].
  intros b _. by apply returns_ret.
Qed.

(** With the stride equal to the window, the window positions of an
    image that holds a window are the complete windows: [n // k] of
    them. *)
Lemma out_size_patch n k :
  0 < k → k ≤ n → Conv2D.out_size n k k = Z.of_nat (n / k).
Proof.
  intros Hk Hn. unfold Conv2D.out_size.
  rewrite Z.quot_div_nonneg by lia. rewrite Nat2Z.inj_div.
  replace (Z.of_nat n) with (Z.of_nat n - Z.of_nat k + 1 * Z.of_nat k)%Z
    at 2 by lia.
  rewrite Z.div_add by lia. done.
Qed.

(** An image smaller than the window has one window position: the
    quotient of [n - k], which is negative, truncates to zero. *)
Lemma out_size_clipped n k : 0 < n → n < k → Conv2D.out_size n k k = 1%Z.
Proof.
  intros Hn Hk. unfold Conv2D.out_size.
  replace (Z.of_nat n - Z.of_nat k)%Z with (- (Z.of_nat k - Z.of_nat n))%Z
    by lia.
  rewrite Z.quot_opp_l by lia. rewrite Z.quot_small by lia. done.
Qed.

(** An empty axis has no window position. *)
Lemma out_size_empty k : 0 < k → Conv2D.out_size 0 k k = 0%Z.
Proof.
  intros Hk. unfold Conv2D.out_size.
  replace (Z.of_nat 0 - Z.of_nat k)%Z with (- Z.of_nat k)%Z by lia.
  rewrite Z.quot_opp_l by lia. rewrite Z.quot_same by lia. done.
Qed.

Lemma out_size_windows n k :
  0 < k → 0 < n → Conv2D.out_size n k k = Z.of_nat (Nat.max 1 (n / k)).
Proof.
  intros Hk Hn. destruct (decide (k ≤ n)) as [Hle|Hlt].
  - rewrite out_size_patch by done.
    assert (1 ≤ n / k) by (apply Nat.div_le_lower_bound; lia). f_equal. lia.
  - rewrite out_size_clipped by lia. rewrite Nat.div_small by lia. done.
Qed.

Lemma out_size_pos n k : 0 < k → (0 < Conv2D.out_size n k k)%Z ↔ 0 < n.
Proof.
  intros Hk. split.
  - intros H. destruct n as [|n]; [|lia]. rewrite out_size_empty in H; lia.
  - intros Hn. rewrite out_size_windows by done. lia.
Qed.

Lemma Conv2D_forward_total l x b c h w e kh kw :
  shape x = [b; c; h; w] → shape (Conv2D.weight l) = [e; c; kh; kw] →
  shape (Conv2D.bias l) = [e] →
  0 < Z.to_nat (Conv2D.stride l).1 → 0 < Z.to_nat (Conv2D.stride l).2 →
  (0 < Conv2D.out_size h kh (Z.to_nat (Conv2D.stride l).1))%Z →
  (0 < Conv2D.out_size w kw (Z.to_nat (Conv2D.stride l).2))%Z →
  Conv2D.forward l x = Some (conv_output l x b c h w e kh kw).
Proof.
  intros Sx Sw Sb ????. unfold Conv2D.forward.
  by rewrite Sx, Sw, decide_True.
Qed.

Lemma Conv2D_forward_inv l x y :
  Conv2D.forward l x = Some y →
  ∃ b c h w e kh kw,
    shape x = [b; c; h; w] ∧ shape (Conv2D.weight l) = [e; c; kh; kw]
    ∧ shape (Conv2D.bias l) = [e]
    ∧ 0 < Z.to_nat (Conv2D.stride l).1 ∧ 0 < Z.to_nat (Conv2D.stride l).2
    ∧ (0 < Conv2D.out_size h kh (Z.to_nat (Conv2D.stride l).1))%Z
    ∧ (0 < Conv2D.out_size w kw (Z.to_nat (Conv2D.stride l).2))%Z
    ∧ y = conv_output l x b c h w e kh kw.
Proof.
  intros E. unfold Conv2D.forward in E.
  destruct (shape x) as [|b [|c [|h [|w [|]]]]] eqn:Sx; try done.
  destruct (shape (Conv2D.weight l)) as [|e [|c' [|kh [|kw [|]]]]] eqn:Sw;
    try done.
  destruct (decide _) as [(-> & Sb & ? & ? & ? & ?)|]; [|done].
  injection E as <-. by exists b, c', h, w, e, kh, kw.
Qed.

Lemma has_shape_conv_output l x b c h w e kh kw :
  has_shape (conv_output l x b c h w e kh kw)
    [b; e; Z.to_nat (Conv2D.out_size h kh (Z.to_nat (Conv2D.stride l).1));
     Z.to_nat (Conv2D.out_size w kw (Z.to_nat (Conv2D.stride l).2))].
Proof. split; [done|]. unfold wf. simpl. rewrite length_tab4. lia. Qed.

(** Inside the image a window reads the image. *)
Lemma input_at_inside x b c h w n ci i j :
  shape x = [b; c; h; w] → i < h → j < w →
  Conv2D.input_at x n ci i j = get4 x n ci i j.
Proof.
  intros Sx Hi Hj. unfold Conv2D.input_at. by rewrite Sx, decide_True.
Qed.

Lemma norm_forward_total n x pre e :
  norm_accepts n e → has_shape x (pre ++ [e]) →
  ∃ y, PatchEmbedding.norm_forward n x = Some y ∧ has_shape y (pre ++ [e]).
Proof.
  intros Hn [Sx Wx]. destruct n as [l|l]; simpl in *.
  - destruct (LayerNorm_forward_total l x pre) as (y & E & Hy);
      [by rewrite Hn|].
    exists y. split; [done|]. by rewrite <- Sx.
  - by exists x.
Qed.

Lemma PatchEmbedding_init_ensures image_size patch_size c e norm_layer :
  ensures (PatchEmbedding.init image_size patch_size c e norm_layer)
    (λ l, patch_size ≠ 0%Z
          ∧ PatchEmbedding.image_size l = (image_size, image_size)
          ∧ PatchEmbedding.patch_size l = (patch_size, patch_size)
          ∧ PatchEmbedding.patches_resolution l
            = ((image_size / patch_size)%Z, (image_size / patch_size)%Z)
          ∧ PatchEmbedding.num_patches l
            = ((image_size / patch_size) * (image_size / patch_size))%Z
          ∧ PatchEmbedding.in_channels l = c
          ∧ PatchEmbedding.embed_dim l = e
          ∧ Conv2D_patch (PatchEmbedding.patch_embed l)
              (Z.to_nat c) (Z.to_nat e) (Z.to_nat patch_size)
          ∧ (0 < patch_size)%Z
          ∧ PatchEmbedding.norm l
            = match norm_layer with
              | Some n => PatchEmbedding.Norm n
              | None => PatchEmbedding.NoNorm Identity.init
              end).
Proof.
  unfold PatchEmbedding.init, floordiv. simpl.
  destruct (decide (patch_size = 0%Z)) as [->|Hp]; [by intros g t g' ?|].
  simpl.
  eapply ensures_bind; [apply ensures_pure_eq|]. intros r0 [= <-].
  eapply ensures_bind; [apply ensures_pure_eq|]. intros r1 [= <-].
  eapply ensures_bind; [apply Conv2D_init_ensures|].
  intros conv (Hw & Hb & Hk & Hs & ? & ? & Hp0 & _). simpl in *.
  apply ensures_ret. simpl. unfold Conv2D_patch.
  rewrite Z2Nat.id by lia. destruct Hw, Hb. repeat split; try done.
Qed.

(** A constructed patch embedding has channels on both sides. *)
Lemma PatchEmbedding_init_positive image_size patch_size c e norm_layer :
  ensures (PatchEmbedding.init image_size patch_size c e norm_layer)
    (λ _, (0 < c)%Z ∧ (0 < e)%Z).
Proof.
  unfold PatchEmbedding.init, floordiv. simpl.
  destruct (decide (patch_size = 0%Z)) as [->|Hp]; [by intros g t g' ?|].
  simpl.
  eapply ensures_bind; [apply ensures_pure_eq|]. intros r0 _.
  eapply ensures_bind; [apply ensures_pure_eq|]. intros r1 _.
  eapply ensures_bind; [apply Conv2D_init_ensures|].
  intros conv (_ & _ & _ & _ & ? & ? & _). by apply ensures_ret.
Qed.

Lemma PatchEmbedding_init_returns image_size patch_size c e norm_layer :
  (0 < patch_size)%Z → (0 < c)%Z → (0 < e)%Z →
  returns (PatchEmbedding.init image_size patch_size c e norm_layer)
    (λ _, True).
Proof.
  intros Hp Hc He. unfold PatchEmbedding.init, floordiv. simpl.
  rewrite decide_False by lia.
  eapply returns_bind; [by eapply returns_pure_eq|]. intros ? ->.
  eapply returns_bind; [by eapply returns_pure_eq|]. intros ? ->.
  eapply returns_bind; [apply Conv2D_init_returns; simpl; lia|]. intros conv _.
  by apply returns_ret.
Qed.

Lemma option_bind_Some {A B} (f : A → option B) (a : A) : Some a ≫= f = f a.
Proof. reflexivity. Qed.

(** A patch embedding turns a batch of [h] by [w] images, none empty,
    into sequences of one embedding per window position. *)
Lemma PatchEmbedding_forward_windows l x b c h w e k :
  Conv2D_patch (PatchEmbedding.patch_embed l) c e k →
  norm_accepts (PatchEmbedding.norm l) e →
  0 < k → 0 < h → 0 < w → shape x = [b; c; h; w] →
  ∃ y, PatchEmbedding.forward l x = Some y
       ∧ has_shape y [b; Nat.max 1 (h / k) * Nat.max 1 (w / k); e].
Proof.
  intros ([Sw _] & [Sb _] & Hs & _) Hn Hk Hh Hw Sx. unfold PatchEmbedding.forward.
  rewrite (Conv2D_forward_total _ x b c h w e k k)
    by (rewrite ?Hs; simpl; rewrite ?Nat2Z.id; (by apply out_size_pos) || lia
        || done).
  rewrite option_bind_Some.
  pose proof (has_shape_conv_output (PatchEmbedding.patch_embed l) x b c h w e k k)
    as Hc.
  rewrite Hs in Hc. cbn [fst snd] in Hc.
  rewrite !Nat2Z.id, !out_size_windows, !Nat2Z.id in Hc by done.
  destruct (flatten_2_total _ _ _ _ _ Hc) as (x2 & -> & [S2 W2] & _).
  rewrite option_bind_Some.
  cbn [numel foldr] in S2. rewrite Nat.mul_1_r in S2.
  destruct (transpose_total x2 _ _ _ S2) as (x3 & -> & H3).
  rewrite option_bind_Some.
  destruct (norm_forward_total (PatchEmbedding.norm l) x3
              [b; Nat.max 1 (h / k) * Nat.max 1 (w / k)] e)
    as (y & -> & Hy); [done..|].
  rewrite option_bind_Some. by exists y.
Qed.

(** When the images hold a patch, the window positions are the complete
    patches: [(h // k) * (w // k)] embeddings. *)
Lemma PatchEmbedding_forward_total l x b c h w e k :
  Conv2D_patch (PatchEmbedding.patch_embed l) c e k →
  norm_accepts (PatchEmbedding.norm l) e →
  0 < k → k ≤ h → k ≤ w → shape x = [b; c; h; w] →
  ∃ y, PatchEmbedding.forward l x = Some y
       ∧ has_shape y [b; (h / k) * (w / k); e].
Proof.
  intros Hc Hn Hk Hh Hw Sx.
  destruct (PatchEmbedding_forward_windows l x b c h w e k) as (y & E & Hy);
    try done; try lia.
  exists y. split; [done|].
  assert (1 ≤ h / k) by (apply Nat.div_le_lower_bound; lia).
  assert (1 ≤ w / k) by (apply Nat.div_le_lower_bound; lia).
  by rewrite !Nat.max_r in Hy by done.
Qed.

End PatchEmbeddingFacts.

Section PatchEmbeddingInversion.
Context {SC : Scalar} {RS : RandomSource}.

(** Whatever a patch embedding accepts is a batch of images with its
    number of channels, none empty. *)
Lemma PatchEmbedding_forward_inv l x y c e k :
  PatchEmbedding.forward l x = Some y →
  Conv2D_patch (PatchEmbedding.patch_embed l) c e k →
  norm_accepts (PatchEmbedding.norm l) e → 0 < k →
  ∃ b h w, shape x = [b; c; h; w] ∧ 0 < h ∧ 0 < w
           ∧ has_shape y [b; Nat.max 1 (h / k) * Nat.max 1 (w / k); e].
Proof.
  intros E Hc Hn Hk. pose proof E as E0. unfold PatchEmbedding.forward in E.
  destruct (Conv2D.forward (PatchEmbedding.patch_embed l) x) as [x1|] eqn:E1;
    [|done].
  apply Conv2D_forward_inv in E1
    as (b & c' & h & w & e' & kh & kw & Sx & Sw & _ & _ & _ & Hh & Hw & _).
  pose proof Hc as ([Sw' _] & _ & Hs & _). rewrite Sw in Sw'.
  injection Sw' as -> -> -> ->.
  rewrite Hs in Hh, Hw. cbn [fst snd] in Hh, Hw. rewrite Nat2Z.id in Hh, Hw.
  apply out_size_pos in Hh, Hw; try done.
  destruct (PatchEmbedding_forward_windows l x b c h w e k) as (y' & E' & Hy);
    try done.
  rewrite E0 in E'. injection E' as <-. by exists b, h, w.
Qed.

End PatchEmbeddingInversion.

(* ================================================================== *)
(** * Facts: [MlpMixer] *)

Section MlpMixerFacts.
Context {SC : Scalar} {RS : RandomSource} {DP : DropPath.Impl}.

(** The steps of the constructor, one by one. *)
Lemma MlpMixer_init_inv num_classes image_size in_channels patch_size
    num_mixer_layers embed_dim mlp_ratio dropout droppath patch_embed_norm
    g m g' :
  MlpMixer.init num_classes image_size in_channels patch_size num_mixer_layers
    embed_dim mlp_ratio dropout droppath patch_embed_norm g = Some (m, g') →
  ∃ norm_layer g1 g2 g3 g4,
    LayerNorm.init embed_dim Py.f1em6 g = Some (norm_layer, g1)
    ∧ PatchEmbedding.init image_size patch_size in_channels embed_dim
        (if patch_embed_norm then Some norm_layer else None) g1
      = Some (MlpMixer.patch_embed m, g2)
    ∧ replicateM (Z.to_nat num_mixer_layers)
        (MixerBlock.init embed_dim
           (PatchEmbedding.num_patches (MlpMixer.patch_embed m))
           mlp_ratio dropout droppath) g2
      = Some (MlpMixer.mixer_layers m, g3)
    ∧ LayerNorm.init embed_dim Py.f1em6 g3 = Some (MlpMixer.norm m, g4)
    ∧ Linear.init embed_dim num_classes None None g4
      = Some (MlpMixer.head m, g')
    ∧ MlpMixer.num_classes m = num_classes
    ∧ MlpMixer.num_features m = embed_dim
    ∧ MlpMixer.embed_dim m = embed_dim.
Proof.
  intros E. unfold MlpMixer.init in E.
  apply bind_Some in E as (norm_layer & g1 & E1 & E).
  apply bind_Some in E as (pe & g2 & E2 & E).
  apply bind_Some in E as (blocks & g3 & E3 & E).
  apply bind_Some in E as (norm & g4 & E4 & E).
  apply bind_Some in E as (head & g5 & E5 & E).
  apply ret_Some in E as [-> ->]. simpl.
  by exists norm_layer, g1, g2, g3, g4.
Qed.

(** The shapes and rates of a constructed model. *)
Lemma MlpMixer_init_dims num_classes image_size in_channels patch_size
    num_mixer_layers embed_dim mlp_ratio dropout droppath patch_embed_norm
    g m g' :
  MlpMixer.init num_classes image_size in_channels patch_size num_mixer_layers
    embed_dim mlp_ratio dropout droppath patch_embed_norm g = Some (m, g') →
  Conv2D_patch (PatchEmbedding.patch_embed (MlpMixer.patch_embed m))
    (Z.to_nat in_channels) (Z.to_nat embed_dim) (Z.to_nat patch_size)
  ∧ (0 < patch_size)%Z
  ∧ norm_accepts (PatchEmbedding.norm (MlpMixer.patch_embed m))
      (Z.to_nat embed_dim)
  ∧ PatchEmbedding.num_patches (MlpMixer.patch_embed m)
    = ((image_size / patch_size) * (image_size / patch_size))%Z
  ∧ Forall (λ b, (∃ td cd, MixerBlock_dims b (Z.to_nat embed_dim)
                             (seq_len_of m) td cd)
                 ∧ MixerBlock_rates b dropout droppath)
      (MlpMixer.mixer_layers m)
  ∧ LayerNorm_dims (MlpMixer.norm m) (Z.to_nat embed_dim)
  ∧ Linear_dims (MlpMixer.head m) (Z.to_nat embed_dim) (Z.to_nat num_classes).
Proof.
  intros E. apply MlpMixer_init_inv in E
    as (nl & g1 & g2 & g3 & g4 & E1 & E2 & E3 & E4 & E5 & _).
  apply LayerNorm_init_ensures in E1 as ((N0 & _) & _ & _).
  apply PatchEmbedding_init_ensures in E2
    as (_ & _ & _ & _ & Hnp & _ & _ & Hconv & Hp & Hnorm).
  apply (ensures_replicateM _ _ _ (MixerBlock_init_ensures _ _ _ _ _)) in E3
    as [_ HB].
  apply LayerNorm_init_ensures in E4 as (N4 & _ & _).
  apply Linear_init_ensures in E5 as (D5 & _).
  split; [done|]. split; [done|]. split.
  { rewrite Hnorm. by destruct patch_embed_norm. }
  split; [done|]. split; [|done].
  eapply Forall_impl; [exact HB|]. intros b (td & cd & _ & _ & Hd & Hr & _).
  split; [|done]. by exists (Z.to_nat td), (Z.to_nat cd).
Qed.

(** A stack of blocks that all run on sequences of one shape maps
    sequences of that shape to sequences of that shape. *)
Lemma mixer_layers_returns (blocks : list MixerBlock.t) training x b dim seq_len :
  Forall (λ l, MixerBlock_runs l dim seq_len) blocks →
  has_shape x [b; seq_len; dim] →
  returns (Sequential.forward (λ l, MixerBlock.forward l training) blocks x)
    (λ y, has_shape y [b; seq_len; dim]).
Proof.
  intros Hb Hx. unfold Sequential.forward.
  eapply (returns_foldM _ _ (λ y, has_shape y [b; seq_len; dim])); [|done..].
  intros l a Hl Ha. by apply MixerBlock_forward_returns.
Qed.

End MlpMixerFacts.

(* ================================================================== *)
(** * The mixer block as two residual stages *)

Section TwoStages.
Context {SC : Scalar} {RS : RandomSource} {DP : DropPath.Impl}.

Lemma forward_two_stage_eq l training x g :
  (∀ a b, radd a b = radd b a) →
  MixerBlock.forward l training x g = two_stage l training x g.
Proof.
  intros Hc.
  unfold MixerBlock.forward, two_stage, residual, token_mixing, channel_mixing.
  rewrite ?bind_assoc.
  apply bind_ext. intros x1 g1. cbv beta. rewrite ?bind_assoc.
  apply bind_ext. intros x2 g2. cbv beta. rewrite ?bind_assoc.
  apply bind_ext. intros x3 g3. cbv beta. rewrite ?bind_assoc.
  apply bind_ext. intros x4 g4. cbv beta. rewrite ?bind_assoc.
  apply bind_ext. intros x5 g5. cbv beta.
  rewrite (tensor_add_comm x5 x Hc).
  apply bind_ext. intros x6 g6. cbv beta. rewrite ?bind_assoc.
  apply bind_ext. intros x7 g7. cbv beta. rewrite ?bind_assoc.
  apply bind_ext. intros x8 g8. cbv beta.
  apply bind_ext. intros x9 g9. cbv beta.
  rewrite (tensor_add_comm x9 x6 Hc). apply bind_ret_r.
Qed.

End TwoStages.

(* ================================================================== *)
(** * Facts: whatever a block accepts keeps its shape *)

Section Acceptance.
Context {SC : Scalar} {RS : RandomSource} {DP : DropPath.Impl}.

Lemma DropPath_preserves_keeps l :
  DropPath_preserves_shape l → DropPath_keeps_shape l.
Proof. intros Hl training x sh Hx. by apply returns_ensures, Hl. Qed.

Lemma Dropout_forward_ensures l training x sh :
  has_shape x sh →
  ensures (Dropout.forward l training x)
    (λ y, has_shape y sh ∧ Py.bad_probability (Dropout.p l) = false).
Proof.
  intros [Sx Wx]. unfold Dropout.forward.
  destruct (Py.bad_probability (Dropout.p l)); [by intros g y g' ?|].
  destruct training; [|by apply ensures_ret].
  eapply ensures_bind;
    [apply (ensures_replicateM _ (λ _, True)); by intros ???|].
  intros ms [Hlen _]. apply ensures_ret. split; [|done]. split; [done|].
  unfold wf in *. simpl. rewrite length_zip_with, Hlen. lia.
Qed.

Lemma Mlp_forward_ensures l training x n h :
  Mlp_dims l n h →
  ensures (Mlp.forward l training x)
    (λ y, (∃ pre, shape x = pre ++ [n]) ∧ has_shape y (shape x)
          ∧ Py.bad_probability (Dropout.p (Mlp.dropout l)) = false).
Proof.
  intros [[[W1 _] _] [[W2 _] _]] g y g' E. unfold Mlp.forward in E.
  apply bind_Some in E as (x1 & g1 & E1 & E). apply pure_Some in E1 as [E1 ->].
  apply bind_Some in E as (x2 & g2 & E2 & E). apply ret_Some in E2 as [-> ->].
  apply bind_Some in E as (x3 & g3 & E3 & E).
  apply bind_Some in E as (x4 & g4 & E4 & E). apply pure_Some in E4 as [E4 ->].
  apply bind_Some in E as (x5 & g5 & E5 & E). apply ret_Some in E as [-> ->].
  apply Linear_forward_inv in E1 as (pre & n_in & n_out & Sx & W1' & _ & H1).
  rewrite W1 in W1'. injection W1' as <- <-.
  apply (Dropout_forward_ensures _ _ _ (pre ++ [h])) in E3 as [[S3 _] Hp];
    [|by apply GELU_forward_shape].
  apply Linear_forward_inv in E4 as (pre' & n_in & n_out & S3' & W2' & _ & H4).
  rewrite W2 in W2'. injection W2' as <- <-.
  rewrite S3 in S3'. apply app_inj_tail in S3' as [<- _].
  apply (Dropout_forward_ensures _ _ _ (pre ++ [n])) in E5 as [H5 _]; [|done].
  split; [by exists pre|]. by rewrite Sx.
Qed.

Lemma MixerBlock_forward_ensures l training x dim seq_len td cd :
  MixerBlock_dims l dim seq_len td cd →
  DropPath_keeps_shape (MixerBlock.drop_path l) → wf x →
  ensures (MixerBlock.forward l training x)
    (λ y, (∃ b, shape x = [b; seq_len; dim]) ∧ has_shape y (shape x)
          ∧ Py.bad_probability
              (Dropout.p (Mlp.dropout (MixerBlock.mlp_tokens l))) = false).
Proof.
  intros ((N1 & _ & _) & (N2 & _ & _) & Dt & Dc) HDP Wx g y g' E.
  unfold MixerBlock.forward in E.
  apply bind_Some in E as (x1 & g1 & E1 & E). apply pure_Some in E1 as [E1 ->].
  apply bind_Some in E as (x2 & g2 & E2 & E). apply pure_Some in E2 as [E2 ->].
  apply bind_Some in E as (x3 & g3 & E3 & E).
  apply bind_Some in E as (x4 & g4 & E4 & E). apply pure_Some in E4 as [E4 ->].
  apply bind_Some in E as (x5 & g5 & E5 & E).
  apply bind_Some in E as (x6 & g6 & E6 & E). apply pure_Some in E6 as [E6 ->].
  apply bind_Some in E as (x7 & g7 & E7 & E). apply pure_Some in E7 as [E7 ->].
  apply bind_Some in E as (x8 & g8 & E8 & E).
  apply bind_Some in E as (x9 & g9 & E9 & E).
  apply bind_Some in E as (x10 & g10 & E10 & E).
  apply pure_Some in E10 as [E10 ->]. apply ret_Some in E as [-> ->].
  apply LayerNorm_forward_inv in E1 as (pre & Sx & [S1 _]).
  apply transpose_inv in E2 as (b & s & d & S1' & [S2 _]).
  apply (Mlp_forward_ensures _ _ _ _ _ Dt) in E3 as ([pre' S2'] & [S3 W3] & Hp).
  rewrite S2 in S2', S3. change [b; d; s] with ([b; d] ++ [s]) in S2'.
  apply app_inj_tail in S2' as [_ ->].
  rewrite S1, Sx, N1 in S1'. change [b; seq_len; d] with ([b; seq_len] ++ [d]) in S1'.
  apply app_inj_tail in S1' as [-> ->].
  assert (shape x = [b; seq_len; d]) as Sx' by (by rewrite Sx, N1).
  destruct (transpose_total x3 _ _ _ S3) as (x4' & E4' & H4).
  rewrite E4 in E4'. injection E4' as <-.
  apply (HDP _ _ _ H4) in E5 as H5.
  destruct (tensor_add_total x5 x [b; seq_len; d]) as (x6' & E6' & H6); [done..|].
  rewrite E6 in E6'. injection E6' as <-.
  apply LayerNorm_forward_inv in E7 as (_ & _ & H7).
  destruct H6 as [S6 W6]. rewrite S6 in H7.
  apply (Mlp_forward_ensures _ _ _ _ _ Dc) in E8 as (_ & H8 & _).
  destruct H7 as [S7 W7]. rewrite S7 in H8.
  apply (HDP _ _ _ H8) in E9 as H9.
  destruct (tensor_add_total x9 x6 [b; seq_len; d]) as (x10' & E10' & H10);
    [done..|].
  rewrite E10 in E10'. injection E10' as <-.
  split; [by exists b|]. split; [|done]. by rewrite Sx'.
Qed.

(** Whatever a stack of equally sized blocks accepts, it returns in the
    same shape. *)
Lemma Sequential_forward_ensures (blocks : list MixerBlock.t) training x
    dim seq_len :
  Forall (λ l, (∃ td cd, MixerBlock_dims l dim seq_len td cd)
               ∧ DropPath_keeps_shape (MixerBlock.drop_path l)) blocks →
  wf x →
  ensures (Sequential.forward (λ l, MixerBlock.forward l training) blocks x)
    (λ y, has_shape y (shape x)).
Proof.
  intros Hb. revert x. unfold Sequential.forward.
  induction Hb as [|l blocks [(td & cd & Hd) Hk] Hb IH]; intros x Wx g y g' E;
    simpl in E.
  - apply ret_Some in E as [-> _]. by split.
  - apply bind_Some in E as (x1 & g1 & E1 & E).
    apply (MixerBlock_forward_ensures _ _ _ _ _ _ _ Hd Hk Wx) in E1
      as (_ & [S1 W1] & _).
    apply IH in E; [|done]. by rewrite S1 in E.
Qed.

End Acceptance.

(* ================================================================== *)
(** * Patch embedding as a linear projection of patches *)

Section PatchProjection.
Context {SC : Scalar} {RS : RandomSource}.

Lemma decode3 (a k m : nat) :
  m < a * k * k → m = (m / (k * k) * k + m / k mod k) * k + m mod k.
Proof.
  intros Hm. assert (0 < k) as Hk by (destruct k; lia).
  rewrite <- Nat.Div0.div_div.
  rewrite <- (divmod_decode k (m / k)) by done.
  by apply divmod_decode.
Qed.

Lemma nth_patch x c p n i j m :
  m < c * p * p →
  nth m (patch x c p n i j) rzero
  = get4 x n (m / (p * p)) (i * p + m / p mod p) (j * p + m mod p).
Proof. intros Hm. unfold patch, tab3. by rewrite nth_tab. Qed.

(** The convolution, flattened and transposed, at sequence position [q]
    and output channel [o]. *)
Lemma embed_element l x b c h w e k n q o :
  shape x = [b; c; h; w] → shape (Conv2D.weight l) = [e; c; k; k] →
  Conv2D.stride l = (Z.of_nat k, Z.of_nat k) → 0 < k → k ≤ h → k ≤ w →
  n < b → q < h / k * (w / k) → o < e →
  at_ (conv_output l x b c h w e k k) ((n * e + o) * (h / k * (w / k)) + q)
  = radd (rsum (tab (c * k * k) (λ m,
            rmul (nth m (patch x c k n (q / (w / k)) (q mod (w / k))) rzero)
                 (at_ (Conv2D.weight l) (o * (c * k * k) + m)))))
         (at_ (Conv2D.bias l) o).
Proof.
  intros Sx Sw Hs Hk Hh Hw Hn Hq Ho. unfold at_ at 1, conv_output.
  cbn [data]. rewrite Hs. cbn [fst snd].
  rewrite !Nat2Z.id, !out_size_patch, !Nat2Z.id by done.
  assert (0 < w / k) as Hwo by (apply Nat.div_str_pos; lia).
  replace ((n * e + o) * (h / k * (w / k)) + q)
    with (((n * e + o) * (h / k) + q / (w / k)) * (w / k) + q mod (w / k))
    by (pose proof (divmod_decode (w / k) q Hwo); lia).
  rewrite nth_tab4; try done.
  - f_equal. f_equal. unfold tab3. apply tab_ext. intros m Hm.
    rewrite nth_patch by done.
    assert (m / (k * k) * k * k ≤ m).
    { rewrite <- Nat.mul_assoc, Nat.mul_comm. apply Nat.Div0.mul_div_le. }
    assert (m / k mod k < k) by (apply Nat.mod_upper_bound; lia).
    assert (m mod k < k) by (apply Nat.mod_upper_bound; lia).
    assert (q / (w / k) < h / k) by (apply Nat.Div0.div_lt_upper_bound; lia).
    assert (q mod (w / k) < w / k) by (apply Nat.mod_upper_bound; lia).
    pose proof (Nat.Div0.mul_div_le h k). pose proof (Nat.Div0.mul_div_le w k).
    rewrite (input_at_inside x b c h w) by (done || nia). f_equal.
    unfold get4. rewrite Sw. f_equal.
    pose proof (decode3 c k m Hm). lia.
  - apply Nat.Div0.div_lt_upper_bound. lia.
  - by apply Nat.mod_upper_bound, Nat.neq_0_lt_0.
Qed.

End PatchProjection.

Section PatchProjectionFacts.
Context {SC : Scalar} {RS : RandomSource}.

Lemma tab2_tab3 a b c (f : nat → nat → nat → R) :
  tab2 (a * b) c (λ r o, f (r / b) (r mod b) o) = tab3 a b c f.
Proof.
  unfold tab2, tab3. apply tab_ext. intros i Hi.
  by rewrite Nat.Div0.div_div, (Nat.mul_comm c b).
Qed.

Lemma conv_side l x b c h w e k :
  Conv2D_patch l c e k → 0 < k → k ≤ h → k ≤ w → shape x = [b; c; h; w] →
  (x1 ← Conv2D.forward l x; x2 ← flatten_2 x1; transpose_0_2_1 x2)
  = Some (embedded l x b c h w e k).
Proof.
  intros ([Sw _] & [Sb _] & Hs & _) Hk Hh Hw Sx.
  rewrite (Conv2D_forward_total _ x b c h w e k k)
    by (rewrite ?Hs; simpl; rewrite ?Nat2Z.id; (apply out_size_pos; lia) || lia
        || done).
  rewrite option_bind_Some.
  pose proof (has_shape_conv_output l x b c h w e k k) as Hc.
  rewrite Hs in Hc. cbn [fst snd] in Hc.
  rewrite !Nat2Z.id, !out_size_patch, !Nat2Z.id in Hc by done.
  destruct (flatten_2_total _ _ _ _ _ Hc) as (x2 & -> & [S2 W2] & D2).
  rewrite option_bind_Some.
  cbn [numel foldr] in S2. rewrite Nat.mul_1_r in S2.
  unfold transpose_0_2_1. rewrite S2. f_equal. unfold embedded. f_equal.
  apply tab3_ext. intros n q o Hn Hq Ho.
  unfold get3. rewrite S2. unfold at_ at 1. rewrite D2.
  by apply (embed_element l x b c h w e k n q o).
Qed.

Lemma linear_side l x b c h w e k fc :
  Conv2D_patch l c e k → 0 < k → (k | h) → (k | w) → shape x = [b; c; h; w] →
  projection l = Some fc →
  (patches ← split_patches k x; Linear.forward fc patches)
  = Some (embedded l x b c h w e k).
Proof.
  intros ([Sw _] & [Sb _] & _) Hk Hh Hw Sx Hfc.
  unfold projection in Hfc. rewrite Sw in Hfc. injection Hfc as <-.
  unfold split_patches. rewrite Sx, decide_True by done.
  rewrite option_bind_Some. unfold Linear.forward. cbn [Linear.weight shape].
  change [b; h / k * (w / k); c * k * k]
    with ([b; h / k * (w / k)] ++ [c * k * k]).
  rewrite split_last_snoc. cbn [Linear.bias].
  rewrite decide_True by done. f_equal. unfold embedded. f_equal.
  cbn [numel foldr]. rewrite Nat.mul_1_r.
  etrans; [|apply tab2_tab3]. apply tab2_ext. intros r o Hr Ho.
  assert (0 < h / k * (w / k)) as HN by (destruct (h / k * (w / k)); lia).
  f_equal. f_equal. apply tab_ext. intros m Hm. f_equal.
  - unfold at_. cbn [data].
    rewrite (divmod_decode (h / k * (w / k)) r HN) at 1.
    rewrite nth_tab3; try done.
    + by apply div_lt_mul.
    + by apply Nat.mod_upper_bound, Nat.neq_0_lt_0.
  - unfold at_ at 1. cbn [data]. by rewrite nth_tab2.
Qed.

(** The patch embedding is the per-patch projection. *)
Lemma PatchEmbedding_forward_projection l x b c h w e k :
  Conv2D_patch (PatchEmbedding.patch_embed l) c e k →
  Z.to_nat (PatchEmbedding.patch_size l).1 = k → 0 < k →
  shape x = [b; c; h; w] → 0 < h → 0 < w → (k | h) → (k | w) →
  PatchEmbedding.forward l x = per_patch_projection l x
  ∧ PatchEmbedding.forward l x
    = PatchEmbedding.norm_forward (PatchEmbedding.norm l)
        (embedded (PatchEmbedding.patch_embed l) x b c h w e k).
Proof.
  intros Hc Hp Hk Sx Hh Hw Dh Dw.
  assert (k ≤ h) by (apply Nat.divide_pos_le; [lia | done]).
  assert (k ≤ w) by (apply Nat.divide_pos_le; [lia | done]).
  assert (∃ fc, projection (PatchEmbedding.patch_embed l) = Some fc) as [fc Hfc].
  { unfold projection. destruct Hc as ([-> _] & _). eauto. }
  pose proof (conv_side _ x b c h w e k Hc Hk H H0 Sx) as EA.
  pose proof (linear_side _ x b c h w e k fc Hc Hk Dh Dw Sx Hfc) as EB.
  assert (PatchEmbedding.forward l x
          = PatchEmbedding.norm_forward (PatchEmbedding.norm l)
              (embedded (PatchEmbedding.patch_embed l) x b c h w e k)) as EF.
  { unfold PatchEmbedding.forward.
    destruct (Conv2D.forward (PatchEmbedding.patch_embed l) x) as [x1|]; [|done].
    rewrite option_bind_Some in EA |- *.
    destruct (flatten_2 x1) as [x2|]; [|done].
    rewrite option_bind_Some in EA |- *. rewrite EA, option_bind_Some.
    by destruct (PatchEmbedding.norm_forward _ _). }
  split; [|done]. rewrite EF. unfold per_patch_projection. rewrite Hp.
  destruct (split_patches k x) as [ps|]; [|done].
  rewrite option_bind_Some in EB |- *. rewrite Hfc, option_bind_Some.
  by rewrite EB, option_bind_Some.
Qed.

End PatchProjectionFacts.

Section TrailingPixels.
Context {SC : Scalar} {RS : RandomSource}.

Lemma PatchEmbedding_forward_embedded l x b c h w e k :
  Conv2D_patch (PatchEmbedding.patch_embed l) c e k → 0 < k →
  k ≤ h → k ≤ w → shape x = [b; c; h; w] →
  PatchEmbedding.forward l x
  = PatchEmbedding.norm_forward (PatchEmbedding.norm l)
      (embedded (PatchEmbedding.patch_embed l) x b c h w e k).
Proof.
  intros Hc Hk Hh Hw Sx.
  pose proof (conv_side _ x b c h w e k Hc Hk Hh Hw Sx) as EA.
  unfold PatchEmbedding.forward.
  destruct (Conv2D.forward (PatchEmbedding.patch_embed l) x) as [x1|]; [|done].
  rewrite option_bind_Some in EA |- *.
  destruct (flatten_2 x1) as [x2|]; [|done].
  rewrite option_bind_Some in EA |- *. rewrite EA, option_bind_Some.
  by destruct (PatchEmbedding.norm_forward _ _).
Qed.

Lemma embedded_agree l x x' b c h w e k :
  shape x = [b; c; h; w] → shape x' = [b; c; h; w] →
  (∀ n ci i j, n < b → ci < c → i < h / k * k → j < w / k * k →
     get4 x n ci i j = get4 x' n ci i j) →
  embedded l x b c h w e k = embedded l x' b c h w e k.
Proof.
  intros Sx Sx' Hag. unfold embedded. f_equal.
  apply tab3_ext. intros n q o Hn Hq Ho. f_equal. f_equal.
  apply tab_ext. intros m Hm. f_equal. f_equal. unfold patch.
  apply tab3_ext. intros ci ki kj Hci Hki Hkj. apply Hag; try done.
  - apply offset_lt; [|done]. by apply div_lt_mul.
  - apply offset_lt; [|done]. eapply mod_lt_mul, Hq.
Qed.

End TrailingPixels.

(* ================================================================== *)
(** * Facts: the concrete instance *)

Section ExampleFacts.
Import Example.
#[local] Existing Instance ZScalar.
#[local] Existing Instance ZRandom.
#[local] Existing Instance ZDropPath.

Lemma holds_Some {A} (o : option A) (p : A → bool) :
  holds o p = true → ∃ a, o = Some a ∧ p a = true.
Proof. destruct o as [a|]; [by exists a | done]. Qed.

Lemma ZDropPath_preserves_shape (l : DropPath.t) : DropPath_preserves_shape l.
Proof.
  intros training x sh [Sx Wx]. simpl. unfold drop_path_per_sample.
  destruct training; [|by apply returns_ret].
  eapply returns_bind; [apply returns_replicateM, returns_draw|].
  intros ms _. apply returns_ret. split; [done|].
  unfold wf in *. cbn [data shape]. by rewrite length_tab.
Qed.

End ExampleFacts.

(* ================================================================== *)
(** * Facts: the float literals *)

(** [0.5], [4.0] and [1.0] are exact; [1e-6] is the double nearest to
    one millionth (within half a unit in the last place, [2 ^ -73]). *)
Lemma literal_values :
  (Py.to_Q Py.f0_5 == 1 # 2)%Q ∧ (Py.to_Q Py.f4_0 == 4)%Q
  ∧ (Py.to_Q Py.f1_0 == 1)%Q
  ∧ (Qabs (Py.to_Q Py.f1em6 - (1 # 1000000)) <= Qpower 2 (-73))%Q.
Proof. repeat split; vm_compute; congruence. Qed.

(** The hidden sizes of the default configuration. *)
Lemma scaled_dim_defaults :
  scaled_dim Py.f0_5 512 = Some 256%Z ∧ scaled_dim Py.f4_0 512 = Some 2048%Z.
Proof. split; reflexivity. Qed.

(* ================================================================== *)
(** * Facts: the hidden sizes of the default ratios

    [int(0.5 * dim)] and [int(4.0 * dim)] in binary64: an int below
    [2 ^ 53] converts exactly, a product with a power of two is exact, and
    [int] truncates. *)

Section FloatFacts.

Lemma digits2_pos_size m : digits2_pos m = Pos.size m.
Proof. induction m; simpl; congruence. Qed.

Lemma digits2_pos_iter m k :
  digits2_pos (Pos.iter xO m k) = (digits2_pos m + k)%positive.
Proof.
  induction k using Pos.peano_ind.
  - simpl. lia.
  - rewrite Pos.iter_succ. simpl. rewrite IHk. lia.
Qed.

Lemma Zpos_iter m k : Zpos (Pos.iter xO m k) = (Zpos m * 2 ^ Zpos k)%Z.
Proof.
  induction k using Pos.peano_ind.
  - simpl. lia.
  - rewrite Pos.iter_succ, Pos2Z.inj_xO, IHk, Pos2Z.inj_succ, Z.pow_succ_r; lia.
Qed.

Lemma digits2_pos_bound m :
  (Zpos m < 2 ^ 53)%Z → (Zpos (digits2_pos m) ≤ 53)%Z.
Proof.
  intros Hm. rewrite digits2_pos_size.
  pose proof (Pos.size_le m) as H.
  assert (Zpos (2 ^ Pos.size m) ≤ Zpos m~0)%Z as H' by lia.
  rewrite Pos2Z.inj_pow in H'.
  destruct (decide (Zpos (Pos.size m) ≤ 53)%Z) as [|Hn]; [done|].
  assert (2 ^ 54 ≤ 2 ^ Zpos (Pos.size m))%Z by (apply Z.pow_le_mono_r; lia).
  lia.
Qed.

(** An int below [2 ^ 53] is a double: the conversion is exact and gives
    a full mantissa. *)
Lemma float_of_int_exact m :
  (Zpos m < 2 ^ 53)%Z →
  ∃ mz ez, Py.float_of_int (Zpos m) = Some (S754_finite false mz ez)
           ∧ digits2_pos mz = 53%positive ∧ (-52 ≤ ez ≤ 0)%Z
           ∧ Zpos mz = (Zpos m * 2 ^ (- ez))%Z.
Proof.
  intros Hm. pose proof (digits2_pos_bound m Hm) as HD.
  unfold Py.float_of_int, binary_normalize, binary_round.
  assert (∃ mz ez,
    shl_align m 0 (fexp Py.prec Py.emax (Zpos (digits2_pos m) + 0)) = (mz, ez)
    ∧ digits2_pos mz = 53%positive ∧ (-52 ≤ ez ≤ 0)%Z
    ∧ Zpos mz = (Zpos m * 2 ^ (- ez))%Z) as (mz & ez & -> & Hd & He & Hv).
  { unfold shl_align, fexp, emin, Py.prec, Py.emax.
    replace (Z.max (Zpos (digits2_pos m) + 0 - 53) (3 - 1024 - 53) - 0)%Z
      with (Zpos (digits2_pos m) - 53)%Z by lia.
    destruct (Zpos (digits2_pos m) - 53)%Z as [|d|d] eqn:E; [|lia|].
    - exists m, 0%Z. split; [done|]. split; [lia|]. split; [lia|]. simpl. lia.
    - exists (Pos.iter xO m d), (Zpos (digits2_pos m) + 0 - 53)%Z.
      split; [f_equal; lia|]. split; [rewrite digits2_pos_iter; lia|].
      split; [lia|]. rewrite Zpos_iter. f_equal. f_equal. lia. }
  exists mz, ez. split; [|done].
  unfold binary_round_aux, shr_fexp, Zdigits2, fexp, emin, Py.prec, Py.emax.
  rewrite Hd.
  replace (Z.max (53 + ez - 53) (3 - 1024 - 53) - ez)%Z with 0%Z by lia.
  cbn [shr shr_record_of_loc shr_m loc_of_shr_record round_nearest_even].
  rewrite Hd.
  replace (Z.max (53 + ez - 53) (3 - 1024 - 53) - ez)%Z with 0%Z by lia.
  cbn [shr shr_record_of_loc shr_m].
  assert ((ez <=? 1024 - 53)%Z = true) as -> by lia. done.
Qed.

Lemma shr_52 mz :
  SpecFloat.iter_pos shr_1 52 (Build_shr_record (Zpos (4503599627370496 * mz)) false false)
  = Build_shr_record (Zpos mz) false false.
Proof. reflexivity. Qed.

Lemma digits2_pos_scaled mz :
  digits2_pos (4503599627370496 * mz) = (digits2_pos mz + 52)%positive.
Proof.
  change (4503599627370496 * mz)%positive with (Pos.iter xO mz 52).
  apply digits2_pos_iter.
Qed.

(** The product of [2 ^ (e0 + 52)] and a double with a full mantissa is
    exact. *)
Lemma SFmul_pow2 e0 mz ez :
  digits2_pos mz = 53%positive → (-52 ≤ ez ≤ 0)%Z → (-100 ≤ e0 ≤ 0)%Z →
  SFmul Py.prec Py.emax (S754_finite false 4503599627370496 e0)
    (S754_finite false mz ez)
  = S754_finite false mz (e0 + ez + 52).
Proof.
  intros Hd He He0. unfold SFmul, binary_round_aux, shr_fexp, Zdigits2.
  rewrite digits2_pos_scaled, Hd. unfold fexp, emin, Py.prec, Py.emax.
  replace (Z.max (Zpos (53 + 52) + (e0 + ez) - 53) (3 - 1024 - 53) - (e0 + ez))%Z
    with 52%Z by lia.
  unfold shr. cbn [shr_record_of_loc]. rewrite shr_52.
  cbn [shr_m loc_of_shr_record round_nearest_even]. rewrite Hd.
  replace (Z.max (53 + (e0 + ez + 52) - 53) (3 - 1024 - 53) - (e0 + ez + 52))%Z
    with 0%Z by lia.
  cbn [shr_m].
  assert ((e0 + ez + 52 <=? 1024 - 53)%Z = true) as -> by lia. done.
Qed.

(** [int] of a positive finite float whose value is the integer part
    [v]. *)
Lemma int_shift mz e :
  Py.int (S754_finite false mz e)
  = Some (if (0 <=? e)%Z then Zpos mz * 2 ^ e else Zpos mz / 2 ^ (- e))%Z.
Proof.
  unfold Py.int. f_equal. destruct e as [|k|k].
  - simpl. lia.
  - rewrite Z.shiftl_mul_pow2 by lia. done.
  - rewrite Z.shiftr_div_pow2 by lia. done.
Qed.

Lemma scaled_dim_half dim :
  (0 ≤ dim < 2 ^ 53)%Z → scaled_dim Py.f0_5 dim = Some (dim / 2)%Z.
Proof.
  intros Hd. destruct dim as [|m|m]; [done| |lia].
  destruct (float_of_int_exact m) as (mz & ez & E & Hdig & He & Hv); [lia|].
  unfold scaled_dim, Py.fmul_int. rewrite E, !option_bind_Some.
  unfold Py.f0_5. rewrite SFmul_pow2 by (done || lia).
  rewrite int_shift. assert ((0 <=? -53 + ez + 52)%Z = false) as -> by lia.
  f_equal. rewrite Hv.
  replace (- (-53 + ez + 52))%Z with (- ez + 1)%Z by lia.
  rewrite Z.pow_add_r by lia. rewrite Z.pow_1_r.
  rewrite (Z.mul_comm (2 ^ (- ez)) 2).
  apply Z.div_mul_cancel_r; lia.
Qed.

Lemma scaled_dim_four dim :
  (0 ≤ dim < 2 ^ 53)%Z → scaled_dim Py.f4_0 dim = Some (4 * dim)%Z.
Proof.
  intros Hd. destruct dim as [|m|m]; [done| |lia].
  destruct (float_of_int_exact m) as (mz & ez & E & Hdig & He & Hv); [lia|].
  unfold scaled_dim, Py.fmul_int. rewrite E, !option_bind_Some.
  unfold Py.f4_0. rewrite SFmul_pow2 by (done || lia).
  rewrite int_shift. f_equal. rewrite Hv.
  destruct (0 <=? -50 + ez + 52)%Z eqn:Hs.
  - replace (Zpos m * 2 ^ (- ez) * 2 ^ (-50 + ez + 52))%Z
      with (Zpos m * (2 ^ (- ez) * 2 ^ (-50 + ez + 52)))%Z by lia.
    rewrite <- Z.pow_add_r by lia.
    replace (- ez + (-50 + ez + 52))%Z with 2%Z by lia. lia.
  - replace (- ez)%Z with (2 + - (-50 + ez + 52))%Z by lia.
    rewrite Z.pow_add_r by lia.
    rewrite Z.mul_assoc, Z.div_mul by lia. lia.
Qed.

End FloatFacts.

(* ================================================================== *)
(** * Facts: construction and the forward pass of a constructed model *)

Section MoreMonadFacts.
Context {SC : Scalar} {RS : RandomSource}.

Lemma returns_and_ensures {A} (m : M A) (P Q : A → Prop) :
  returns m P → ensures m Q → returns m (λ a, P a ∧ Q a).
Proof.
  intros HP HQ g. destruct (HP g) as (a & g' & E & Ha).
  exists a, g'. split; [done|]. split; [done|]. by eapply HQ.
Qed.

Lemma returns_built {A} (m : M A) (P : A → Prop) :
  returns m (λ _, True) → (∀ g a g', m g = Some (a, g') → P a) → returns m P.
Proof.
  intros Hr HP g. destruct (Hr g) as (a & g' & E & _).
  exists a, g'. split; [done|]. by eapply HP.
Qed.

End MoreMonadFacts.

Section Construction.
Context {SC : Scalar} {RS : RandomSource} {DP : DropPath.Impl}.

(** The constructor returns when its sizes are positive and, where it
    has blocks to build, their hidden sizes and the number of patches
    are. *)
Lemma MlpMixer_init_returns num_classes image_size in_channels patch_size
    num_mixer_layers embed_dim mlp_ratio dropout droppath patch_embed_norm :
  (0 < num_classes)%Z → (0 < in_channels)%Z → (0 < patch_size)%Z →
  (0 < embed_dim)%Z →
  ((0 < num_mixer_layers)%Z →
   ∃ td cd, scaled_dim mlp_ratio.1 embed_dim = Some td
            ∧ scaled_dim mlp_ratio.2 embed_dim = Some cd
            ∧ (0 < td)%Z ∧ (0 < cd)%Z
            ∧ (image_size / patch_size)%Z ≠ 0%Z) →
  returns (MlpMixer.init num_classes image_size in_channels patch_size
             num_mixer_layers embed_dim mlp_ratio dropout droppath
             patch_embed_norm) (λ _, True).
Proof.
  intros Hnc Hic Hp He Hblocks. unfold MlpMixer.init.
  eapply returns_bind; [by apply LayerNorm_init_returns|]. intros nl _.
  eapply returns_bind.
  { apply (returns_built _ (λ pe,
      PatchEmbedding.num_patches pe
      = ((image_size / patch_size) * (image_size / patch_size))%Z)).
    - by apply PatchEmbedding_init_returns.
    - intros g pe g' E. by apply PatchEmbedding_init_ensures in E
        as (_ & _ & _ & _ & Hnp & _). }
  intros pe Hnp. cbv beta in Hnp.
  eapply returns_bind.
  { destruct (Z.to_nat num_mixer_layers) as [|n] eqn:EN.
    - apply (returns_ret _ (λ _, True)). done.
    - destruct Hblocks as (td & cd & Ht & Hc & ? & ? & ?); [lia|].
      eapply returns_weaken;
        [apply (returns_replicateM _ (λ _, True))|by intros ? _].
      eapply MixerBlock_init_returns; try done. rewrite Hnp. nia. }
  intros blocks _.
  eapply returns_bind; [by apply LayerNorm_init_returns|]. intros n _.
  eapply returns_bind; [by apply Linear_init_returns|]. intros hd _.
  by apply returns_ret.
Qed.

Lemma patch_grid_window_grid k x b c n :
  0 < k → patch_grid k x b c n → window_grid k x b c n.
Proof.
  intros Hk (h & w & Sx & Hh & Hw & Hn). exists h, w.
  assert (1 ≤ h / k) by (apply Nat.div_le_lower_bound; lia).
  assert (1 ≤ w / k) by (apply Nat.div_le_lower_bound; lia).
  repeat split; try done; try lia. by rewrite !Nat.max_r.
Qed.

(** A constructed model returns class scores for every batch of images
    with as many window positions as the model has sequence positions. *)
Lemma MlpMixer_forward_windows num_classes image_size in_channels patch_size
    num_mixer_layers embed_dim mlp_ratio dropout droppath patch_embed_norm
    g0 m g1 training x b :
  MlpMixer.init num_classes image_size in_channels patch_size num_mixer_layers
    embed_dim mlp_ratio dropout droppath patch_embed_norm g0 = Some (m, g1) →
  Py.bad_probability dropout = false →
  DropPath_preserves_shape (DropPath.mk droppath) →
  window_grid (Z.to_nat patch_size) x b (Z.to_nat in_channels) (seq_len_of m) →
  returns (MlpMixer.forward_features m training x)
    (λ f, has_shape f [b; Z.to_nat embed_dim])
  ∧ returns (MlpMixer.forward m training x)
      (λ y, has_shape y [b; Z.to_nat num_classes]).
Proof.
  intros E Hp HDP (h & w & Sx & Hh & Hw & Hn).
  pose proof (MlpMixer_init_dims _ _ _ _ _ _ _ _ _ _ _ _ _ E)
    as (Hconv & Hps & Hnorm & _ & Hb & Hln & Hhead).
  assert (returns (MlpMixer.forward_features m training x)
            (λ f, has_shape f [b; Z.to_nat embed_dim])) as HF.
  { unfold MlpMixer.forward_features.
    destruct (PatchEmbedding_forward_windows (MlpMixer.patch_embed m) x b
                (Z.to_nat in_channels) h w (Z.to_nat embed_dim)
                (Z.to_nat patch_size)) as (x1 & E1 & H1); try done; [lia|].
    step_pure E1. rewrite Hn in H1.
    eapply returns_bind.
    { apply (mixer_layers_returns _ training x1 b (Z.to_nat embed_dim)
               (seq_len_of m)); [|done].
      eapply Forall_impl; [exact Hb|]. intros l [Hd (Ht & Hc & Hdp)].
      unfold MixerBlock_runs. by rewrite Ht, Hc, Hdp. }
    intros x2 [S2 W2].
    destruct Hln as (Hns & _).
    destruct (LayerNorm_forward_total (MlpMixer.norm m) x2 [b; seq_len_of m])
      as (x3 & E3 & [S3 W3]); [by rewrite Hns, S2|].
    step_pure E3. rewrite S2 in S3.
    destruct (mean_axis_1_total x3 _ _ _ S3) as (x4 & E4 & H4).
    step_pure E4. by apply returns_ret. }
  split; [done|]. unfold MlpMixer.forward.
  eapply returns_bind; [exact HF|]. intros f [Sf Wf].
  destruct Hhead as [[Sw _] [Sb _]].
  destruct (Linear_forward_total (MlpMixer.head m) f [b] _ _ Sw Sb Sf)
    as (y & Ey & Hy).
  step_pure Ey. by apply returns_ret.
Qed.

(** A constructed model returns class scores for every batch of images
    that holds as many complete patches as the model has sequence
    positions. *)
Lemma MlpMixer_forward_returns num_classes image_size in_channels patch_size
    num_mixer_layers embed_dim mlp_ratio dropout droppath patch_embed_norm
    g0 m g1 training x b :
  MlpMixer.init num_classes image_size in_channels patch_size num_mixer_layers
    embed_dim mlp_ratio dropout droppath patch_embed_norm g0 = Some (m, g1) →
  Py.bad_probability dropout = false →
  DropPath_preserves_shape (DropPath.mk droppath) →
  patch_grid (Z.to_nat patch_size) x b (Z.to_nat in_channels) (seq_len_of m) →
  returns (MlpMixer.forward_features m training x)
    (λ f, has_shape f [b; Z.to_nat embed_dim])
  ∧ returns (MlpMixer.forward m training x)
      (λ y, has_shape y [b; Z.to_nat num_classes]).
Proof.
  intros E Hp HDP Hg.
  pose proof (MlpMixer_init_dims _ _ _ _ _ _ _ _ _ _ _ _ _ E)
    as (_ & Hps & _).
  eapply MlpMixer_forward_windows; try done.
  apply patch_grid_window_grid; [lia | done].
Qed.

End Construction.

Section BuildFacts.
Context {SC : Scalar} {RS : RandomSource} {DP : DropPath.Impl}.

(** [build_mlp_mixer] is the constructor applied to the options read. *)
Lemma build_mlp_mixer_read config g :
  build_mlp_mixer config g
  = match read_options config with
    | Some (num_classes, image_size, num_mixer_layers, embed_dim,
            dropout, droppath) =>
        MlpMixer.init num_classes image_size 3 16 num_mixer_layers embed_dim
          (Py.f0_5, Py.f4_0) dropout droppath false g
    | None => None
    end.
Proof.
  unfold build_mlp_mixer, read_options, int_options, float_options.
  cbn [mapM]. rewrite !bind_eq. unfold pure_ at 1.
  destruct (getpath ["MODEL"; "NUM_CLASSES"] config ≫= as_int) as [nc|];
    [|done]. rewrite option_bind_Some, !bind_eq. unfold pure_ at 1.
  destruct (getpath ["DATA"; "IMAGE_SIZE"] config ≫= as_int) as [isz|];
    [|done]. rewrite option_bind_Some, !bind_eq. unfold pure_ at 1.
  destruct (getpath ["MODEL"; "MIXER"; "NUM_LAYERS"] config ≫= as_int)
    as [nl|]; [|done]. rewrite option_bind_Some, !bind_eq. unfold pure_ at 1.
  destruct (getpath ["MODEL"; "MIXER"; "HIDDEN_SIZE"] config ≫= as_int)
    as [ed|]; [|done]. rewrite !option_bind_Some, !bind_eq. unfold pure_ at 1.
  destruct (getpath ["MODEL"; "DROPOUT"] config ≫= as_float) as [dr|];
    [|done]. rewrite option_bind_Some, !bind_eq. unfold pure_ at 1.
  destruct (getpath ["MODEL"; "DROPPATH"] config ≫= as_float) as [dp|];
    [|done]. rewrite !option_bind_Some.
  unfold MlpMixer.default_patch_size, MlpMixer.default_patch_embed_norm.
  apply bind_ret_r.
Qed.

(** The options are read when each of them is there. *)
Lemma read_options_None config :
  read_options config = None
  ↔ (∃ path, path ∈ int_options ∧ getpath path config ≫= as_int = None)
    ∨ (∃ path, path ∈ float_options ∧ getpath path config ≫= as_float = None).
Proof.
  unfold read_options. split.
  - intros E.
    destruct (mapM (λ path, getpath path config ≫= as_int) int_options)
      as [ints|] eqn:Ei.
    + destruct (mapM (λ path, getpath path config ≫= as_float) float_options)
        as [floats|] eqn:Ef.
      * apply length_mapM in Ei, Ef. simpl in Ei, Ef.
        destruct ints as [|? [|? [|? [|? [|]]]]]; try done.
        destruct floats as [|? [|? [|]]]; done.
      * right. apply mapM_None in Ef. apply Exists_exists in Ef. done.
    + left. apply mapM_None in Ei. apply Exists_exists in Ei. done.
  - intros [(path & Hin & E)|(path & Hin & E)].
    + assert (mapM (λ path, getpath path config ≫= as_int) int_options = None)
        as -> by (apply mapM_None, Exists_exists; eauto). done.
    + assert (mapM (λ path, getpath path config ≫= as_float) float_options
              = None) as ->
        by (apply mapM_None, Exists_exists; eauto).
      by destruct (mapM _ int_options).
Qed.

End BuildFacts.

(* ================================================================== *)
(** * Facts: computations that draw no random numbers *)

Section DrawsNothing.
Context {SC : Scalar} {RS : RandomSource} {DP : DropPath.Impl}.

Lemma draws_nothing_pure {A} (o : option A) : draws_nothing (pure_ o).
Proof. by exists o. Qed.

Lemma draws_nothing_ret {A} (a : A) : draws_nothing (mret a : M A).
Proof. by exists (Some a). Qed.

Lemma draws_nothing_raise {A} : draws_nothing (raise : M A).
Proof. by exists None. Qed.

Lemma draws_nothing_bind {A B} (m : M A) (f : A → M B) :
  draws_nothing m → (∀ a, draws_nothing (f a)) → draws_nothing (m ≫= f).
Proof.
  intros [[a|] Hm] Hf.
  - destruct (Hf a) as [o Ho]. exists o. intros g.
    rewrite bind_eq, Hm. simpl. apply Ho.
  - exists None. intros g. rewrite bind_eq, Hm. done.
Qed.

Lemma draws_nothing_foldM {A B} (f : B → A → M A) (l : list B) (a : A) :
  (∀ b a, draws_nothing (f b a)) → draws_nothing (foldM f l a).
Proof.
  intros Hf. revert a. induction l as [|b l IH]; intros a; simpl.
  - apply draws_nothing_ret.
  - apply draws_nothing_bind; [apply Hf | apply IH].
Qed.

(** What a computation that draws nothing returns, it returns from every
    generator state, which it leaves as it was. *)
Lemma draws_nothing_Some {A} (m : M A) g a g' :
  draws_nothing m → m g = Some (a, g') →
  g' = g ∧ ∀ g2, m g2 = Some (a, g2).
Proof.
  intros [o Ho] E. rewrite Ho in E. unfold pure_ in E.
  destruct o as [a'|]; [|done]. injection E as -> ->.
  split; [done|]. intros g2. by rewrite Ho.
Qed.

Lemma Dropout_eval_draws_nothing (l : Dropout.t) x :
  draws_nothing (Dropout.forward l false x).
Proof.
  unfold Dropout.forward. destruct (Py.bad_probability _).
  - apply draws_nothing_raise.
  - apply draws_nothing_ret.
Qed.

Lemma Mlp_eval_draws_nothing (l : Mlp.t) x :
  draws_nothing (Mlp.forward l false x).
Proof.
  unfold Mlp.forward.
  apply draws_nothing_bind; [apply draws_nothing_pure|]. intros x1.
  apply draws_nothing_bind; [apply draws_nothing_ret|]. intros x2.
  apply draws_nothing_bind; [apply Dropout_eval_draws_nothing|]. intros x3.
  apply draws_nothing_bind; [apply draws_nothing_pure|]. intros x4.
  apply draws_nothing_bind; [apply Dropout_eval_draws_nothing|]. intros x5.
  apply draws_nothing_ret.
Qed.

Lemma MixerBlock_eval_draws_nothing (l : MixerBlock.t) x :
  DropPath_eval_draws_nothing → draws_nothing (MixerBlock.forward l false x).
Proof.
  intros HDP. unfold MixerBlock.forward.
  apply draws_nothing_bind; [apply draws_nothing_pure|]. intros x1.
  apply draws_nothing_bind; [apply draws_nothing_pure|]. intros x2.
  apply draws_nothing_bind; [apply Mlp_eval_draws_nothing|]. intros x3.
  apply draws_nothing_bind; [apply draws_nothing_pure|]. intros x4.
  apply draws_nothing_bind; [apply HDP|]. intros x5.
  apply draws_nothing_bind; [apply draws_nothing_pure|]. intros x6.
  apply draws_nothing_bind; [apply draws_nothing_pure|]. intros x7.
  apply draws_nothing_bind; [apply Mlp_eval_draws_nothing|]. intros x8.
  apply draws_nothing_bind; [apply HDP|]. intros x9.
  apply draws_nothing_bind; [apply draws_nothing_pure|]. intros x10.
  apply draws_nothing_ret.
Qed.

Lemma MlpMixer_forward_draws_nothing (m : MlpMixer.t) x :
  DropPath_eval_draws_nothing → draws_nothing (MlpMixer.forward m false x).
Proof.
  intros HDP. unfold MlpMixer.forward, MlpMixer.forward_features.
  apply draws_nothing_bind; [|intros f; apply draws_nothing_bind;
    [apply draws_nothing_pure | intros; apply draws_nothing_ret]].
  apply draws_nothing_bind; [apply draws_nothing_pure|]. intros x1.
  apply draws_nothing_bind.
  { apply draws_nothing_foldM. intros b a.
    by apply MixerBlock_eval_draws_nothing. }
  intros x2.
  apply draws_nothing_bind; [apply draws_nothing_pure|]. intros x3.
  apply draws_nothing_bind; [apply draws_nothing_pure|]. intros x4.
  apply draws_nothing_ret.
Qed.

End DrawsNothing.

(* ================================================================== *)
(** * Facts: rows, sequences and images

    The layers that act along the last axis act on each row by itself;
    from this, each stage of a block keeps the sequences of a batch
    apart. *)

Section RowFacts.
Context {SC : Scalar} {RS : RandomSource}.

(** The elements of the result of a linear layer. *)
Lemma Linear_forward_at l x y pre d n_out r j :
  Linear.forward l x = Some y → shape x = pre ++ [d] →
  shape (Linear.weight l) = [d; n_out] → r < numel pre → j < n_out →
  at_ y (r * n_out + j)
  = radd (rsum (tab d (λ i, rmul (at_ x (r * d + i))
                              (at_ (Linear.weight l) (i * n_out + j)))))
         (at_ (Linear.bias l) j).
Proof.
  intros E Sx Sw Hr Hj. unfold Linear.forward in E.
  rewrite Sw, Sx, split_last_snoc in E.
  destruct (decide _); [|done]. injection E as <-.
  unfold at_ at 1. cbn [data]. by rewrite nth_tab2.
Qed.

Lemma LayerNorm_forward_at l x y pre r j :
  LayerNorm.forward l x = Some y →
  shape x = pre ++ [LayerNorm.normalized_shape l] →
  r < numel pre → j < LayerNorm.normalized_shape l →
  at_ y (r * LayerNorm.normalized_shape l + j)
  = radd (rmul (LayerNorm.normalize (of_float (LayerNorm.epsilon l))
                  (row x (LayerNorm.normalized_shape l) r)
                  (at_ x (r * LayerNorm.normalized_shape l + j)))
               (at_ (LayerNorm.weight l) j))
         (at_ (LayerNorm.bias l) j).
Proof.
  intros E Sx Hr Hj. unfold LayerNorm.forward in E.
  rewrite Sx, split_last_snoc in E.
  destruct (decide _); [|done]. injection E as <-.
  unfold at_ at 1. cbn [data]. by rewrite nth_tab2.
Qed.

Lemma at_tensor_map f x o :
  o < length (data x) → at_ (tensor_map f x) o = f (at_ x o).
Proof.
  intros Ho. unfold at_, tensor_map. cbn [data].
  rewrite !nth_lookup, list_lookup_fmap.
  destruct (lookup_lt_is_Some_2 (data x) o Ho) as [v ->]. done.
Qed.

Lemma at_zip_with (f : R → R → R) (l k : list R) o :
  o < length l → o < length k →
  nth o (zip_with f l k) rzero = f (nth o l rzero) (nth o k rzero).
Proof.
  intros Hl Hk. rewrite !nth_lookup, lookup_zip_with.
  destruct (lookup_lt_is_Some_2 l o Hl) as [v ->].
  destruct (lookup_lt_is_Some_2 k o Hk) as [w ->]. done.
Qed.

(** Two runs of a dropout layer from one generator state, on tensors of
    one size: the same mask is drawn, so that elements that agree before
    agree after. *)
Lemma Dropout_forward_pointwise l training x x' g y g1 y' g1' :
  length (data x) = length (data x') →
  Dropout.forward l training x g = Some (y, g1) →
  Dropout.forward l training x' g = Some (y', g1') →
  g1' = g1
  ∧ ∀ o, o < length (data x) → at_ x o = at_ x' o → at_ y o = at_ y' o.
Proof.
  intros Hlen E E'. unfold Dropout.forward in E, E'.
  destruct (Py.bad_probability _); [done|]. destruct training.
  - apply bind_Some in E as (ms & g2 & Em & E).
    apply bind_Some in E' as (ms' & g2' & Em' & E').
    rewrite <- Hlen, Em in Em'. injection Em' as <- <-.
    apply ret_Some in E as [-> ->]. apply ret_Some in E' as [-> ->].
    split; [done|]. intros o Ho Hx. unfold at_ in *. cbn [data].
    apply (ensures_replicateM _ (λ _, True)) in Em as [Hms _];
      [|by intros ???].
    rewrite !at_zip_with by lia. by rewrite Hx.
  - apply ret_Some in E as [-> ->]. apply ret_Some in E' as [-> ->]. done.
Qed.

(** An [Mlp] acts on each row of its input by itself: two runs from one
    generator state on inputs that agree on a row agree on that row of
    the result. *)
Lemma Mlp_forward_rowwise l training x x' g y g1 y' g1' pre n h :
  Mlp_dims l n h → has_shape x (pre ++ [n]) → has_shape x' (pre ++ [n]) →
  Mlp.forward l training x g = Some (y, g1) →
  Mlp.forward l training x' g = Some (y', g1') →
  g1' = g1
  ∧ ∀ r, r < numel pre →
      (∀ i, i < n → at_ x (r * n + i) = at_ x' (r * n + i)) →
      ∀ j, j < n → at_ y (r * n + j) = at_ y' (r * n + j).
Proof.
  intros [[[W1 _] [B1 _]] [[W2 _] [B2 _]]] [Sx Wx] [Sx' Wx'] E E'.
  unfold Mlp.forward in E, E'.
  apply bind_Some in E as (x1 & ? & E1 & E). apply pure_Some in E1 as [E1 ->].
  apply bind_Some in E as (x2 & ? & E2 & E). apply ret_Some in E2 as [-> ->].
  apply bind_Some in E as (x3 & g3 & E3 & E).
  apply bind_Some in E as (x4 & ? & E4 & E). apply pure_Some in E4 as [E4 ->].
  apply bind_Some in E as (x5 & g5 & E5 & E). apply ret_Some in E as [-> ->].
  apply bind_Some in E' as (x1' & ? & E1' & E').
  apply pure_Some in E1' as [E1' ->].
  apply bind_Some in E' as (x2' & ? & E2' & E').
  apply ret_Some in E2' as [-> ->].
  apply bind_Some in E' as (x3' & g3' & E3' & E').
  apply bind_Some in E' as (x4' & ? & E4' & E').
  apply pure_Some in E4' as [E4' ->].
  apply bind_Some in E' as (x5' & g5' & E5' & E').
  apply ret_Some in E' as [-> ->].
  (* the shapes along the way *)
  destruct (Linear_forward_total _ x pre n h W1 B1 Sx) as (? & F & H1).
  rewrite E1 in F. injection F as <-.
  destruct (Linear_forward_total _ x' pre n h W1 B1 Sx') as (? & F & H1').
  rewrite E1' in F. injection F as <-.
  pose proof (GELU_forward_shape (Mlp.act l) _ _ H1) as [S2 L2].
  pose proof (GELU_forward_shape (Mlp.act l) _ _ H1') as [S2' L2'].
  unfold wf in L2, L2'.
  destruct (Dropout_forward_pointwise _ _ _ _ _ _ _ _ _
              ltac:(by rewrite L2, L2', S2, S2') E3 E3') as [-> R3].
  apply (Dropout_forward_ensures _ _ _ (pre ++ [h])) in E3 as [[S3 L3] _];
    [|by split].
  apply (Dropout_forward_ensures _ _ _ (pre ++ [h])) in E3' as [[S3' L3'] _];
    [|by split].
  destruct (Linear_forward_total _ x3 pre h n W2 B2 S3) as (? & F & [S4 L4]).
  rewrite E4 in F. injection F as <-.
  destruct (Linear_forward_total _ x3' pre h n W2 B2 S3') as (? & F & [S4' L4']).
  rewrite E4' in F. injection F as <-.
  unfold wf in L4, L4'.
  destruct (Dropout_forward_pointwise _ _ _ _ _ _ _ _ _
              ltac:(by rewrite L4, L4', S4, S4') E5 E5') as [-> R5].
  split; [done|]. intros r Hr Hrow.
  assert (∀ m j, j < m → r * m + j < numel (pre ++ [m])) as Hb.
  { intros m j Hj. rewrite numel_snoc. by apply offset_lt. }
  (* the first linear layer *)
  assert (∀ j, j < h → at_ x1 (r * h + j) = at_ x1' (r * h + j)) as R1.
  { intros j Hj.
    rewrite (Linear_forward_at _ x x1 pre n h r j),
      (Linear_forward_at _ x' x1' pre n h r j) by done.
    f_equal. f_equal. apply tab_ext. intros i Hi. by rewrite Hrow. }
  (* the activation *)
  assert (∀ j, j < h → at_ (GELU.forward (Mlp.act l) x1) (r * h + j)
                       = at_ (GELU.forward (Mlp.act l) x1') (r * h + j)) as R2.
  { intros j Hj. unfold GELU.forward.
    destruct H1 as [S1 L1], H1' as [S1' L1']. unfold wf in L1, L1'.
    rewrite !at_tensor_map by (rewrite ?L1, ?L1', ?S1, ?S1'; by apply Hb).
    by rewrite R1. }
  (* the second linear layer, on what the first dropout returns *)
  assert (∀ j, j < n → at_ x4 (r * n + j) = at_ x4' (r * n + j)) as R4.
  { intros j Hj.
    rewrite (Linear_forward_at _ x3 x4 pre h n r j),
      (Linear_forward_at _ x3' x4' pre h n r j) by done.
    f_equal. f_equal. apply tab_ext. intros i Hi. f_equal.
    apply R3; [rewrite L2, S2; by apply Hb | by apply R2]. }
  (* the second dropout *)
  intros j Hj. apply R5; [|by apply R4]. rewrite L4, S4. by apply Hb.
Qed.

End RowFacts.

Section MixingFacts.
Context {SC : Scalar} {RS : RandomSource}.

Lemma get3_at x b s d i j k :
  shape x = [b; s; d] → get3 x i j k = at_ x ((i * s + j) * d + k).
Proof. intros Sx. unfold get3. by rewrite Sx. Qed.

Lemma numel_pair b s : numel [b; s] = b * s.
Proof. simpl. lia. Qed.

End MixingFacts.

Section SampleFacts.
Context {SC : Scalar} {RS : RandomSource}.

Lemma Dropout_eval_Some l x g y g1 :
  Dropout.forward l false x g = Some (y, g1) → y = x ∧ g1 = g.
Proof.
  unfold Dropout.forward. destruct (Py.bad_probability _); [done|].
  intros E. by apply ret_Some in E as [-> ->].
Qed.

(** In evaluation mode a row of the result of an [Mlp] is a function of
    the same row of its input. *)
Lemma Mlp_eval_rows l x x' g g' y g1 y' g1' pre pre' n h :
  Mlp_dims l n h → shape x = pre ++ [n] → shape x' = pre' ++ [n] →
  Mlp.forward l false x g = Some (y, g1) →
  Mlp.forward l false x' g' = Some (y', g1') →
  has_shape y (pre ++ [n]) ∧ has_shape y' (pre' ++ [n])
  ∧ ∀ r r', r < numel pre → r' < numel pre' →
      (∀ i, i < n → at_ x (r * n + i) = at_ x' (r' * n + i)) →
      ∀ j, j < n → at_ y (r * n + j) = at_ y' (r' * n + j).
Proof.
  intros [[[W1 _] [B1 _]] [[W2 _] [B2 _]]] Sx Sx' E E'.
  unfold Mlp.forward in E, E'.
  apply bind_Some in E as (x1 & ? & E1 & E). apply pure_Some in E1 as [E1 ->].
  apply bind_Some in E as (x2 & ? & E2 & E). apply ret_Some in E2 as [-> ->].
  apply bind_Some in E as (x3 & g3 & E3 & E).
  apply Dropout_eval_Some in E3 as [-> ->].
  apply bind_Some in E as (x4 & ? & E4 & E). apply pure_Some in E4 as [E4 ->].
  apply bind_Some in E as (x5 & g5 & E5 & E). apply ret_Some in E as [-> ->].
  apply Dropout_eval_Some in E5 as [-> ->].
  apply bind_Some in E' as (x1' & ? & E1' & E').
  apply pure_Some in E1' as [E1' ->].
  apply bind_Some in E' as (x2' & ? & E2' & E').
  apply ret_Some in E2' as [-> ->].
  apply bind_Some in E' as (x3' & g3' & E3' & E').
  apply Dropout_eval_Some in E3' as [-> ->].
  apply bind_Some in E' as (x4' & ? & E4' & E').
  apply pure_Some in E4' as [E4' ->].
  apply bind_Some in E' as (x5' & g5' & E5' & E').
  apply ret_Some in E' as [-> ->].
  apply Dropout_eval_Some in E5' as [-> ->].
  destruct (Linear_forward_total _ x pre n h W1 B1 Sx) as (? & F & H1).
  rewrite E1 in F. injection F as <-.
  destruct (Linear_forward_total _ x' pre' n h W1 B1 Sx') as (? & F & H1').
  rewrite E1' in F. injection F as <-.
  pose proof (GELU_forward_shape (Mlp.act l) _ _ H1) as [S2 L2].
  pose proof (GELU_forward_shape (Mlp.act l) _ _ H1') as [S2' L2'].
  destruct (Linear_forward_total _ _ pre h n W2 B2 S2) as (? & F & H4).
  rewrite E4 in F. injection F as <-.
  destruct (Linear_forward_total _ _ pre' h n W2 B2 S2') as (? & F & H4').
  rewrite E4' in F. injection F as <-.
  split; [done|]. split; [done|]. intros r r' Hr Hr' Hrow j Hj.
  rewrite (Linear_forward_at _ _ x4 pre h n r j),
    (Linear_forward_at _ _ x4' pre' h n r' j) by done.
  f_equal. f_equal. apply tab_ext. intros i Hi. f_equal.
  unfold GELU.forward. destruct H1 as [S1 L1], H1' as [S1' L1'].
  unfold wf in L1, L1'.
  rewrite !at_tensor_map
    by (rewrite ?L1, ?L1', ?S1, ?S1', numel_snoc; by apply offset_lt).
  f_equal.
  rewrite (Linear_forward_at _ x x1 pre n h r i),
    (Linear_forward_at _ x' x1' pre' n h r' i) by done.
  f_equal. f_equal. apply tab_ext. intros i' Hi'. by rewrite Hrow.
Qed.

(** A layer normalization acts on each row by itself. *)
Lemma LayerNorm_forward_rows l x x' y y' pre pre' :
  LayerNorm.forward l x = Some y → LayerNorm.forward l x' = Some y' →
  shape x = pre ++ [LayerNorm.normalized_shape l] →
  shape x' = pre' ++ [LayerNorm.normalized_shape l] →
  ∀ r r', r < numel pre → r' < numel pre' →
    (∀ i, i < LayerNorm.normalized_shape l →
       at_ x (r * LayerNorm.normalized_shape l + i)
       = at_ x' (r' * LayerNorm.normalized_shape l + i)) →
    ∀ j, j < LayerNorm.normalized_shape l →
      at_ y (r * LayerNorm.normalized_shape l + j)
      = at_ y' (r' * LayerNorm.normalized_shape l + j).
Proof.
  intros E E' Sx Sx' r r' Hr Hr' Hrow j Hj.
  rewrite (LayerNorm_forward_at l x y pre r j),
    (LayerNorm_forward_at l x' y' pre' r' j) by done.
  assert (row x (LayerNorm.normalized_shape l) r
          = row x' (LayerNorm.normalized_shape l) r') as ->
    by (unfold row; by apply tab_ext).
  by rewrite Hrow.
Qed.

Lemma tensor_add_at x y z o :
  tensor_add x y = Some z → o < length (data x) → o < length (data y) →
  at_ z o = radd (at_ x o) (at_ y o).
Proof.
  unfold tensor_add. destruct (decide _); [|done]. intros [= <-] Hx Hy.
  unfold at_. cbn [data]. by apply at_zip_with.
Qed.

End SampleFacts.

Section SequenceFacts.
Context {SC : Scalar} {RS : RandomSource}.

(** Row-wise layers keep sequences apart. *)
Lemma same_sequence_rows s d e x x' y y' b b' n n' :
  shape x = [b; s; d] → shape x' = [b'; s; d] →
  shape y = [b; s; e] → shape y' = [b'; s; e] → n < b → n' < b' →
  (∀ r r', r < numel [b; s] → r' < numel [b'; s] →
     (∀ i, i < d → at_ x (r * d + i) = at_ x' (r' * d + i)) →
     ∀ j, j < e → at_ y (r * e + j) = at_ y' (r' * e + j)) →
  same_sequence s d x n x' n' → same_sequence s e y n y' n'.
Proof.
  intros Sx Sx' Sy Sy' Hn Hn' Hrows Hx j k Hj Hk.
  rewrite (get3_at y b s e), (get3_at y' b' s e) by done.
  apply Hrows; [rewrite numel_pair; by apply offset_lt..| |done].
  intros i Hi. rewrite <- (get3_at x b s d), <- (get3_at x' b' s d) by done.
  by apply Hx.
Qed.

Lemma same_sequence_transpose s d x x' y y' b b' n n' :
  shape x = [b; s; d] → shape x' = [b'; s; d] →
  transpose_0_2_1 x = Some y → transpose_0_2_1 x' = Some y' →
  n < b → n' < b' →
  same_sequence s d x n x' n' → same_sequence d s y n y' n'.
Proof.
  intros Sx Sx' E E' Hn Hn' Hx k j Hk Hj.
  rewrite (transpose_get x y b s d n j k), (transpose_get x' y' b' s d n' j k)
    by done.
  by apply Hx.
Qed.

Lemma same_sequence_add s d x x' h h' z z' b b' n n' :
  has_shape x [b; s; d] → has_shape x' [b'; s; d] →
  has_shape h [b; s; d] → has_shape h' [b'; s; d] →
  tensor_add x h = Some z → tensor_add x' h' = Some z' → n < b → n' < b' →
  same_sequence s d x n x' n' → same_sequence s d h n h' n' →
  same_sequence s d z n z' n'.
Proof.
  intros [Sx Lx] [Sx' Lx'] [Sh Lh] [Sh' Lh'] E E' Hn Hn' Hx Hh j k Hj Hk.
  destruct (tensor_add_total x h [b; s; d]) as (? & F & [Sz _]); [done..|].
  rewrite E in F. injection F as <-.
  destruct (tensor_add_total x' h' [b'; s; d]) as (? & F & [Sz' _]); [done..|].
  rewrite E' in F. injection F as <-.
  unfold wf in *.
  assert (∀ c m, m < c → (m * s + j) * d + k < numel [c; s; d]) as Hb.
  { intros c m Hm. simpl. rewrite Nat.mul_1_r, Nat.mul_assoc.
    apply offset_lt; [|done]. by apply offset_lt. }
  rewrite (get3_at z b s d), (get3_at z' b' s d) by done.
  rewrite (tensor_add_at x h z), (tensor_add_at x' h' z') ; try done.
  - rewrite <- !(get3_at _ b s d), <- !(get3_at _ b' s d) by done.
    by rewrite Hx, Hh.
  - rewrite Lx', Sx'. by apply Hb.
  - rewrite Lh', Sh'. by apply Hb.
  - rewrite Lx, Sx. by apply Hb.
  - rewrite Lh, Sh. by apply Hb.
Qed.

End SequenceFacts.

Section BlockSample.
Context {SC : Scalar} {RS : RandomSource} {DP : DropPath.Impl}.

(** In evaluation mode a block maps each sequence of the batch by
    itself. *)
Lemma MixerBlock_eval_per_sequence l x x' g g' y g1 y' g1' b b' s d td cd :
  DropPath_eval_identity → MixerBlock_dims l d s td cd →
  has_shape x [b; s; d] → has_shape x' [b'; s; d] →
  MixerBlock.forward l false x g = Some (y, g1) →
  MixerBlock.forward l false x' g' = Some (y', g1') →
  has_shape y [b; s; d] ∧ has_shape y' [b'; s; d]
  ∧ ∀ n n', n < b → n' < b' →
      same_sequence s d x n x' n' → same_sequence s d y n y' n'.
Proof.
  intros HDP ((N1 & _ & _) & (N2 & _ & _) & Dt & Dc) Hx Hx' E E'.
  pose proof Hx as [Sx Wx]. pose proof Hx' as [Sx' Wx'].
  unfold MixerBlock.forward in E, E'.
  apply bind_Some in E as (x1 & ? & E1 & E). apply pure_Some in E1 as [E1 ->].
  apply bind_Some in E as (x2 & ? & E2 & E). apply pure_Some in E2 as [E2 ->].
  apply bind_Some in E as (x3 & g3 & E3 & E).
  apply bind_Some in E as (x4 & ? & E4 & E). apply pure_Some in E4 as [E4 ->].
  apply bind_Some in E as (x5 & g5 & E5 & E).
  rewrite HDP in E5. injection E5 as <- <-.
  apply bind_Some in E as (x6 & ? & E6 & E). apply pure_Some in E6 as [E6 ->].
  apply bind_Some in E as (x7 & ? & E7 & E). apply pure_Some in E7 as [E7 ->].
  apply bind_Some in E as (x8 & g8 & E8 & E).
  apply bind_Some in E as (x9 & g9 & E9 & E).
  rewrite HDP in E9. injection E9 as <- <-.
  apply bind_Some in E as (x10 & ? & E10 & E).
  apply pure_Some in E10 as [E10 ->]. apply ret_Some in E as [-> ->].
  apply bind_Some in E' as (x1' & ? & E1' & E').
  apply pure_Some in E1' as [E1' ->].
  apply bind_Some in E' as (x2' & ? & E2' & E').
  apply pure_Some in E2' as [E2' ->].
  apply bind_Some in E' as (x3' & g3' & E3' & E').
  apply bind_Some in E' as (x4' & ? & E4' & E').
  apply pure_Some in E4' as [E4' ->].
  apply bind_Some in E' as (x5' & g5' & E5' & E').
  rewrite HDP in E5'. injection E5' as <- <-.
  apply bind_Some in E' as (x6' & ? & E6' & E').
  apply pure_Some in E6' as [E6' ->].
  apply bind_Some in E' as (x7' & ? & E7' & E').
  apply pure_Some in E7' as [E7' ->].
  apply bind_Some in E' as (x8' & g8' & E8' & E').
  apply bind_Some in E' as (x9' & g9' & E9' & E').
  rewrite HDP in E9'. injection E9' as <- <-.
  apply bind_Some in E' as (x10' & ? & E10' & E').
  apply pure_Some in E10' as [E10' ->]. apply ret_Some in E' as [-> ->].
  (* the shapes along the way, and the rows of the two [Mlp]s *)
  assert (shape x = [b; s] ++ [LayerNorm.normalized_shape (MixerBlock.norm1 l)])
    as Sxn by (by rewrite N1).
  assert (shape x' = [b'; s] ++ [LayerNorm.normalized_shape (MixerBlock.norm1 l)])
    as Sxn' by (by rewrite N1).
  destruct (LayerNorm_forward_total _ x _ Sxn) as (? & F & [S1 W1]).
  rewrite E1 in F. injection F as <-. rewrite Sx in S1.
  destruct (LayerNorm_forward_total _ x' _ Sxn') as (? & F & [S1' W1']).
  rewrite E1' in F. injection F as <-. rewrite Sx' in S1'.
  destruct (transpose_total x1 b s d S1) as (? & F & [S2 W2]).
  rewrite E2 in F. injection F as <-.
  destruct (transpose_total x1' b' s d S1') as (? & F & [S2' W2']).
  rewrite E2' in F. injection F as <-.
  destruct (Mlp_eval_rows _ x2 x2' _ _ x3 _ x3' _ [b; d] [b'; d] s td Dt
              S2 S2' E3 E3') as ([S3 W3] & [S3' W3'] & R3).
  destruct (transpose_total x3 b d s S3) as (? & F & H4).
  rewrite E4 in F. injection F as <-.
  destruct (transpose_total x3' b' d s S3') as (? & F & H4').
  rewrite E4' in F. injection F as <-.
  destruct (tensor_add_total x4 x [b; s; d]) as (? & F & H6); [done..|].
  rewrite E6 in F. injection F as <-.
  destruct (tensor_add_total x4' x' [b'; s; d]) as (? & F & H6'); [done..|].
  rewrite E6' in F. injection F as <-.
  pose proof H6 as [S6 W6]. pose proof H6' as [S6' W6'].
  assert (shape x6 = [b; s] ++ [LayerNorm.normalized_shape (MixerBlock.norm2 l)])
    as S6n by (by rewrite N2).
  assert (shape x6' = [b'; s] ++ [LayerNorm.normalized_shape (MixerBlock.norm2 l)])
    as S6n' by (by rewrite N2).
  destruct (LayerNorm_forward_total _ x6 _ S6n) as (? & F & [S7 W7]).
  rewrite E7 in F. injection F as <-. rewrite S6 in S7.
  destruct (LayerNorm_forward_total _ x6' _ S6n') as (? & F & [S7' W7']).
  rewrite E7' in F. injection F as <-. rewrite S6' in S7'.
  destruct (Mlp_eval_rows _ x7 x7' _ _ x8 _ x8' _ [b; s] [b'; s] d cd Dc
              S7 S7' E8 E8') as (H8 & H8' & R8).
  pose proof H8 as [S8 W8]. pose proof H8' as [S8' W8'].
  destruct (tensor_add_total x8 x6 [b; s; d]) as (? & F & H10); [done..|].
  rewrite E10 in F. injection F as <-.
  destruct (tensor_add_total x8' x6' [b'; s; d]) as (? & F & H10'); [done..|].
  rewrite E10' in F. injection F as <-.
  split; [done|]. split; [done|]. intros n n' Hn Hn' SS.
  (* token mixing *)
  assert (same_sequence s d x1 n x1' n') as SS1.
  { apply (same_sequence_rows s d d x x' x1 x1' b b'); try done.
    pose proof (LayerNorm_forward_rows _ x x' x1 x1' [b; s] [b'; s]
                  E1 E1' Sxn Sxn') as H.
    by rewrite N1 in H. }
  pose proof (same_sequence_transpose s d x1 x1' x2 x2' b b' n n'
                S1 S1' E2 E2' Hn Hn' SS1) as SS2.
  pose proof (same_sequence_rows d s s x2 x2' x3 x3' b b' n n'
                S2 S2' S3 S3' Hn Hn' R3 SS2) as SS3.
  pose proof (same_sequence_transpose d s x3 x3' x4 x4' b b' n n'
                S3 S3' E4 E4' Hn Hn' SS3) as SS4.
  pose proof (same_sequence_add s d x4 x4' x x' x6 x6' b b' n n'
                H4 H4' Hx Hx' E6 E6' Hn Hn' SS4 SS) as SS6.
  (* channel mixing *)
  assert (same_sequence s d x7 n x7' n') as SS7.
  { apply (same_sequence_rows s d d x6 x6' x7 x7' b b'); try done.
    pose proof (LayerNorm_forward_rows _ x6 x6' x7 x7' [b; s] [b'; s]
                  E7 E7' S6n S6n') as H.
    by rewrite N2 in H. }
  pose proof (same_sequence_rows s d d x7 x7' x8 x8' b b' n n'
                S7 S7' S8 S8' Hn Hn' R8 SS7) as SS8.
  by apply (same_sequence_add s d x8 x8' x6 x6' x10 x10' b b' n n').
Qed.

(** So does a stack of blocks. *)
Lemma mixer_layers_eval_per_sequence (blocks : list MixerBlock.t)
    x x' g g' y g1 y' g1' b b' s d :
  DropPath_eval_identity →
  Forall (λ l, ∃ td cd, MixerBlock_dims l d s td cd) blocks →
  has_shape x [b; s; d] → has_shape x' [b'; s; d] →
  Sequential.forward (λ l, MixerBlock.forward l false) blocks x g
  = Some (y, g1) →
  Sequential.forward (λ l, MixerBlock.forward l false) blocks x' g'
  = Some (y', g1') →
  has_shape y [b; s; d] ∧ has_shape y' [b'; s; d]
  ∧ ∀ n n', n < b → n' < b' →
      same_sequence s d x n x' n' → same_sequence s d y n y' n'.
Proof.
  intros HDP Hb. revert x x' g g'. unfold Sequential.forward.
  induction Hb as [|l blocks (td & cd & Hd) _ IH];
    intros x x' g g' Hx Hx' E E'; simpl in E, E'.
  - apply ret_Some in E as [-> _]. apply ret_Some in E' as [-> _]. done.
  - apply bind_Some in E as (x1 & g2 & E1 & E).
    apply bind_Some in E' as (x1' & g2' & E1' & E').
    destruct (MixerBlock_eval_per_sequence l x x' g g' x1 g2 x1' g2' b b' s d
                td cd) as (H1 & H1' & SS1); try done.
    destruct (IH x1 x1' g2 g2') as (H2 & H2' & SS2); try done.
    split; [done|]. split; [done|]. intros n n' Hn Hn' SS.
    by apply SS2, SS1.
Qed.

End BlockSample.

Section ImageFacts.
Context {SC : Scalar} {RS : RandomSource}.

Lemma same_image_patch c h w k x x' n n' i j :
  same_image c h w x n x' n' → i < h / k → j < w / k →
  patch x c k n i j = patch x' c k n' i j.
Proof.
  intros Hx Hi Hj. unfold patch. apply tab3_ext. intros ci ki kj Hci Hki Hkj.
  apply Hx; [done| |].
  - pose proof (Nat.Div0.mul_div_le h k).
    assert (i * k + ki < h / k * k) by (by apply offset_lt). lia.
  - pose proof (Nat.Div0.mul_div_le w k).
    assert (j * k + kj < w / k * k) by (by apply offset_lt). lia.
Qed.

(** The embeddings of an image are a function of the image. *)
Lemma same_sequence_embedded l x x' b b' c h w e k n n' :
  n < b → n' < b' → same_image c h w x n x' n' →
  same_sequence (h / k * (w / k)) e
    (embedded l x b c h w e k) n (embedded l x' b' c h w e k) n'.
Proof.
  intros Hn Hn' Hx q o Hq Ho. unfold get3, embedded. cbn [shape].
  unfold at_. cbn [data]. rewrite !nth_tab3 by done.
  f_equal. f_equal. apply tab_ext. intros m Hm. f_equal.
  rewrite (same_image_patch c h w k x x' n n'); try done.
  - by apply div_lt_mul.
  - eapply mod_lt_mul, Hq.
Qed.

Lemma same_sequence_norm_forward nl x x' y y' b b' s e n n' :
  norm_accepts nl e → shape x = [b; s; e] → shape x' = [b'; s; e] →
  PatchEmbedding.norm_forward nl x = Some y →
  PatchEmbedding.norm_forward nl x' = Some y' → n < b → n' < b' →
  same_sequence s e x n x' n' → same_sequence s e y n y' n'.
Proof.
  intros Hacc Sx Sx' E E' Hn Hn' SS. destruct nl as [l|l]; simpl in *.
  - subst e.
    destruct (LayerNorm_forward_total l x [b; s]) as (? & F & [Sy _]); [done|].
    rewrite E in F. injection F as <-. rewrite Sx in Sy.
    destruct (LayerNorm_forward_total l x' [b'; s]) as (? & F & [Sy' _]);
      [done|].
    rewrite E' in F. injection F as <-. rewrite Sx' in Sy'.
    apply (same_sequence_rows s (LayerNorm.normalized_shape l)
             (LayerNorm.normalized_shape l) x x' y y' b b'); try done.
    by apply (LayerNorm_forward_rows l x x' y y' [b; s] [b'; s]).
  - by injection E as <-; injection E' as <-.
Qed.

(** The average over the sequence of one sample. *)
Lemma mean_axis_1_at x y b s d n k :
  shape x = [b; s; d] → mean_axis_1 x = Some y → n < b → k < d →
  at_ y (n * d + k) = rdiv (rsum (tab s (λ j, get3 x n j k))) (of_nat s).
Proof.
  intros Sx E Hn Hk. unfold mean_axis_1 in E. rewrite Sx in E.
  injection E as <-. unfold at_ at 1. cbn [data numel foldr].
  rewrite Nat.mul_1_r, nth_tab2 by done. f_equal. f_equal.
  apply tab_ext. intros j Hj. by rewrite (get3_at x b s d).
Qed.

End ImageFacts.

Section ModelSample.
Context {SC : Scalar} {RS : RandomSource} {DP : DropPath.Impl}.

(** What a block accepts is a batch of sequences of its size: the first
    normalization, the transposition and the token-mixing [Mlp] see to
    it. *)
Lemma MixerBlock_forward_input l training x g y g' d s td cd :
  MixerBlock_dims l d s td cd →
  MixerBlock.forward l training x g = Some (y, g') →
  ∃ b, shape x = [b; s; d].
Proof.
  intros ((N1 & _ & _) & _ & Dt & _) E. unfold MixerBlock.forward in E.
  apply bind_Some in E as (x1 & ? & E1 & E). apply pure_Some in E1 as [E1 ->].
  apply bind_Some in E as (x2 & ? & E2 & E). apply pure_Some in E2 as [E2 ->].
  apply bind_Some in E as (x3 & g3 & E3 & _).
  apply LayerNorm_forward_inv in E1 as (pre & Sx & [S1 _]).
  apply transpose_inv in E2 as (b & s' & d' & S1' & [S2 _]).
  apply (Mlp_forward_ensures _ _ _ _ _ Dt) in E3 as ([pre' S2'] & _).
  rewrite S2 in S2'. change [b; d'; s'] with ([b; d'] ++ [s']) in S2'.
  apply app_inj_tail in S2' as [_ ->].
  rewrite S1, Sx, N1 in S1'. change [b; s; d'] with ([b; s] ++ [d']) in S1'.
  apply app_inj_tail in S1' as [-> ->].
  exists b. by rewrite Sx, N1.
Qed.

End ModelSample.

(* ================================================================== *)
(** * Facts: the elements of what a block returns in evaluation mode *)

Section YieldFacts.
Context {SC : Scalar} {RS : RandomSource}.

Lemma yields_ret {A} (a : A) : yields (mret a) a.
Proof. by intros g. Qed.

Lemma yields_pure {A} (o : option A) a : o = Some a → yields (pure_ o) a.
Proof. by intros -> g. Qed.

Lemma yields_bind {A B} (m : M A) (f : A → M B) a b :
  yields m a → yields (f a) b → yields (m ≫= f) b.
Proof. intros Hm Hf g. rewrite bind_eq, Hm. apply Hf. Qed.

Lemma Dropout_eval_yields l x :
  Py.bad_probability (Dropout.p l) = false → yields (Dropout.forward l false x) x.
Proof. intros Hp g. unfold Dropout.forward. by rewrite Hp. Qed.

(** In evaluation mode an [Mlp] whose dropout rate is accepted is its
    feed-forward network on every row. *)
Lemma Mlp_eval_yields l x pre n h :
  Mlp_dims l n h → Py.bad_probability (Dropout.p (Mlp.dropout l)) = false →
  shape x = pre ++ [n] →
  ∃ y, yields (Mlp.forward l false x) y ∧ has_shape y (pre ++ [n])
       ∧ ∀ r j, r < numel pre → j < n →
           at_ y (r * n + j)
           = feed_forward l n h (λ i, at_ x (r * n + i)) j.
Proof.
  intros [[[W1 _] [B1 _]] [[W2 _] [B2 _]]] Hp Sx.
  destruct (Linear_forward_total _ x pre n h W1 B1 Sx) as (x1 & E1 & H1).
  pose proof (GELU_forward_shape (Mlp.act l) _ _ H1) as [S2 L2].
  destruct (Linear_forward_total _ _ pre h n W2 B2 S2) as (x4 & E4 & H4).
  exists x4. split; [|split; [done|]].
  - unfold Mlp.forward.
    eapply yields_bind; [by apply yields_pure|].
    eapply yields_bind; [apply yields_ret|].
    eapply yields_bind; [by apply Dropout_eval_yields|].
    eapply yields_bind; [by apply yields_pure|].
    eapply yields_bind; [by apply Dropout_eval_yields|].
    apply yields_ret.
  - intros r j Hr Hj. unfold feed_forward, affine.
    rewrite (Linear_forward_at (Mlp.fc2 l) _ x4 pre h n r j) by done.
    f_equal. f_equal. apply tab_ext. intros i Hi. f_equal.
    unfold GELU.forward. destruct H1 as [S1 L1]. unfold wf in L1.
    rewrite at_tensor_map
      by (rewrite L1, S1, numel_snoc; by apply offset_lt).
    f_equal. by rewrite (Linear_forward_at (Mlp.fc1 l) x x1 pre n h r i).
Qed.

End YieldFacts.

Section BlockFormula.
Context {SC : Scalar} {RS : RandomSource} {DP : DropPath.Impl}.

Lemma get3_bound b s d i j k :
  i < b → j < s → k < d → (i * s + j) * d + k < numel [b; s; d].
Proof.
  intros Hi Hj Hk. simpl. rewrite Nat.mul_1_r, Nat.mul_assoc.
  apply offset_lt; [|done]. by apply offset_lt.
Qed.

(** The two stages of a block in evaluation mode, element by element:
    the first adds to each element the token-mixing network applied along
    the sequence, to the column of the normalized input that the element
    is in; the second adds the channel-mixing network applied along the
    channels, to the normalized token that the element is in. *)
Lemma MixerBlock_eval_formula l x b s d td cd :
  (∀ a c : R, radd a c = radd c a) →
  DropPath_eval_identity → MixerBlock_dims l d s td cd →
  Py.bad_probability (Dropout.p (Mlp.dropout (MixerBlock.mlp_tokens l))) = false →
  Py.bad_probability (Dropout.p (Mlp.dropout (MixerBlock.mlp_channels l))) = false →
  has_shape x [b; s; d] →
  ∃ n1 x1 n2 y,
    LayerNorm.forward (MixerBlock.norm1 l) x = Some n1
    ∧ yields (residual (token_mixing l false) x) x1
    ∧ LayerNorm.forward (MixerBlock.norm2 l) x1 = Some n2
    ∧ yields (residual (channel_mixing l false) x1) y
    ∧ yields (MixerBlock.forward l false x) y
    ∧ has_shape x1 [b; s; d] ∧ has_shape y [b; s; d]
    ∧ ∀ i j k, i < b → j < s → k < d →
        get3 x1 i j k
        = radd (get3 x i j k)
            (feed_forward (MixerBlock.mlp_tokens l) s td
               (λ j', get3 n1 i j' k) j)
        ∧ get3 y i j k
          = radd (get3 x1 i j k)
              (feed_forward (MixerBlock.mlp_channels l) d cd
                 (λ k', get3 n2 i j k') k).
Proof.
  intros Hc HDP ((N1 & _ & _) & (N2 & _ & _) & Dt & Dc) Pt Pc Hx.
  pose proof Hx as [Sx Wx].
  destruct (LayerNorm_forward_total (MixerBlock.norm1 l) x [b; s])
    as (n1 & E1 & [S1 W1]); [by rewrite N1|].
  rewrite Sx in S1.
  destruct (transpose_total n1 b s d S1) as (t1 & E2 & [S2 W2]).
  destruct (Mlp_eval_yields _ t1 [b; d] s td Dt Pt S2)
    as (t2 & E3 & [S3 W3] & F3).
  destruct (transpose_total t2 b d s S3) as (t3 & E4 & H4).
  destruct (tensor_add_total x t3 [b; s; d]) as (x1 & E6 & H6); [done..|].
  pose proof H6 as [S6 W6].
  destruct (LayerNorm_forward_total (MixerBlock.norm2 l) x1 [b; s])
    as (n2 & E7 & [S7 W7]); [by rewrite N2|].
  rewrite S6 in S7.
  destruct (Mlp_eval_yields _ n2 [b; s] d cd Dc Pc S7)
    as (t4 & E8 & H8 & F8).
  destruct (tensor_add_total x1 t4 [b; s; d]) as (y & E10 & H10); [done..|].
  assert (yields (residual (token_mixing l false) x) x1) as Y1.
  { unfold residual, token_mixing.
    eapply yields_bind; [|by apply yields_pure].
    eapply yields_bind; [by apply yields_pure|].
    eapply yields_bind; [by apply yields_pure|].
    eapply yields_bind; [exact E3|].
    eapply yields_bind; [by apply yields_pure|].
    intros g. apply HDP. }
  assert (yields (residual (channel_mixing l false) x1) y) as Y2.
  { unfold residual, channel_mixing.
    eapply yields_bind; [|by apply yields_pure].
    eapply yields_bind; [by apply yields_pure|].
    eapply yields_bind; [exact E8|].
    intros g. apply HDP. }
  exists n1, x1, n2, y.
  split; [done|]. split; [done|]. split; [done|]. split; [done|].
  split.
  { intros g. rewrite (forward_two_stage_eq l false x g Hc). unfold two_stage.
    by apply (yields_bind _ _ x1). }
  split; [done|]. split; [done|]. intros i j k Hi Hj Hk.
  destruct H4 as [S4 W4], H8 as [S8 W8], H10 as [S10 W10]. unfold wf in *.
  split.
  - rewrite (get3_at x1 b s d), (tensor_add_at x t3 x1) ; try done.
    + rewrite <- (get3_at x b s d), <- (get3_at t3 b s d) by done.
      f_equal. rewrite (transpose_get t2 t3 b d s i k j) by done.
      rewrite (get3_at t2 b d s) by done.
      rewrite (F3 (i * d + k) j) by (rewrite ?numel_pair; by apply offset_lt || done).
      unfold feed_forward, affine. f_equal. f_equal. apply tab_ext.
      intros i' Hi'. f_equal. f_equal. f_equal. f_equal. apply tab_ext.
      intros j' Hj'. f_equal.
      rewrite <- (get3_at t1 b d s) by done.
      by apply (transpose_get n1 t1 b s d).
    + rewrite Wx, Sx. by apply get3_bound.
    + rewrite W4, S4. by apply get3_bound.
  - rewrite (get3_at y b s d), (tensor_add_at x1 t4 y) ; try done.
    + rewrite <- (get3_at x1 b s d), <- (get3_at t4 b s d) by done.
      f_equal. rewrite (get3_at t4 b s d) by done.
      rewrite (F8 (i * s + j) k) by (rewrite ?numel_pair; by apply offset_lt || done).
      unfold feed_forward, affine. f_equal. f_equal. apply tab_ext.
      intros i' Hi'. f_equal. f_equal. f_equal. f_equal. apply tab_ext.
      intros k' Hk'. f_equal. by rewrite (get3_at n2 b s d).
    + rewrite W6, S6. by apply get3_bound.
    + rewrite W8, S8. by apply get3_bound.
Qed.

End BlockFormula.

(* ================================================================== *)
(** * Facts: how the parameters of the linear layers are drawn *)

Section DrawnFacts.
Context {SC : Scalar} {RS : RandomSource} {DP : DropPath.Impl}.

Lemma Linear_init_drawn n_in n_out wa ba g l g' :
  Linear.init n_in n_out wa ba g = Some (l, g') →
  drawn_by l n_in n_out (weight_initializer wa) (bias_initializer ba).
Proof.
  intros E. unfold Linear.init in E.
  apply bind_Some in E as (w & g1 & Ew & E).
  apply bind_Some in E as (b & g2 & Eb & E).
  apply ret_Some in E as [-> ->]. by exists g, g1, g2.
Qed.

Lemma Mlp_init_drawn n_in n_hid p g l g' :
  Mlp.init n_in n_hid p g = Some (l, g') →
  drawn_by (Mlp.fc1 l) n_in n_hid XavierUniform (Normal Py.f0_0 Py.f1em6)
  ∧ drawn_by (Mlp.fc2 l) n_hid n_in XavierUniform (Normal Py.f0_0 Py.f1em6).
Proof.
  intros E. unfold Mlp.init, Mlp._init_weights in E. cbn zeta in E.
  apply bind_Some in E as (fc1 & g1 & E1 & E).
  apply bind_Some in E as (fc2 & g2 & E2 & E).
  apply ret_Some in E as [-> ->].
  apply Linear_init_drawn in E1, E2. done.
Qed.

Lemma MixerBlock_init_drawn dim seq_len mlp_ratio dropout droppath g l g' :
  MixerBlock.init dim seq_len mlp_ratio dropout droppath g = Some (l, g') →
  ∃ td cd,
    scaled_dim mlp_ratio.1 dim = Some td ∧ scaled_dim mlp_ratio.2 dim = Some cd
    ∧ (0 < dim)%Z ∧ (0 < seq_len)%Z ∧ (0 < td)%Z ∧ (0 < cd)%Z
    ∧ drawn_by (Mlp.fc1 (MixerBlock.mlp_tokens l)) seq_len td
        XavierUniform (Normal Py.f0_0 Py.f1em6)
    ∧ drawn_by (Mlp.fc2 (MixerBlock.mlp_tokens l)) td seq_len
        XavierUniform (Normal Py.f0_0 Py.f1em6)
    ∧ drawn_by (Mlp.fc1 (MixerBlock.mlp_channels l)) dim cd
        XavierUniform (Normal Py.f0_0 Py.f1em6)
    ∧ drawn_by (Mlp.fc2 (MixerBlock.mlp_channels l)) cd dim
        XavierUniform (Normal Py.f0_0 Py.f1em6).
Proof.
  intros E. unfold MixerBlock.init in E.
  apply bind_Some in E as (td & ? & Etd & E). apply pure_Some in Etd as [Etd ->].
  apply bind_Some in E as (cd & ? & Ecd & E). apply pure_Some in Ecd as [Ecd ->].
  apply bind_Some in E as (n1 & g1 & E1 & E).
  apply bind_Some in E as (mt & g2 & E2 & E).
  apply bind_Some in E as (n2 & g3 & E3 & E).
  apply bind_Some in E as (mc & g4 & E4 & E).
  apply ret_Some in E as [-> ->]. cbn [MixerBlock.mlp_tokens MixerBlock.mlp_channels].
  pose proof (Mlp_init_ensures _ _ _ _ _ _ E2) as (_ & _ & _ & ? & ?).
  pose proof (Mlp_init_ensures _ _ _ _ _ _ E4) as (_ & _ & _ & ? & ?).
  apply Mlp_init_drawn in E2 as [? ?]. apply Mlp_init_drawn in E4 as [? ?].
  exists td, cd. done.
Qed.

(** What the constructor of a model was given, when it returned. *)
Lemma MlpMixer_init_positive num_classes image_size in_channels patch_size
    num_mixer_layers embed_dim mlp_ratio dropout droppath patch_embed_norm
    g m g' :
  MlpMixer.init num_classes image_size in_channels patch_size num_mixer_layers
    embed_dim mlp_ratio dropout droppath patch_embed_norm g = Some (m, g') →
  (0 < num_classes)%Z ∧ (0 < in_channels)%Z ∧ (0 < patch_size)%Z
  ∧ (0 < embed_dim)%Z
  ∧ (MlpMixer.mixer_layers m ≠ [] →
     (0 < PatchEmbedding.num_patches (MlpMixer.patch_embed m))%Z).
Proof.
  intros E. apply MlpMixer_init_inv in E
    as (nl & g1 & g2 & g3 & g4 & E1 & E2 & E3 & E4 & E5 & _).
  pose proof (PatchEmbedding_init_ensures _ _ _ _ _ _ _ _ E2)
    as (_ & _ & _ & _ & _ & _ & _ & _ & Hp & _).
  apply PatchEmbedding_init_positive in E2 as [Hc He].
  apply Linear_init_ensures in E5 as (_ & _ & _ & _ & Hnc).
  split; [done|]. split; [done|]. split; [done|]. split; [done|].
  intros Hne. apply replicateM_built in E3.
  destruct (MlpMixer.mixer_layers m) as [|b bs]; [done|].
  inversion E3 as [|?? (ga & gb & Eb) _]; subst.
  by apply MixerBlock_init_drawn in Eb as (td & cd & _ & _ & _ & ? & _).
Qed.

End DrawnFacts.

(* ================================================================== *)
(** * Facts: the stack of blocks *)

Section StackFacts.
Context {SC : Scalar} {RS : RandomSource} {DP : DropPath.Impl}.

(** The stack returns what applying its blocks in order returns. *)
Lemma Sequential_forward_applied training (blocks : list MixerBlock.t)
    x g y g' :
  Sequential.forward (λ b, MixerBlock.forward b training) blocks x g
  = Some (y, g')
  ↔ applied_in_order training blocks x g y g'.
Proof.
  unfold Sequential.forward. revert x g. induction blocks as [|b blocks IH];
    intros x g; simpl.
  - split.
    + intros E. apply ret_Some in E as [-> ->]. constructor.
    + intros H. by inversion H; subst.
  - split.
    + intros E. apply bind_Some in E as (x1 & g1 & E1 & E).
      econstructor; [done|]. by apply IH.
    + intros H. inversion H as [|???? x1 g1 ?? E1 Hr]; subst.
      apply bind_Some. exists x1, g1. split; [done|]. by apply IH.
Qed.

End StackFacts.

(* ================================================================== *)
(** * Facts: the window positions of an image, clipped or not *)

Section WindowFacts.
Context {SC : Scalar} {RS : RandomSource}.

(** The convolution at window position [q] of image [n], output channel
    [o]: the window is read through [Conv2D.input_at], which is zero
    beyond the image. *)
Lemma window_element l x b c h w e k n q o :
  Conv2D.stride l = (Z.of_nat k, Z.of_nat k) → 0 < k → 0 < h → 0 < w →
  n < b → q < Nat.max 1 (h / k) * Nat.max 1 (w / k) → o < e →
  at_ (conv_output l x b c h w e k k)
    ((n * e + o) * (Nat.max 1 (h / k) * Nat.max 1 (w / k)) + q)
  = radd (rsum (tab3 c k k (λ ci ki kj,
            rmul (Conv2D.input_at x n ci
                    (q / Nat.max 1 (w / k) * k + ki)
                    (q mod Nat.max 1 (w / k) * k + kj))
                 (get4 (Conv2D.weight l) o ci ki kj))))
         (at_ (Conv2D.bias l) o).
Proof.
  intros Hs Hk Hh Hw Hn Hq Ho. unfold at_ at 1, conv_output.
  cbn [data]. rewrite Hs. cbn [fst snd].
  rewrite !Nat2Z.id, !out_size_windows, !Nat2Z.id by done.
  set (ho := Nat.max 1 (h / k)) in *. set (wo := Nat.max 1 (w / k)) in *.
  assert (0 < wo) as Hwo by (unfold wo; lia).
  replace ((n * e + o) * (ho * wo) + q)
    with (((n * e + o) * ho + q / wo) * wo + q mod wo)
    by (pose proof (divmod_decode wo q Hwo); lia).
  rewrite nth_tab4; try done.
  - by apply div_lt_mul.
  - by apply Nat.mod_upper_bound, Nat.neq_0_lt_0.
Qed.

Lemma input_at_same_image c h w x x' b b' n n' ci i j :
  shape x = [b; c; h; w] → shape x' = [b'; c; h; w] →
  same_image c h w x n x' n' → ci < c →
  Conv2D.input_at x n ci i j = Conv2D.input_at x' n' ci i j.
Proof.
  intros Sx Sx' SI Hci. unfold Conv2D.input_at. rewrite Sx, Sx'.
  destruct (decide _) as [[Hi Hj]|]; [|done]. by apply SI.
Qed.

(** The embeddings of an image are a function of the image. *)
Lemma PatchEmbedding_forward_per_image l x x' y y' b b' c h w e k :
  Conv2D_patch (PatchEmbedding.patch_embed l) c e k →
  norm_accepts (PatchEmbedding.norm l) e → 0 < k →
  shape x = [b; c; h; w] → shape x' = [b'; c; h; w] →
  PatchEmbedding.forward l x = Some y → PatchEmbedding.forward l x' = Some y' →
  has_shape y [b; Nat.max 1 (h / k) * Nat.max 1 (w / k); e]
  ∧ has_shape y' [b'; Nat.max 1 (h / k) * Nat.max 1 (w / k); e]
  ∧ ∀ n n', n < b → n' < b' → same_image c h w x n x' n' →
      same_sequence (Nat.max 1 (h / k) * Nat.max 1 (w / k)) e y n y' n'.
Proof.
  intros Hconv Hnorm Hk Sx Sx' E E'.
  destruct (PatchEmbedding_forward_inv _ x y _ e k E Hconv Hnorm Hk)
    as (b0 & h0 & w0 & Sx0 & Hh & Hw & Hy).
  rewrite Sx in Sx0. injection Sx0 as <- <- <-.
  destruct (PatchEmbedding_forward_inv _ x' y' _ e k E' Hconv Hnorm Hk)
    as (b0' & h0' & w0' & Sx0' & _ & _ & Hy').
  rewrite Sx' in Sx0'. injection Sx0' as <- <- <-.
  split; [done|]. split; [done|].
  set (N := Nat.max 1 (h / k) * Nat.max 1 (w / k)) in *.
  pose proof Hconv as ([Sw _] & [Sb _] & Hs & _).
  assert (∀ (t : Tensor) a, shape t = [a; c; h; w] →
    ∃ t2 t3, Conv2D.forward (PatchEmbedding.patch_embed l) t
             = Some (conv_output (PatchEmbedding.patch_embed l) t a c h w e k k)
             ∧ flatten_2 (conv_output (PatchEmbedding.patch_embed l) t
                            a c h w e k k) = Some t2
             ∧ shape t2 = [a; e; N]
             ∧ data t2 = data (conv_output (PatchEmbedding.patch_embed l) t
                                 a c h w e k k)
             ∧ transpose_0_2_1 t2 = Some t3 ∧ shape t3 = [a; N; e]) as Hrun.
  { intros t a St.
    pose proof (has_shape_conv_output (PatchEmbedding.patch_embed l) t
                  a c h w e k k) as Hc.
    rewrite Hs in Hc. cbn [fst snd] in Hc.
    rewrite !Nat2Z.id, !out_size_windows, !Nat2Z.id in Hc by done.
    destruct (flatten_2_total _ _ _ _ _ Hc) as (t2 & E2 & [S2 W2] & D2).
    cbn [numel foldr] in S2. rewrite Nat.mul_1_r in S2.
    destruct (transpose_total t2 _ _ _ S2) as (t3 & E3 & [S3 _]).
    exists t2, t3. split; [|done].
    apply Conv2D_forward_total; try done;
      rewrite ?Hs; cbn [fst snd]; rewrite ?Nat2Z.id; try done;
      by apply out_size_pos. }
  destruct (Hrun x b Sx) as (t2 & t3 & Ec & Ef & S2 & D2 & Et & S3).
  destruct (Hrun x' b' Sx') as (t2' & t3' & Ec' & Ef' & S2' & D2' & Et' & S3').
  unfold PatchEmbedding.forward in E, E'.
  rewrite Ec, option_bind_Some, Ef, option_bind_Some, Et, option_bind_Some in E.
  rewrite Ec', option_bind_Some, Ef', option_bind_Some, Et',
    option_bind_Some in E'.
  assert (PatchEmbedding.norm_forward (PatchEmbedding.norm l) t3 = Some y)
    as En by (destruct (PatchEmbedding.norm_forward _ t3); simpl in E; done).
  assert (PatchEmbedding.norm_forward (PatchEmbedding.norm l) t3' = Some y')
    as En' by (destruct (PatchEmbedding.norm_forward _ t3'); simpl in E'; done).
  intros n n' Hn Hn' SI.
  apply (same_sequence_norm_forward (PatchEmbedding.norm l) t3 t3' y y'
           b b' N e n n' Hnorm S3 S3' En En' Hn Hn').
  intros q o Hq Ho.
  rewrite (transpose_get t2 t3 b e N n o q),
    (transpose_get t2' t3' b' e N n' o q) by done.
  rewrite (get3_at t2 b e N), (get3_at t2' b' e N) by done.
  unfold at_ at 1 2. rewrite D2, D2'.
  pose proof (window_element (PatchEmbedding.patch_embed l) x b c h w e k
                n q o Hs Hk Hh Hw Hn Hq Ho) as A.
  pose proof (window_element (PatchEmbedding.patch_embed l) x' b' c h w e k
                n' q o Hs Hk Hh Hw Hn' Hq Ho) as A'.
  unfold at_ at 1 in A. unfold at_ at 1 in A'. fold N in A, A'.
  rewrite A, A'. f_equal. f_equal. apply tab3_ext.
  intros ci ki kj Hci Hki Hkj. f_equal.
  by apply (input_at_same_image c h w x x' b b').
Qed.

End WindowFacts.

Section NoBlocks.
Context {SC : Scalar} {RS : RandomSource} {DP : DropPath.Impl}.

(** A constructed model without blocks returns, from every generator
    state and without drawing, class scores for every batch of images of
    its number of channels, none empty. *)
Lemma MlpMixer_no_blocks_forward num_classes image_size in_channels patch_size
    num_mixer_layers embed_dim mlp_ratio dropout droppath patch_embed_norm
    g0 m g1 training b h w x g :
  MlpMixer.init num_classes image_size in_channels patch_size num_mixer_layers
    embed_dim mlp_ratio dropout droppath patch_embed_norm g0 = Some (m, g1) →
  MlpMixer.mixer_layers m = [] →
  shape x = [b; Z.to_nat in_channels; h; w] → 0 < h → 0 < w →
  ∃ y, MlpMixer.forward m training x g = Some (y, g)
       ∧ has_shape y [b; Z.to_nat num_classes].
Proof.
  intros E Hl Sx Hh Hw.
  pose proof (MlpMixer_init_dims _ _ _ _ _ _ _ _ _ _ _ _ _ E)
    as (Hconv & Hps & Hnorm & _ & _ & (Hns & _) & [[Sw _] [Sb _]]).
  unfold MlpMixer.forward, MlpMixer.forward_features. rewrite Hl.
  destruct (PatchEmbedding_forward_windows (MlpMixer.patch_embed m) x b
              (Z.to_nat in_channels) h w (Z.to_nat embed_dim)
              (Z.to_nat patch_size)) as (x1 & E1 & [S1 W1]); try done; [lia|].
  destruct (LayerNorm_forward_total (MlpMixer.norm m) x1
              [b; Nat.max 1 (h / Z.to_nat patch_size)
                  * Nat.max 1 (w / Z.to_nat patch_size)])
    as (x3 & E3 & [S3 W3]); [by rewrite Hns, S1|].
  rewrite S1 in S3.
  destruct (mean_axis_1_total x3 _ _ _ S3) as (x4 & E4 & [S4 W4]).
  destruct (Linear_forward_total (MlpMixer.head m) x4 [b] _ _ Sw Sb S4)
    as (y & Ey & Hy).
  exists y. split; [|done].
  rewrite !bind_eq. unfold pure_ at 1. rewrite E1.
  unfold Sequential.forward. cbn [foldM]. rewrite !bind_eq.
  unfold mret at 1, M_ret at 1. rewrite !bind_eq. unfold pure_ at 1. rewrite E3.
  rewrite !bind_eq. unfold pure_ at 1. rewrite E4.
  unfold mret at 1, M_ret at 1. rewrite !bind_eq. unfold pure_ at 1. rewrite Ey.
  done.
Qed.

End NoBlocks.

(* ================================================================== *)
(** * The properties of the module *)

Section Properties.
Context {SC : Scalar} {RS : RandomSource} {DP : DropPath.Impl}.

(** The blocks of a constructed model were each built by one call of
    the block constructor with the same arguments. *)
Lemma MlpMixer_blocks_built num_classes image_size in_channels patch_size
    num_mixer_layers embed_dim mlp_ratio dropout droppath patch_embed_norm
    g0 m g1 :
  MlpMixer.init num_classes image_size in_channels patch_size num_mixer_layers
    embed_dim mlp_ratio dropout droppath patch_embed_norm g0 = Some (m, g1) →
  length (MlpMixer.mixer_layers m) = Z.to_nat num_mixer_layers
  ∧ Forall (λ b, ∃ g g',
              MixerBlock.init embed_dim
                (PatchEmbedding.num_patches (MlpMixer.patch_embed m))
                mlp_ratio dropout droppath g = Some (b, g'))
      (MlpMixer.mixer_layers m).
Proof.
  intros E. apply MlpMixer_init_inv in E
    as (nl & g1' & g2 & g3 & g4 & _ & _ & E3 & _).
  split.
  - by apply (ensures_replicateM _ (λ _, True)) in E3 as [? _].
  - by eapply replicateM_built.
Qed.

Lemma built_block_runs dim seq_len mlp_ratio dropout droppath g l g' :
  MixerBlock.init dim seq_len mlp_ratio dropout droppath g = Some (l, g') →
  Py.bad_probability dropout = false →
  DropPath_preserves_shape (DropPath.mk droppath) →
  MixerBlock_runs l (Z.to_nat dim) (Z.to_nat seq_len).
Proof.
  intros E Hp HDP. apply MixerBlock_init_ensures in E
    as (td & cd & _ & _ & Hd & (Ht & Hc & Hdp) & _).
  unfold MixerBlock_runs. rewrite Ht, Hc, Hdp.
  split; [by exists (Z.to_nat td), (Z.to_nat cd)|]. done.
Qed.

Lemma Z_to_nat_divide (p n : Z) :
  (0 < p)%Z → (0 ≤ n)%Z → (p | n)%Z → (Z.to_nat p | Z.to_nat n).
Proof.
  intros Hp Hn [q ->]. exists (Z.to_nat q).
  assert (0 ≤ q)%Z by nia. by rewrite Z2Nat.inj_mul by lia.
Qed.

Lemma Z_to_nat_patches (p n : Z) :
  (0 < p)%Z → (0 ≤ n)%Z →
  Z.to_nat (n / p * (n / p)) = Z.to_nat n / Z.to_nat p * (Z.to_nat n / Z.to_nat p).
Proof.
  intros Hp Hn. assert (0 ≤ n / p)%Z by (apply Z.div_pos; lia).
  rewrite Z2Nat.inj_mul by done. by rewrite Z2Nat.inj_div by lia.
Qed.

(** C1. For every input tensor, [MixerBlock.forward] is the two-stage
    computation: first [x1 = x + DropPath(transpose(mlp_tokens(transpose(
    norm1(x)))))], then [x1 + DropPath(mlp_channels(norm2(x1)))], in this
    order and with these two residual additions.  The transposition swaps
    the sequence axis and the channel axis, and a residual addition adds
    element by element.  For a constructed block in evaluation mode, with
    a dropout rate that is not rejected and a stochastic-depth layer that
    returns its input in evaluation mode, the elements are written out:
    [x1[i, j, k]] is [x[i, j, k]] plus output [j] of the token-mixing
    network applied, along the sequence axis, to column [k] of [norm1(x)]
    in sample [i]; the result at [[i, j, k]] is [x1[i, j, k]] plus output
    [k] of the channel-mixing network applied, along the channel axis, to
    token [j] of [norm2(x1)] in sample [i].  Addition of scalars is taken
    to be commutative (the code adds the branch to the input, the statement
    the input to the branch). *)
Theorem MixerBlock_forward_two_stages :
  (∀ a b : R, radd a b = radd b a) →
  ∀ (l : MixerBlock.t) (training : bool) (x : Tensor),
    (∀ g, MixerBlock.forward l training x g
          = (x1 ← residual (token_mixing l training) x;
             residual (channel_mixing l training) x1) g)
    ∧ (∀ b s d, shape x = [b; s; d] →
         ∃ t, transpose_0_2_1 x = Some t ∧ has_shape t [b; d; s]
              ∧ ∀ i j k, i < b → j < s → k < d →
                  get3 t i k j = get3 x i j k)
    ∧ (∀ t z, tensor_add x t = Some z →
         shape z = shape x
         ∧ ∀ o, o < length (data x) → o < length (data t) →
             at_ z o = radd (at_ x o) (at_ t o))
    ∧ (∀ dim seq_len mlp_ratio dropout droppath g0 g1 b,
         MixerBlock.init dim seq_len mlp_ratio dropout droppath g0
         = Some (l, g1) →
         DropPath_eval_identity → Py.bad_probability dropout = false →
         has_shape x [b; Z.to_nat seq_len; Z.to_nat dim] →
         ∃ tokens_dim channels_dim n1 x1 n2 y,
           scaled_dim mlp_ratio.1 dim = Some tokens_dim
           ∧ scaled_dim mlp_ratio.2 dim = Some channels_dim
           ∧ LayerNorm.forward (MixerBlock.norm1 l) x = Some n1
           ∧ (∀ g, residual (token_mixing l false) x g = Some (x1, g))
           ∧ LayerNorm.forward (MixerBlock.norm2 l) x1 = Some n2
           ∧ (∀ g, MixerBlock.forward l false x g = Some (y, g))
           ∧ has_shape y [b; Z.to_nat seq_len; Z.to_nat dim]
           ∧ ∀ i j k, i < b → j < Z.to_nat seq_len → k < Z.to_nat dim →
               get3 x1 i j k
               = radd (get3 x i j k)
                   (feed_forward (MixerBlock.mlp_tokens l)
                      (Z.to_nat seq_len) (Z.to_nat tokens_dim)
                      (λ j', get3 n1 i j' k) j)
               ∧ get3 y i j k
                 = radd (get3 x1 i j k)
                     (feed_forward (MixerBlock.mlp_channels l)
                        (Z.to_nat dim) (Z.to_nat channels_dim)
                        (λ k', get3 n2 i j k') k)).
Proof.
  intros Hc l training x. split; [|split; [|split]].
  - intros g. by apply forward_two_stage_eq.
  - intros b s d Sx. destruct (transpose_total x b s d Sx) as (t & E & Ht).
    exists t. split; [done|]. split; [done|]. intros i j k Hi Hj Hk.
    by apply (transpose_get x t b s d).
  - intros t z E. split.
    + unfold tensor_add in E. destruct (decide _); [|done]. by injection E as <-.
    + intros o Hx Ht. by apply (tensor_add_at x t z).
  - intros dim seq_len mlp_ratio dropout droppath g0 g1 b E HDP Hp Hx.
    apply MixerBlock_init_ensures in E
      as (td & cd & Ht & Hcd & Hd & (Pt & Pc & _) & _).
    destruct (MixerBlock_eval_formula l x b (Z.to_nat seq_len) (Z.to_nat dim)
                (Z.to_nat td) (Z.to_nat cd) Hc HDP Hd)
      as (n1 & x1 & n2 & y & E1 & Y1 & E2 & _ & Ey & _ & Hy & F);
      [by rewrite Pt | by rewrite Pc | done |].
    by exists td, cd, n1, x1, n2, y.
Qed.

(** C2. For every input batch [x] accepted by a constructed model,
    [MlpMixer.forward(x)] is [head(mean(norm(mixer_layers(patch_embed(x))),
    axis=1))]: after the patch embedding and all mixer blocks comes the
    final normalization, then the average over the sequence axis, then the
    linear head; the result has shape [[batch; num_classes]].  Element by
    element: with [z], of shape [[batch; s; embed_dim]], the normalized
    output of the blocks, the score of class [c] for sample [n] is output
    [c] of the head's affine map on the vector whose entry [k] is the sum
    of [z[n, j, k]] over the [s] sequence positions [j], divided by [s].
    The stochastic-depth layer is taken to keep the shape of what it is
    given. *)
Theorem MlpMixer_forward_pipeline :
  ∀ num_classes image_size in_channels patch_size num_mixer_layers embed_dim
    mlp_ratio dropout droppath patch_embed_norm g0 m g1,
  MlpMixer.init num_classes image_size in_channels patch_size num_mixer_layers
    embed_dim mlp_ratio dropout droppath patch_embed_norm g0 = Some (m, g1) →
  DropPath_keeps_shape (DropPath.mk droppath) →
  ∀ (training : bool) (x : Tensor),
    (∀ g, MlpMixer.forward m training x g
          = (t ← pure_ (PatchEmbedding.forward (MlpMixer.patch_embed m) x);
             t ← Sequential.forward (λ b, MixerBlock.forward b training)
                   (MlpMixer.mixer_layers m) t;
             t ← pure_ (LayerNorm.forward (MlpMixer.norm m) t);
             t ← pure_ (mean_axis_1 t);
             pure_ (Linear.forward (MlpMixer.head m) t)) g)
    ∧ (∀ g y g', MlpMixer.forward m training x g = Some (y, g') →
         ∃ b h w s x0 t z,
           shape x = [b; Z.to_nat in_channels; h; w]
           ∧ PatchEmbedding.forward (MlpMixer.patch_embed m) x = Some x0
           ∧ Sequential.forward (λ b, MixerBlock.forward b training)
               (MlpMixer.mixer_layers m) x0 g = Some (t, g')
           ∧ LayerNorm.forward (MlpMixer.norm m) t = Some z
           ∧ has_shape z [b; s; Z.to_nat embed_dim]
           ∧ has_shape y [b; Z.to_nat num_classes]
           ∧ ∀ n c, n < b → c < Z.to_nat num_classes →
               at_ y (n * Z.to_nat num_classes + c)
               = affine (MlpMixer.head m) (Z.to_nat embed_dim)
                   (Z.to_nat num_classes)
                   (λ k, rdiv (rsum (tab s (λ j, get3 z n j k))) (of_nat s))
                   c)
    ∧ Linear_dims (MlpMixer.head m) (Z.to_nat embed_dim)
        (Z.to_nat num_classes).
Proof.
  intros num_classes image_size in_channels patch_size num_mixer_layers
    embed_dim mlp_ratio dropout droppath patch_embed_norm g0 m g1 Hinit HDP
    training x.
  assert (∀ g, MlpMixer.forward m training x g
          = (t ← pure_ (PatchEmbedding.forward (MlpMixer.patch_embed m) x);
             t ← Sequential.forward (λ b, MixerBlock.forward b training)
                   (MlpMixer.mixer_layers m) t;
             t ← pure_ (LayerNorm.forward (MlpMixer.norm m) t);
             t ← pure_ (mean_axis_1 t);
             pure_ (Linear.forward (MlpMixer.head m) t)) g) as Heq.
  { intros g. unfold MlpMixer.forward, MlpMixer.forward_features.
    rewrite ?bind_assoc.
    apply bind_ext. intros x1 g1'. cbv beta. rewrite ?bind_assoc.
    apply bind_ext. intros x2 g2. cbv beta. rewrite ?bind_assoc.
    apply bind_ext. intros x3 g3. cbv beta. rewrite ?bind_assoc.
    apply bind_ext. intros x4 g4. cbv beta. rewrite bind_ret_l.
    apply bind_ret_r. }
  split; [done|].
  apply MlpMixer_init_dims in Hinit as (Hconv & Hp & Hn & _ & Hb & Hnorm & Hhead).
  split; [|done]. intros g y g' E. rewrite Heq in E. clear Heq.
  apply bind_Some in E as (x1 & ? & E1 & E). apply pure_Some in E1 as [E1 ->].
  apply bind_Some in E as (x2 & g2 & E2 & E).
  apply bind_Some in E as (x3 & ? & E3 & E). apply pure_Some in E3 as [E3 ->].
  apply bind_Some in E as (x4 & ? & E4 & E). apply pure_Some in E4 as [E4 ->].
  apply pure_Some in E as [E ->].
  pose proof E1 as E1'. pose proof E2 as E2'. pose proof E3 as E3'.
  pose proof E4 as E4'. pose proof E as E'.
  eapply PatchEmbedding_forward_inv in E1 as (b & h & w & Sx & _ & _ & [S1 W1]);
    [|done|done|lia].
  eapply Sequential_forward_ensures in E2 as [S2 _]; [| |done].
  2:{ eapply Forall_impl; [exact Hb|]. intros l [Hd (_ & _ & ->)]. by split. }
  apply LayerNorm_forward_inv in E3 as (_ & _ & [S3 W3]).
  apply mean_axis_1_inv in E4 as (a & s & rest & S3' & [S4 _]).
  rewrite S3, S2, S1 in S3'. injection S3' as <- <- <-.
  apply Linear_forward_inv in E as (pre & n_in & n_out & S4' & Sw & _ & Hy).
  destruct Hhead as [[Sw' _] _]. rewrite Sw in Sw'. injection Sw' as -> ->.
  rewrite S4 in S4'. change [b; Z.to_nat embed_dim] with ([b] ++ [Z.to_nat embed_dim]) in S4'.
  apply app_inj_tail in S4' as [<- _].
  rewrite S2, S1 in S3.
  exists b, h, w, (Nat.max 1 (h / Z.to_nat patch_size)
                   * Nat.max 1 (w / Z.to_nat patch_size)), x1, x2, x3.
  split; [done|]. split; [done|]. split; [done|]. split; [done|].
  split; [by split|]. split; [done|]. intros n c Hn' Hc'.
  rewrite (Linear_forward_at (MlpMixer.head m) x4 y [b] (Z.to_nat embed_dim)
             (Z.to_nat num_classes) n c); try done; [|simpl; lia].
  unfold affine. f_equal. f_equal. apply tab_ext. intros k Hk. f_equal.
  by apply (mean_axis_1_at x3 x4 b).
Qed.

(** C3. For every batch of shape [[batch; in_channels; image_size;
    image_size]] with [image_size] divisible by [patch_size] (and positive:
    an image has pixels), [PatchEmbedding.forward] equals the reference
    computation that splits each image into non-overlapping [patch_size] by
    [patch_size] patches, applies one shared affine projection to every
    flattened patch and arranges the results as a sequence of shape
    [[batch; num_patches; embed_dim]]: the convolution, whose stride is
    its kernel size, is a per-patch linear projection. *)
Theorem PatchEmbedding_is_patch_projection :
  ∀ image_size patch_size in_channels embed_dim norm_layer g0 l g1 b x,
  PatchEmbedding.init image_size patch_size in_channels embed_dim norm_layer g0
  = Some (l, g1) →
  (0 < image_size)%Z → (patch_size | image_size)%Z →
  shape x = [b; Z.to_nat in_channels; Z.to_nat image_size; Z.to_nat image_size] →
  PatchEmbedding.forward l x = per_patch_projection l x
  ∧ Conv2D.stride (PatchEmbedding.patch_embed l)
    = Conv2D.kernel_size (PatchEmbedding.patch_embed l)
  ∧ (norm_accepts (PatchEmbedding.norm l) (Z.to_nat embed_dim) →
     ∃ y, PatchEmbedding.forward l x = Some y
          ∧ has_shape y [b; Z.to_nat (PatchEmbedding.num_patches l);
                         Z.to_nat embed_dim]).
Proof.
  intros image_size patch_size in_channels embed_dim norm_layer g0 l g1 b x
    E Hpos Hdiv Sx.
  apply PatchEmbedding_init_ensures in E
    as (_ & _ & Hps & _ & Hnp & _ & _ & Hconv & Hp & _).
  assert ((Z.to_nat patch_size | Z.to_nat image_size)) as Hd
    by (apply Z_to_nat_divide; [lia | lia | done]).
  assert (Z.to_nat patch_size ≤ Z.to_nat image_size) as Hle
    by (apply Nat.divide_pos_le; [lia | done]).
  split; [|split].
  - eapply PatchEmbedding_forward_projection; try done; try lia.
    by rewrite Hps.
  - destruct Hconv as (_ & _ & -> & ->). done.
  - intros Hn. rewrite Hnp, Z_to_nat_patches by lia.
    eapply PatchEmbedding_forward_total; try done. lia.
Qed.

(** C4, as amended.  The parameters of every linear layer of every
    token-mixing and every channel-mixing Mlp of a constructed model are
    drawn with the Xavier-uniform initializer for the weight and the
    Normal initializer of mean 0 and standard deviation 1e-6 for the bias,
    and the layer records these attributes; the classification head is
    constructed without parameter attributes, so that it is drawn with the
    library's defaults: Xavier-uniform weights and a constant zero
    bias. *)
Theorem MlpMixer_initializers :
  ∀ num_classes image_size in_channels patch_size num_mixer_layers embed_dim
    mlp_ratio dropout droppath patch_embed_norm g0 m g1,
  MlpMixer.init num_classes image_size in_channels patch_size num_mixer_layers
    embed_dim mlp_ratio dropout droppath patch_embed_norm g0 = Some (m, g1) →
  Forall (λ b,
            (∃ tokens_dim channels_dim,
               scaled_dim mlp_ratio.1 embed_dim = Some tokens_dim
               ∧ scaled_dim mlp_ratio.2 embed_dim = Some channels_dim
               ∧ drawn_by (Mlp.fc1 (MixerBlock.mlp_tokens b))
                   (PatchEmbedding.num_patches (MlpMixer.patch_embed m))
                   tokens_dim XavierUniform (Normal Py.f0_0 Py.f1em6)
               ∧ drawn_by (Mlp.fc2 (MixerBlock.mlp_tokens b)) tokens_dim
                   (PatchEmbedding.num_patches (MlpMixer.patch_embed m))
                   XavierUniform (Normal Py.f0_0 Py.f1em6)
               ∧ drawn_by (Mlp.fc1 (MixerBlock.mlp_channels b)) embed_dim
                   channels_dim XavierUniform (Normal Py.f0_0 Py.f1em6)
               ∧ drawn_by (Mlp.fc2 (MixerBlock.mlp_channels b)) channels_dim
                   embed_dim XavierUniform (Normal Py.f0_0 Py.f1em6))
            ∧ Forall (λ fc, initialized_with fc XavierUniform
                              (Normal Py.f0_0 Py.f1em6))
                [ Mlp.fc1 (MixerBlock.mlp_tokens b);
                  Mlp.fc2 (MixerBlock.mlp_tokens b);
                  Mlp.fc1 (MixerBlock.mlp_channels b);
                  Mlp.fc2 (MixerBlock.mlp_channels b) ])
    (MlpMixer.mixer_layers m)
  ∧ Linear.weight_attr (MlpMixer.head m) = None
  ∧ Linear.bias_attr (MlpMixer.head m) = None
  ∧ initialized_with (MlpMixer.head m) XavierUniform (Constant Py.f0_0)
  ∧ drawn_by (MlpMixer.head m) embed_dim num_classes XavierUniform
      (Constant Py.f0_0).
Proof.
  intros num_classes image_size in_channels patch_size num_mixer_layers
    embed_dim mlp_ratio dropout droppath patch_embed_norm g0 m g1 E.
  apply MlpMixer_init_inv in E
    as (nl & g1' & g2 & g3 & g4 & _ & _ & E3 & _ & E5 & _).
  pose proof (replicateM_built _ _ _ _ _ E3) as HB.
  pose proof (Linear_init_drawn _ _ _ _ _ _ _ E5) as Hhead.
  apply Linear_init_ensures in E5 as (_ & Hw & Hb & _).
  split; [|unfold initialized_with; by rewrite Hw, Hb].
  eapply Forall_impl; [exact HB|].
  intros b (ga & gb & Eb). split.
  - apply MixerBlock_init_drawn in Eb
      as (td & cd & Ht & Hc & _ & _ & _ & _ & D1 & D2 & D3 & D4).
    by exists td, cd.
  - by apply MixerBlock_init_ensures in Eb
      as (td & cd & _ & _ & _ & _ & _ & Hinit).
Qed.

(** C5. For every [num_mixer_layers = N >= 0] the constructor builds
    exactly [N] mixer blocks, each by the same call: the same [embed_dim],
    the same sequence length (the patch embedding's [num_patches]), the same
    [mlp_ratio], dropout rate and droppath rate; and the forward pass of
    the model applies them to the patch embeddings one after the other, in
    the order of the list, each block consuming the output of the block
    before it, and gives the output of the last block to the final
    normalization, the average and the head. *)
Theorem MlpMixer_identical_blocks :
  ∀ num_classes image_size in_channels patch_size num_mixer_layers embed_dim
    mlp_ratio dropout droppath patch_embed_norm g0 m g1,
  (0 ≤ num_mixer_layers)%Z →
  MlpMixer.init num_classes image_size in_channels patch_size num_mixer_layers
    embed_dim mlp_ratio dropout droppath patch_embed_norm g0 = Some (m, g1) →
  Z.of_nat (length (MlpMixer.mixer_layers m)) = num_mixer_layers
  ∧ Forall (λ b, ∃ g g',
              MixerBlock.init embed_dim
                (PatchEmbedding.num_patches (MlpMixer.patch_embed m))
                mlp_ratio dropout droppath g = Some (b, g'))
      (MlpMixer.mixer_layers m)
  ∧ (∀ training x g y g',
       MlpMixer.forward m training x g = Some (y, g')
       ↔ ∃ x0 xN,
           PatchEmbedding.forward (MlpMixer.patch_embed m) x = Some x0
           ∧ applied_in_order training (MlpMixer.mixer_layers m) x0 g xN g'
           ∧ (z ← LayerNorm.forward (MlpMixer.norm m) xN;
              f ← mean_axis_1 z;
              Linear.forward (MlpMixer.head m) f) = Some y)
  ∧ (∀ training first rest x g,
       MlpMixer.mixer_layers m = first ++ rest →
       Sequential.forward (λ b, MixerBlock.forward b training)
         (MlpMixer.mixer_layers m) x g
       = (y ← Sequential.forward (λ b, MixerBlock.forward b training) first x;
          Sequential.forward (λ b, MixerBlock.forward b training) rest y) g).
Proof.
  intros num_classes image_size in_channels patch_size num_mixer_layers
    embed_dim mlp_ratio dropout droppath patch_embed_norm g0 m g1 HN E.
  apply MlpMixer_blocks_built in E as [Hlen Hb].
  split; [lia|]. split; [done|]. split.
  - intros training x g y g'.
    unfold MlpMixer.forward, MlpMixer.forward_features. split.
    + intros E.
      apply bind_Some in E as (f & g2 & E & Ey).
      apply bind_Some in Ey as (y' & ? & Ey & Er).
      apply pure_Some in Ey as [Ey ->]. apply ret_Some in Er as [-> ->].
      apply bind_Some in E as (x0 & ? & E0 & E).
      apply pure_Some in E0 as [E0 ->].
      apply bind_Some in E as (xN & g3 & EN & E).
      apply bind_Some in E as (z & ? & Ez & E). apply pure_Some in Ez as [Ez ->].
      apply bind_Some in E as (f' & ? & Ef & E). apply pure_Some in Ef as [Ef ->].
      apply ret_Some in E as [-> ->].
      exists x0, xN. split; [done|].
      split; [by apply Sequential_forward_applied|].
      by rewrite Ez, option_bind_Some, Ef, option_bind_Some.
    + intros (x0 & xN & E0 & EN & Ey).
      apply Sequential_forward_applied in EN.
      destruct (LayerNorm.forward (MlpMixer.norm m) xN) as [z|] eqn:Ez;
        [|done]. rewrite option_bind_Some in Ey.
      destruct (mean_axis_1 z) as [f|] eqn:Ef; [|done].
      rewrite option_bind_Some in Ey.
      rewrite !bind_eq. unfold pure_ at 1. rewrite E0.
      rewrite !bind_eq, EN. rewrite !bind_eq. unfold pure_ at 1. rewrite Ez.
      rewrite !bind_eq. unfold pure_ at 1. rewrite Ef.
      unfold mret at 1, M_ret. unfold pure_. rewrite Ey. done.
  - intros training first rest x g ->. apply foldM_app.
Qed.

(** C6. Every [Mlp] applies, in this order, the first linear layer, GELU,
    dropout, the second linear layer, dropout (GELU after the first linear
    layer only); it maps its input size to the hidden size and back, so
    that, with a dropout rate that is not rejected, it returns a tensor of
    the shape of its input.  In a mixer block the token-mixing Mlp has
    input size [seq_len] and hidden size [int(mlp_ratio[0] * dim)], the
    channel-mixing Mlp input size [dim] and hidden size
    [int(mlp_ratio[1] * dim)]. *)
Theorem Mlp_two_layer_feed_forward :
  (∀ (l : Mlp.t) training x g,
     Mlp.forward l training x g
     = foldM (λ stage : Tensor → M Tensor, stage)
         [ (λ a, pure_ (Linear.forward (Mlp.fc1 l) a));
           (λ a, mret (GELU.forward (Mlp.act l) a));
           Dropout.forward (Mlp.dropout l) training;
           (λ a, pure_ (Linear.forward (Mlp.fc2 l) a));
           Dropout.forward (Mlp.dropout l) training ] x g)
  ∧ (∀ in_features hidden_features dropout g0 l g1,
       Mlp.init in_features hidden_features dropout g0 = Some (l, g1) →
       Linear_dims (Mlp.fc1 l) (Z.to_nat in_features) (Z.to_nat hidden_features)
       ∧ Linear_dims (Mlp.fc2 l) (Z.to_nat hidden_features)
           (Z.to_nat in_features)
       ∧ Mlp.dropout l = Dropout.mk dropout
       ∧ (Py.bad_probability dropout = false →
          ∀ training pre x, has_shape x (pre ++ [Z.to_nat in_features]) →
            returns (Mlp.forward l training x)
              (λ y, has_shape y (pre ++ [Z.to_nat in_features]))))
  ∧ (∀ dim seq_len mlp_ratio dropout droppath g0 l g1,
       MixerBlock.init dim seq_len mlp_ratio dropout droppath g0 = Some (l, g1) →
       ∃ tokens_dim channels_dim,
         scaled_dim mlp_ratio.1 dim = Some tokens_dim
         ∧ scaled_dim mlp_ratio.2 dim = Some channels_dim
         ∧ Mlp_dims (MixerBlock.mlp_tokens l) (Z.to_nat seq_len)
             (Z.to_nat tokens_dim)
         ∧ Mlp_dims (MixerBlock.mlp_channels l) (Z.to_nat dim)
             (Z.to_nat channels_dim)).
Proof.
  split; [|split].
  - intros l training x g. unfold Mlp.forward. simpl.
    apply bind_ext. intros x1 g1. apply bind_ext. intros x2 g2.
    apply bind_ext. intros x3 g3. apply bind_ext. intros x4 g4.
    apply bind_ext. intros x5 g5. done.
  - intros n h p g0 l g1 E.
    apply Mlp_init_ensures in E as ([D1 D2] & Hp & _).
    split; [done|]. split; [done|]. split; [done|].
    intros Hbad training pre x Hx.
    apply (Mlp_forward_returns l training x pre (Z.to_nat n) (Z.to_nat h));
      [done| by rewrite Hp |done].
  - intros dim seq_len mlp_ratio dropout droppath g0 l g1 E.
    apply MixerBlock_init_ensures in E
      as (td & cd & Ht & Hc & (_ & _ & Dt & Dc) & _).
    by exists td, cd.
Qed.

(** C7. Every layer normalization of a constructed model has epsilon
    exactly [1e-6]: [norm1] and [norm2] of every mixer block, the final
    normalization, and the normalization of the patch embedding when it is
    enabled. *)
Theorem MlpMixer_layer_norm_epsilon :
  ∀ num_classes image_size in_channels patch_size num_mixer_layers embed_dim
    mlp_ratio dropout droppath patch_embed_norm g0 m g1,
  MlpMixer.init num_classes image_size in_channels patch_size num_mixer_layers
    embed_dim mlp_ratio dropout droppath patch_embed_norm g0 = Some (m, g1) →
  Forall (λ b, LayerNorm.epsilon (MixerBlock.norm1 b) = Py.f1em6
               ∧ LayerNorm.epsilon (MixerBlock.norm2 b) = Py.f1em6)
    (MlpMixer.mixer_layers m)
  ∧ LayerNorm.epsilon (MlpMixer.norm m) = Py.f1em6
  ∧ (if patch_embed_norm
     then ∃ n, PatchEmbedding.norm (MlpMixer.patch_embed m)
               = PatchEmbedding.Norm n
               ∧ LayerNorm.epsilon n = Py.f1em6
     else PatchEmbedding.norm (MlpMixer.patch_embed m)
          = PatchEmbedding.NoNorm Identity.init)
  ∧ Forall (λ n, LayerNorm.epsilon n = Py.f1em6) (layer_norms m).
Proof.
  intros num_classes image_size in_channels patch_size num_mixer_layers
    embed_dim mlp_ratio dropout droppath patch_embed_norm g0 m g1 E.
  apply MlpMixer_init_inv in E
    as (nl & g1' & g2 & g3 & g4 & E1 & E2 & E3 & E4 & _).
  apply LayerNorm_init_ensures in E1 as (_ & Hnl & _).
  apply PatchEmbedding_init_ensures in E2
    as (_ & _ & _ & _ & _ & _ & _ & _ & _ & Hnorm).
  apply (ensures_replicateM _ _ _ (MixerBlock_init_ensures _ _ _ _ _)) in E3
    as [_ HB].
  apply LayerNorm_init_ensures in E4 as (_ & Hn & _).
  assert (Forall (λ b, LayerNorm.epsilon (MixerBlock.norm1 b) = Py.f1em6
                       ∧ LayerNorm.epsilon (MixerBlock.norm2 b) = Py.f1em6)
            (MlpMixer.mixer_layers m)) as Hblocks.
  { eapply Forall_impl; [exact HB|].
    intros b (td & cd & _ & _ & _ & _ & Heps & _).
    inversion Heps as [|?? H1 H2]; subst. inversion H2; subst. done. }
  split; [done|]. split; [done|]. split.
  { rewrite Hnorm. destruct patch_embed_norm; [by exists nl | done]. }
  unfold layer_norms, patch_embed_norms. rewrite Hnorm.
  apply Forall_app. split.
  { destruct patch_embed_norm; by repeat constructor. }
  apply Forall_app. split; [|by repeat constructor].
  revert Hblocks. generalize (MlpMixer.mixer_layers m). intros blocks Hblocks.
  induction Hblocks as [|b bs [H1 H2] _ IH]; [constructor|].
  change (Forall (λ n, LayerNorm.epsilon n = Py.f1em6)
            (block_norms b ++ mjoin (block_norms <$> bs))).
  apply Forall_app. split; [|exact IH]. unfold block_norms.
  by repeat constructor.
Qed.

(** C8, as amended.  A mixer block constructed with a dropout rate in
    [[0, 1]] maps every tensor of shape [[batch; seq_len; dim]], for the
    sequence length and dimension it was constructed with, to a tensor of
    exactly that shape; hence any number of identically configured blocks
    compose, and the shape [[batch; num_patches; embed_dim]] is invariant
    across the mixer stack of a constructed model.  The stochastic-depth
    layer is taken to keep shapes. *)
Theorem MixerBlock_forward_preserves_shape :
  ∀ dim seq_len mlp_ratio dropout droppath,
  Py.bad_probability dropout = false →
  DropPath_preserves_shape (DropPath.mk droppath) →
  (∀ g0 l g1 training b x,
     MixerBlock.init dim seq_len mlp_ratio dropout droppath g0 = Some (l, g1) →
     has_shape x [b; Z.to_nat seq_len; Z.to_nat dim] →
     returns (MixerBlock.forward l training x)
       (λ y, has_shape y [b; Z.to_nat seq_len; Z.to_nat dim]))
  ∧ (∀ (blocks : list MixerBlock.t) training b x,
       Forall (λ l, ∃ g g',
                 MixerBlock.init dim seq_len mlp_ratio dropout droppath g
                 = Some (l, g')) blocks →
       has_shape x [b; Z.to_nat seq_len; Z.to_nat dim] →
       returns (Sequential.forward (λ l, MixerBlock.forward l training)
                  blocks x)
         (λ y, has_shape y [b; Z.to_nat seq_len; Z.to_nat dim]))
  ∧ (∀ num_classes image_size in_channels patch_size num_mixer_layers
       patch_embed_norm g0 m g1 training b x,
       MlpMixer.init num_classes image_size in_channels patch_size
         num_mixer_layers dim mlp_ratio dropout droppath patch_embed_norm g0
       = Some (m, g1) →
       has_shape x [b; seq_len_of m; Z.to_nat dim] →
       returns (Sequential.forward (λ l, MixerBlock.forward l training)
                  (MlpMixer.mixer_layers m) x)
         (λ y, has_shape y [b; seq_len_of m; Z.to_nat dim])).
Proof.
  intros dim seq_len mlp_ratio dropout droppath Hp HDP.
  split; [|split].
  - intros g0 l g1 training b x E Hx.
    apply MixerBlock_forward_returns; [|done]. by eapply built_block_runs.
  - intros blocks training b x Hb Hx. apply mixer_layers_returns; [|done].
    eapply Forall_impl; [exact Hb|]. intros l (g & g' & E).
    by eapply built_block_runs.
  - intros num_classes image_size in_channels patch_size num_mixer_layers
      patch_embed_norm g0 m g1 training b x E Hx.
    apply MlpMixer_blocks_built in E as [_ Hb].
    apply mixer_layers_returns; [|done].
    eapply Forall_impl; [exact Hb|]. intros l (g & g' & E).
    by eapply built_block_runs.
Qed.

(** C9, as amended.  The constructor computes
    [num_patches = (image_size // patch_size) ^ 2] with floor division; for
    every [patch_size >= 1] and [image_size >= patch_size], divisible or
    not, with at least one input channel and one embedding channel, the
    constructor returns and the forward pass on a batch of [image_size] by
    [image_size] images produces exactly [num_patches] embeddings per
    image, and the rows and columns beyond the last complete patch do not
    influence the result. *)
Theorem PatchEmbedding_floor_patches :
  ∀ image_size patch_size in_channels embed_dim norm_layer,
  (1 ≤ patch_size)%Z → (patch_size ≤ image_size)%Z →
  (1 ≤ in_channels)%Z → (1 ≤ embed_dim)%Z →
  match norm_layer with
  | Some n => LayerNorm.normalized_shape n = Z.to_nat embed_dim
  | None => True
  end →
  returns
    (PatchEmbedding.init image_size patch_size in_channels embed_dim norm_layer)
    (λ l, PatchEmbedding.num_patches l
          = ((image_size / patch_size) * (image_size / patch_size))%Z
          ∧ ∀ b x,
              shape x = [b; Z.to_nat in_channels; Z.to_nat image_size;
                         Z.to_nat image_size] →
              (∃ y, PatchEmbedding.forward l x = Some y
                    ∧ has_shape y [b; Z.to_nat (PatchEmbedding.num_patches l);
                                   Z.to_nat embed_dim])
              ∧ (∀ x', agree_on_patches (Z.to_nat patch_size) x x' →
                   PatchEmbedding.forward l x' = PatchEmbedding.forward l x)).
Proof.
  intros image_size patch_size in_channels embed_dim norm_layer Hp Hle Hc He Hn g.
  destruct (PatchEmbedding_init_returns image_size patch_size in_channels
              embed_dim norm_layer ltac:(lia) ltac:(lia) ltac:(lia) g)
    as (l & g' & E & _).
  exists l, g'. split; [done|].
  apply PatchEmbedding_init_ensures in E
    as (_ & _ & _ & _ & Hnp & _ & _ & Hconv & _ & Hnorm).
  split; [done|]. intros b x Sx.
  assert (norm_accepts (PatchEmbedding.norm l) (Z.to_nat embed_dim)) as Hacc
    by (rewrite Hnorm; by destruct norm_layer).
  assert (Z.to_nat patch_size ≤ Z.to_nat image_size) as Hle' by lia.
  split.
  - rewrite Hnp, Z_to_nat_patches by lia.
    eapply PatchEmbedding_forward_total; try done. lia.
  - intros x' (b' & c' & h' & w' & Sx1 & Sx' & Hag).
    rewrite Sx in Sx1. injection Sx1 as <- <- <- <-.
    rewrite !(PatchEmbedding_forward_embedded l _ b (Z.to_nat in_channels)
                (Z.to_nat image_size) (Z.to_nat image_size)
                (Z.to_nat embed_dim) (Z.to_nat patch_size))
      by (done || lia).
    f_equal. symmetry. by apply embedded_agree.
Qed.

(** C10. For every config object, [build_mlp_mixer] constructs the model
    with [in_channels] 3, [mlp_ratio] (0.5, 4.0) and [patch_size] at its
    default 16, whatever else the config holds: the call is the
    constructor applied to the six values read from the config and to
    these constants; two config objects that agree on the six attributes
    [MODEL.NUM_CLASSES], [DATA.IMAGE_SIZE], [MODEL.MIXER.NUM_LAYERS],
    [MODEL.MIXER.HIDDEN_SIZE], [MODEL.DROPOUT] and [MODEL.DROPPATH], and
    differ in whatever else, give the same result; and a model that is
    built has 3 input channels, patches of side 16 and the hidden sizes of
    the ratios (0.5, 4.0). *)
Theorem build_mlp_mixer_fixed_options :
  ∀ (config : Config) (g : G),
    (∀ num_classes image_size num_mixer_layers embed_dim dropout droppath,
       read_options config
       = Some (num_classes, image_size, num_mixer_layers, embed_dim,
               dropout, droppath) →
       build_mlp_mixer config g
       = MlpMixer.init num_classes image_size 3 16 num_mixer_layers embed_dim
           (Py.f0_5, Py.f4_0) dropout droppath false g)
    ∧ (∀ config',
         (∀ path, path ∈ int_options ++ float_options →
            getpath path config' = getpath path config) →
         build_mlp_mixer config' g = build_mlp_mixer config g)
    ∧ (∀ m g', build_mlp_mixer config g = Some (m, g') →
         PatchEmbedding.in_channels (MlpMixer.patch_embed m) = 3%Z
         ∧ PatchEmbedding.patch_size (MlpMixer.patch_embed m) = (16, 16)%Z
         ∧ Forall (λ b, ∃ tokens_dim channels_dim,
                     scaled_dim Py.f0_5 (MlpMixer.embed_dim m) = Some tokens_dim
                     ∧ scaled_dim Py.f4_0 (MlpMixer.embed_dim m)
                       = Some channels_dim
                     ∧ Mlp_dims (MixerBlock.mlp_tokens b) (seq_len_of m)
                         (Z.to_nat tokens_dim)
                     ∧ Mlp_dims (MixerBlock.mlp_channels b)
                         (Z.to_nat (MlpMixer.embed_dim m))
                         (Z.to_nat channels_dim))
             (MlpMixer.mixer_layers m)).
Proof.
  intros config g. split; [|split].
  - intros nc isz nl ed dr dp Hread. by rewrite build_mlp_mixer_read, Hread.
  - intros config' Hsame. rewrite !build_mlp_mixer_read.
    assert (read_options config' = read_options config) as ->; [|done].
    unfold read_options, int_options, float_options in *. cbn [mapM].
    rewrite !Hsame; [done|set_solver..].
  - intros m g' E. rewrite build_mlp_mixer_read in E.
    destruct (read_options config) as [[[[[[nc isz] nl] ed] dr] dp]|]; [|done].
    pose proof E as E0.
    apply MlpMixer_init_inv in E
      as (nl0 & g1 & g2 & g3 & g4 & _ & E2 & E3 & _ & _ & _ & _ & Hed).
    apply PatchEmbedding_init_ensures in E2
      as (_ & _ & Hps & _ & _ & Hic & _).
    apply (ensures_replicateM _ _ _ (MixerBlock_init_ensures _ _ _ _ _)) in E3
      as [_ HB].
    split; [done|]. split; [done|]. rewrite Hed.
    eapply Forall_impl; [exact HB|].
    intros b (td & cd & Ht & Hc & (_ & _ & Dt & Dc) & _). by exists td, cd.
Qed.

End Properties.

(* ================================================================== *)
(** * Further properties of the module *)

Section FurtherProperties.
Context {SC : Scalar} {RS : RandomSource} {DP : DropPath.Impl}.

(** X1. With the default ratios [(0.5, 4.0)] the hidden sizes
    [int(mlp_ratio[0] * dim)] and [int(mlp_ratio[1] * dim)] are [dim // 2]
    and [4 * dim], for every [dim] from 0 up to, not including, [2 ^ 53]:
    the conversion of [dim] to a float, the product and the truncation are
    all exact.  For such a [dim] the block constructor returns exactly when
    [dim >= 2] and [seq_len >= 1] (a parameter has no axis of size 0, and
    with [dim = 1] the hidden size [dim // 2] is 0); the block it returns
    has a token-mixing Mlp of hidden size [dim // 2] and a channel-mixing
    Mlp of hidden size [4 * dim]. *)
Theorem MixerBlock_default_hidden_sizes :
  ∀ dim seq_len dropout droppath,
  (0 ≤ dim < 2 ^ 53)%Z →
  scaled_dim Py.f0_5 dim = Some (dim / 2)%Z
  ∧ scaled_dim Py.f4_0 dim = Some (4 * dim)%Z
  ∧ ((2 ≤ dim)%Z → (1 ≤ seq_len)%Z →
     returns (MixerBlock.init dim seq_len (Py.f0_5, Py.f4_0) dropout droppath)
       (λ l, Mlp_dims (MixerBlock.mlp_tokens l) (Z.to_nat seq_len)
               (Z.to_nat (dim / 2))
             ∧ Mlp_dims (MixerBlock.mlp_channels l) (Z.to_nat dim)
                 (Z.to_nat (4 * dim))))
  ∧ ensures (MixerBlock.init dim seq_len (Py.f0_5, Py.f4_0) dropout droppath)
      (λ _, (2 ≤ dim)%Z ∧ (1 ≤ seq_len)%Z).
Proof.
  intros dim seq_len dropout droppath Hd.
  pose proof (scaled_dim_half dim Hd) as Ht.
  pose proof (scaled_dim_four dim Hd) as Hc.
  split; [done|]. split; [done|]. split.
  - intros Hdim Hs. apply returns_built.
    + apply (MixerBlock_init_returns _ _ _ _ _ (dim / 2) (4 * dim))%Z;
        try done; try lia.
      apply Z.div_str_pos; lia.
    + intros g l g' E. apply MixerBlock_init_ensures in E
        as (td & cd & Ht' & Hc' & (_ & _ & Dt & Dc) & _).
      cbn [fst snd] in Ht', Hc'. rewrite Ht in Ht'. rewrite Hc in Hc'.
      injection Ht' as <-. injection Hc' as <-. done.
  - intros g l g' E. apply MixerBlock_init_drawn in E
      as (td & cd & Ht' & _ & _ & Hs & Htd & _).
    cbn [fst snd] in Ht'. rewrite Ht in Ht'. injection Ht' as <-.
    split; [|lia].
    destruct (decide (2 ≤ dim)%Z) as [|Hn]; [done|].
    rewrite Z.div_small in Htd by lia. lia.
Qed.

(** X2. When one of the six options that [build_mlp_mixer] reads is
    missing from the config object, at any level of its path, the call
    raises: no model is constructed and no random number is drawn,
    whatever the other options are. *)
Theorem build_mlp_mixer_missing_option :
  ∀ (config : Config) (path : list string),
  path ∈ int_options ++ float_options → getpath path config = None →
  ∀ g, build_mlp_mixer config g = None.
Proof.
  intros config path Hin E g. rewrite build_mlp_mixer_read.
  assert (read_options config = None) as ->; [|done].
  apply read_options_None. apply elem_of_app in Hin as [Hin|Hin].
  - left. exists path. by rewrite E.
  - right. exists path. by rewrite E.
Qed.

(** X3. From a config object that holds the six options, with
    [NUM_CLASSES >= 1], [IMAGE_SIZE >= 16], [2 <= HIDDEN_SIZE < 2 ^ 53] and
    a dropout rate that is not rejected, [build_mlp_mixer] returns a model
    with [(IMAGE_SIZE // 16) ^ 2] sequence positions, and the forward pass
    of that model returns, in training and in evaluation mode, class scores
    of shape [[batch; NUM_CLASSES]] for every batch of three-channel
    [IMAGE_SIZE] by [IMAGE_SIZE] images.  The stochastic-depth layer is
    taken to keep shapes. *)
Theorem build_mlp_mixer_runs :
  ∀ config num_classes image_size num_mixer_layers embed_dim dropout droppath,
  read_options config
  = Some (num_classes, image_size, num_mixer_layers, embed_dim,
          dropout, droppath) →
  (1 ≤ num_classes)%Z → (16 ≤ image_size)%Z → (2 ≤ embed_dim < 2 ^ 53)%Z →
  Py.bad_probability dropout = false →
  DropPath_preserves_shape (DropPath.mk droppath) →
  returns (build_mlp_mixer config)
    (λ m, PatchEmbedding.num_patches (MlpMixer.patch_embed m)
          = ((image_size / 16) * (image_size / 16))%Z
          ∧ ∀ training b x,
              shape x = [b; 3; Z.to_nat image_size; Z.to_nat image_size] →
              returns (MlpMixer.forward m training x)
                (λ y, has_shape y [b; Z.to_nat num_classes])).
Proof.
  intros config nc isz nl ed dr dp Hread Hnc Hisz Hed Hdr HDP.
  apply returns_built.
  - intros g. rewrite build_mlp_mixer_read, Hread.
    apply MlpMixer_init_returns; try done; try lia.
    intros _. exists (ed / 2)%Z, (4 * ed)%Z. cbn [fst snd].
    split; [apply scaled_dim_half; lia|].
    split; [apply scaled_dim_four; lia|].
    split; [apply Z.div_str_pos; lia|]. split; [lia|].
    assert (1 ≤ isz / 16)%Z by (apply Z.div_le_lower_bound; lia). lia.
  - intros g m g' E. rewrite build_mlp_mixer_read, Hread in E.
    pose proof (MlpMixer_init_dims _ _ _ _ _ _ _ _ _ _ _ _ _ E)
      as (_ & _ & _ & Hnp & _).
    split; [done|]. intros training b x Sx.
    eapply MlpMixer_forward_returns; try done.
    exists (Z.to_nat isz), (Z.to_nat isz). change (Z.to_nat 3) with 3.
    split; [done|]. split; [lia|]. split; [lia|].
    unfold seq_len_of. rewrite Hnp. symmetry. apply Z_to_nat_patches; lia.
Qed.

(** X4. The patch size of a built model is always 16.  From a config
    object with [0 <= IMAGE_SIZE < 16] the number of patches is 0, so that
    with [NUM_LAYERS >= 1] no model is built (the token-mixing Mlp of the
    first block would have input size 0); a model that is built has no
    mixer block and no sequence position, and its forward pass returns
    class scores of shape [[batch; NUM_CLASSES]] for every batch of
    three-channel images that are not empty, whatever their size: an image
    smaller than the patch gives one clipped window. *)
Theorem build_mlp_mixer_small_image :
  ∀ config num_classes image_size num_mixer_layers embed_dim dropout droppath,
  read_options config
  = Some (num_classes, image_size, num_mixer_layers, embed_dim,
          dropout, droppath) →
  (0 ≤ image_size < 16)%Z →
  ((1 ≤ num_mixer_layers)%Z → ∀ g, build_mlp_mixer config g = None)
  ∧ ∀ g m g',
      build_mlp_mixer config g = Some (m, g') →
      PatchEmbedding.num_patches (MlpMixer.patch_embed m) = 0%Z
      ∧ MlpMixer.mixer_layers m = []
      ∧ ∀ training b h w x g2,
          shape x = [b; 3; h; w] → 1 ≤ h → 1 ≤ w →
          ∃ y, MlpMixer.forward m training x g2 = Some (y, g2)
               ∧ has_shape y [b; Z.to_nat num_classes].
Proof.
  intros config nc isz nl ed dr dp Hread Hisz.
  assert (∀ g m g', build_mlp_mixer config g = Some (m, g') →
            PatchEmbedding.num_patches (MlpMixer.patch_embed m) = 0%Z
            ∧ MlpMixer.mixer_layers m = []
            ∧ MlpMixer.init nc isz 3 16 nl ed (Py.f0_5, Py.f4_0) dr dp false g
              = Some (m, g')) as Hbuilt.
  { intros g m g' E. rewrite build_mlp_mixer_read, Hread in E.
    pose proof (MlpMixer_init_dims _ _ _ _ _ _ _ _ _ _ _ _ _ E)
      as (_ & _ & _ & Hnp & _).
    rewrite Z.div_small in Hnp by lia.
    split; [done|]. split; [|done].
    pose proof (MlpMixer_init_positive _ _ _ _ _ _ _ _ _ _ _ _ _ E)
      as (_ & _ & _ & _ & Hpos).
    destruct (MlpMixer.mixer_layers m) as [|l rest]; [done|].
    rewrite Hnp in Hpos. specialize (Hpos ltac:(done)). lia. }
  split.
  - intros Hnl g.
    destruct (build_mlp_mixer config g) as [[m g']|] eqn:E; [|done].
    destruct (Hbuilt g m g' E) as (_ & Hl & E0).
    apply MlpMixer_blocks_built in E0 as [Hlen _].
    rewrite Hl in Hlen. simpl in Hlen. lia.
  - intros g m g' E. destruct (Hbuilt g m g' E) as (Hnp & Hl & E0).
    split; [done|]. split; [done|]. intros training b h w x g2 Sx Hh Hw.
    by eapply (MlpMixer_no_blocks_forward _ _ 3%Z).
Qed.

(** X5. The forward pass of a constructed patch embedding returns
    exactly on the batches of rank 4 that have [in_channels] channels and
    images that are not empty; the [image_size] given to the constructor is
    not checked.  On a batch of [h] by [w] images it returns
    [max(1, h // patch_size) * max(1, w // patch_size)] embeddings per
    image: the complete patches, or one clipped window along an axis
    shorter than a patch. *)
Theorem PatchEmbedding_forward_accepts :
  ∀ image_size patch_size in_channels embed_dim norm_layer g0 l g1,
  PatchEmbedding.init image_size patch_size in_channels embed_dim norm_layer g0
  = Some (l, g1) →
  match norm_layer with
  | Some n => LayerNorm.normalized_shape n = Z.to_nat embed_dim
  | None => True
  end →
  ∀ x,
    ((∃ y, PatchEmbedding.forward l x = Some y)
     ↔ ∃ b h w, shape x = [b; Z.to_nat in_channels; h; w] ∧ 1 ≤ h ∧ 1 ≤ w)
    ∧ (∀ y b c h w,
         PatchEmbedding.forward l x = Some y → shape x = [b; c; h; w] →
         has_shape y [b; Nat.max 1 (h / Z.to_nat patch_size)
                         * Nat.max 1 (w / Z.to_nat patch_size);
                      Z.to_nat embed_dim])
    ∧ (∀ y b c h w,
         PatchEmbedding.forward l x = Some y → shape x = [b; c; h; w] →
         Z.to_nat patch_size ≤ h → Z.to_nat patch_size ≤ w →
         has_shape y [b; h / Z.to_nat patch_size * (w / Z.to_nat patch_size);
                      Z.to_nat embed_dim]).
Proof.
  intros image_size patch_size in_channels embed_dim norm_layer g0 l g1 E Hn x.
  apply PatchEmbedding_init_ensures in E
    as (_ & _ & _ & _ & _ & _ & _ & Hconv & Hp & Hnorm).
  assert (norm_accepts (PatchEmbedding.norm l) (Z.to_nat embed_dim)) as Hacc
    by (rewrite Hnorm; by destruct norm_layer).
  assert (∀ y b c h w,
    PatchEmbedding.forward l x = Some y → shape x = [b; c; h; w] →
    has_shape y [b; Nat.max 1 (h / Z.to_nat patch_size)
                    * Nat.max 1 (w / Z.to_nat patch_size);
                 Z.to_nat embed_dim]) as Hshape.
  { intros y b c h w Ey Sx.
    eapply PatchEmbedding_forward_inv in Ey as (b' & h' & w' & Sx' & _ & _ & Hy);
      [|done|done|lia].
    rewrite Sx in Sx'. by injection Sx' as -> -> -> ->. }
  split; [split|split; [done|]].
  - intros [y Ey].
    eapply PatchEmbedding_forward_inv in Ey as (b & h & w & Sx & Hh & Hw & _);
      [|done|done|lia].
    by exists b, h, w.
  - intros (b & h & w & Sx & Hh & Hw).
    destruct (PatchEmbedding_forward_windows l x b (Z.to_nat in_channels) h w
                (Z.to_nat embed_dim) (Z.to_nat patch_size))
      as (y & Ey & _); try done; [lia|].
    by exists y.
  - intros y b c h w Ey Sx Hh Hw.
    pose proof (Hshape y b c h w Ey Sx) as Hy.
    assert (1 ≤ h / Z.to_nat patch_size)
      by (apply Nat.div_le_lower_bound; lia).
    assert (1 ≤ w / Z.to_nat patch_size)
      by (apply Nat.div_le_lower_bound; lia).
    by rewrite !Nat.max_r in Hy by done.
Qed.

(** X6. The forward pass of a constructed block returns exactly when
    its input has shape [[batch; seq_len; dim]], for the sizes the block
    was constructed with, and the dropout rate is not rejected; on every
    other input, and with a dropout rate outside [[0, 1]] on every input,
    it raises.  The stochastic-depth layer is taken to accept every tensor
    and to keep its shape. *)
Theorem MixerBlock_forward_accepts :
  ∀ dim seq_len mlp_ratio dropout droppath g0 l g1,
  MixerBlock.init dim seq_len mlp_ratio dropout droppath g0 = Some (l, g1) →
  DropPath_preserves_shape (DropPath.mk droppath) →
  ∀ training x g, wf x →
    (∃ y g', MixerBlock.forward l training x g = Some (y, g'))
    ↔ (∃ b, shape x = [b; Z.to_nat seq_len; Z.to_nat dim])
      ∧ Py.bad_probability dropout = false.
Proof.
  intros dim seq_len mlp_ratio dropout droppath g0 l g1 E HDP training x g Wx.
  pose proof (MixerBlock_init_ensures _ _ _ _ _ _ _ _ E)
    as (td & cd & _ & _ & Hd & (Ht & Hc & Hdp) & _).
  split.
  - intros (y & g' & F).
    eapply MixerBlock_forward_ensures in F as (Hs & _ & Hp); [|done| |done].
    + rewrite Ht in Hp. done.
    + rewrite Hdp. by apply DropPath_preserves_keeps.
  - intros [[b Sx] Hp].
    destruct (MixerBlock_forward_returns l training x b (Z.to_nat dim)
                (Z.to_nat seq_len)) with (g := g) as (y & g' & F & _).
    + unfold MixerBlock_runs. rewrite Ht, Hc, Hdp.
      split; [by exists (Z.to_nat td), (Z.to_nat cd)|]. done.
    + done.
    + by exists y, g'.
Qed.

(** X7. A constructed model whose dropout rate is not rejected returns,
    in training and in evaluation mode, for every batch of images that hold
    as many complete patches as the model has sequence positions (square
    or not): [forward_features] returns features of shape
    [[batch; num_features]] and [forward] class scores of shape
    [[batch; num_classes]].  The stochastic-depth layer is taken to keep
    shapes. *)
Theorem MlpMixer_forward_returns_scores :
  ∀ num_classes image_size in_channels patch_size num_mixer_layers embed_dim
    mlp_ratio dropout droppath patch_embed_norm g0 m g1,
  MlpMixer.init num_classes image_size in_channels patch_size num_mixer_layers
    embed_dim mlp_ratio dropout droppath patch_embed_norm g0 = Some (m, g1) →
  Py.bad_probability dropout = false →
  DropPath_preserves_shape (DropPath.mk droppath) →
  ∀ training b x,
    patch_grid (Z.to_nat patch_size) x b (Z.to_nat in_channels) (seq_len_of m) →
    returns (MlpMixer.forward_features m training x)
      (λ f, has_shape f [b; Z.to_nat (MlpMixer.num_features m)])
    ∧ returns (MlpMixer.forward m training x)
        (λ y, has_shape y [b; Z.to_nat (MlpMixer.num_classes m)]).
Proof.
  intros num_classes image_size in_channels patch_size num_mixer_layers
    embed_dim mlp_ratio dropout droppath patch_embed_norm g0 m g1 E Hp HDP
    training b x Hx.
  pose proof (MlpMixer_init_inv _ _ _ _ _ _ _ _ _ _ _ _ _ E)
    as (_ & _ & _ & _ & _ & _ & _ & _ & _ & _ & -> & -> & _).
  by eapply MlpMixer_forward_returns.
Qed.

(** X8. A constructed model with at least one mixer block is tied to
    its resolution: whenever its forward pass returns, the input is a batch
    of images with [in_channels] channels, none empty, with exactly
    [num_patches] window positions each (the complete patches, or one
    clipped window along an axis shorter than a patch), and the dropout
    rate is not rejected.  On a batch with any other number of window
    positions the forward pass raises. *)
Theorem MlpMixer_forward_fixed_resolution :
  ∀ num_classes image_size in_channels patch_size num_mixer_layers embed_dim
    mlp_ratio dropout droppath patch_embed_norm g0 m g1,
  MlpMixer.init num_classes image_size in_channels patch_size num_mixer_layers
    embed_dim mlp_ratio dropout droppath patch_embed_norm g0 = Some (m, g1) →
  (1 ≤ num_mixer_layers)%Z →
  DropPath_keeps_shape (DropPath.mk droppath) →
  ∀ training x g y g',
    MlpMixer.forward m training x g = Some (y, g') →
    (∃ b, window_grid (Z.to_nat patch_size) x b (Z.to_nat in_channels)
            (seq_len_of m))
    ∧ Py.bad_probability dropout = false.
Proof.
  intros num_classes image_size in_channels patch_size num_mixer_layers
    embed_dim mlp_ratio dropout droppath patch_embed_norm g0 m g1 E HN HDP
    training x g y g' F.
  pose proof (MlpMixer_init_dims _ _ _ _ _ _ _ _ _ _ _ _ _ E)
    as (Hconv & Hps & Hnorm & _ & Hb & _).
  pose proof (MlpMixer_blocks_built _ _ _ _ _ _ _ _ _ _ _ _ _ E) as [Hlen _].
  unfold MlpMixer.forward, MlpMixer.forward_features in F.
  apply bind_Some in F as (f & g2 & F & _).
  apply bind_Some in F as (x1 & g3 & E1 & F).
  apply pure_Some in E1 as [E1 ->].
  apply bind_Some in F as (x2 & g4 & E2 & _).
  eapply PatchEmbedding_forward_inv in E1
    as (b & h & w & Sx & Hh & Hw & [S1 W1]); [|done|done|lia].
  destruct (MlpMixer.mixer_layers m) as [|l rest] eqn:Hl;
    [simpl in Hlen; lia|].
  apply Forall_cons in Hb as [[(td & cd & Hd) (Ht & _ & Hdp)] _].
  unfold Sequential.forward in E2. cbn [foldM] in E2.
  apply bind_Some in E2 as (x3 & g5 & E3 & _).
  eapply MixerBlock_forward_ensures in E3 as ([b' Sx1] & _ & Hp);
    [|done|by rewrite Hdp|done].
  rewrite S1 in Sx1. injection Sx1 as _ Hn.
  rewrite Ht in Hp. split; [|done].
  exists b, h, w. done.
Qed.

(** X9. With [num_mixer_layers <= 0] the constructor builds no block
    ([range] of a number that is not positive is empty).  The forward pass
    of such a model draws no random number and returns class scores for
    every batch of images with [in_channels] channels that are at least
    one patch high and wide, whatever their size and whatever the dropout
    and droppath rates. *)
Theorem MlpMixer_without_blocks :
  ∀ num_classes image_size in_channels patch_size num_mixer_layers embed_dim
    mlp_ratio dropout droppath patch_embed_norm g0 m g1,
  MlpMixer.init num_classes image_size in_channels patch_size num_mixer_layers
    embed_dim mlp_ratio dropout droppath patch_embed_norm g0 = Some (m, g1) →
  (num_mixer_layers ≤ 0)%Z →
  MlpMixer.mixer_layers m = []
  ∧ ∀ training b h w x g,
      shape x = [b; Z.to_nat in_channels; h; w] →
      Z.to_nat patch_size ≤ h → Z.to_nat patch_size ≤ w →
      ∃ y, MlpMixer.forward m training x g = Some (y, g)
           ∧ has_shape y [b; Z.to_nat num_classes].
Proof.
  intros num_classes image_size in_channels patch_size num_mixer_layers
    embed_dim mlp_ratio dropout droppath patch_embed_norm g0 m g1 E HN.
  pose proof (MlpMixer_init_dims _ _ _ _ _ _ _ _ _ _ _ _ _ E)
    as (_ & Hps & _).
  pose proof (MlpMixer_blocks_built _ _ _ _ _ _ _ _ _ _ _ _ _ E) as [Hlen _].
  assert (MlpMixer.mixer_layers m = []) as Hl
    by (apply length_zero_iff_nil; lia).
  split; [done|]. intros training b h w x g Sx Hh Hw.
  eapply MlpMixer_no_blocks_forward; try done; lia.
Qed.

(** X10. In evaluation mode the forward passes of [Mlp], of
    [MixerBlock] and of [MlpMixer] draw no random number: from every
    generator state they raise, or return the same result and leave the
    state as it was.  The stochastic-depth layer is taken to draw nothing
    in evaluation mode. *)
Theorem MlpMixer_eval_draws_nothing :
  DropPath_eval_draws_nothing →
  (∀ (l : Mlp.t) (x : Tensor), draws_nothing (Mlp.forward l false x))
  ∧ (∀ (l : MixerBlock.t) (x : Tensor),
       draws_nothing (MixerBlock.forward l false x))
  ∧ ∀ (m : MlpMixer.t) (x : Tensor),
      draws_nothing (MlpMixer.forward m false x)
      ∧ ∀ g y g', MlpMixer.forward m false x g = Some (y, g') →
          g' = g ∧ ∀ g2, MlpMixer.forward m false x g2 = Some (y, g2).
Proof.
  intros HDP. split; [apply Mlp_eval_draws_nothing|].
  split; [intros l x; by apply MixerBlock_eval_draws_nothing|].
  intros m x. pose proof (MlpMixer_forward_draws_nothing m x HDP) as H.
  split; [done|]. intros g y g' E. by apply draws_nothing_Some.
Qed.

(** X11. The channel-mixing computation of a constructed block,
    [mlp_channels(norm2(x))], acts on each token by itself: for two inputs
    of shape [[batch; seq_len; dim]], run from the same generator state (in
    training mode the same dropout masks are drawn), the two runs end in
    the same generator state, the result has the shape of the input, and
    wherever the inputs agree on a token the results agree on that token. *)
Theorem channel_mixing_per_token :
  ∀ dim seq_len mlp_ratio dropout droppath g0 l g1,
  MixerBlock.init dim seq_len mlp_ratio dropout droppath g0 = Some (l, g1) →
  ∀ training b x x' g y g2 y' g2',
    has_shape x [b; Z.to_nat seq_len; Z.to_nat dim] →
    has_shape x' [b; Z.to_nat seq_len; Z.to_nat dim] →
    (t ← pure_ (LayerNorm.forward (MixerBlock.norm2 l) x);
     Mlp.forward (MixerBlock.mlp_channels l) training t) g = Some (y, g2) →
    (t ← pure_ (LayerNorm.forward (MixerBlock.norm2 l) x');
     Mlp.forward (MixerBlock.mlp_channels l) training t) g = Some (y', g2') →
    g2' = g2
    ∧ has_shape y [b; Z.to_nat seq_len; Z.to_nat dim]
    ∧ ∀ i j, i < b → j < Z.to_nat seq_len →
        (∀ k, k < Z.to_nat dim → get3 x i j k = get3 x' i j k) →
        ∀ k, k < Z.to_nat dim → get3 y i j k = get3 y' i j k.
Proof.
  intros dim seq_len mlp_ratio dropout droppath g0 l g1 Hinit
    training b x x' g y g2 y' g2' [Sx Wx] [Sx' Wx'] E E'.
  apply MixerBlock_init_ensures in Hinit
    as (td & cd & _ & _ & (_ & (N2 & _ & _) & _ & Dc) & _).
  set (s := Z.to_nat seq_len) in *. set (d := Z.to_nat dim) in *.
  apply bind_Some in E as (t & ? & E1 & E). apply pure_Some in E1 as [E1 ->].
  apply bind_Some in E' as (t' & ? & E1' & E').
  apply pure_Some in E1' as [E1' ->].
  destruct (LayerNorm_forward_total (MixerBlock.norm2 l) x [b; s])
    as (? & F & Ht); [by rewrite N2|].
  rewrite E1 in F. injection F as <-. rewrite Sx in Ht.
  destruct (LayerNorm_forward_total (MixerBlock.norm2 l) x' [b; s])
    as (? & F & Ht'); [by rewrite N2|].
  rewrite E1' in F. injection F as <-. rewrite Sx' in Ht'.
  assert (has_shape y [b; s; d]) as Hy.
  { destruct (Mlp_forward_ensures _ _ _ _ _ Dc _ _ _ E) as (_ & Hy & _).
    destruct Ht as [St _]. by rewrite St in Hy. }
  assert (has_shape y' [b; s; d]) as Hy'.
  { destruct (Mlp_forward_ensures _ _ _ _ _ Dc _ _ _ E') as (_ & Hy' & _).
    destruct Ht' as [St' _]. by rewrite St' in Hy'. }
  destruct (Mlp_forward_rowwise _ training t t' g y g2 y' g2' [b; s] d
              (Z.to_nat cd) Dc Ht Ht' E E') as [Hg Hrow].
  split; [done|]. split; [done|]. intros i j Hi Hj Hx k Hk.
  assert (i * s + j < numel [b; s]) as Hr
    by (rewrite numel_pair; by apply offset_lt).
  destruct Hy as [Sy _], Hy' as [Sy' _].
  rewrite (get3_at y b s d), (get3_at y' b s d) by done.
  apply Hrow; [done| |done]. clear k Hk. intros k Hk.
  pose proof (LayerNorm_forward_at _ x t [b; s] (i * s + j) k E1) as A.
  pose proof (LayerNorm_forward_at _ x' t' [b; s] (i * s + j) k E1') as A'.
  rewrite N2 in A, A'. rewrite A, A' by done.
  assert (row x d (i * s + j) = row x' d (i * s + j)) as ->.
  { unfold row. apply tab_ext. intros k' Hk'.
    rewrite <- !(get3_at _ b s d) by done. by apply Hx. }
  rewrite <- !(get3_at _ b s d) by done. by rewrite Hx.
Qed.

(** X12. The token-mixing computation of a constructed block,
    [transpose(mlp_tokens(transpose(x)))], acts on each channel by itself:
    for two inputs of shape [[batch; seq_len; dim]], run from the same
    generator state, the two runs end in the same generator state, the
    result has the shape of the input, and wherever the inputs agree on a
    channel of a sample along the whole sequence, the results agree on
    that channel of that sample. *)
Theorem token_mixing_per_channel :
  ∀ dim seq_len mlp_ratio dropout droppath g0 l g1,
  MixerBlock.init dim seq_len mlp_ratio dropout droppath g0 = Some (l, g1) →
  ∀ training b x x' g y g2 y' g2',
    has_shape x [b; Z.to_nat seq_len; Z.to_nat dim] →
    has_shape x' [b; Z.to_nat seq_len; Z.to_nat dim] →
    (t ← pure_ (transpose_0_2_1 x);
     t ← Mlp.forward (MixerBlock.mlp_tokens l) training t;
     pure_ (transpose_0_2_1 t)) g = Some (y, g2) →
    (t ← pure_ (transpose_0_2_1 x');
     t ← Mlp.forward (MixerBlock.mlp_tokens l) training t;
     pure_ (transpose_0_2_1 t)) g = Some (y', g2') →
    g2' = g2
    ∧ has_shape y [b; Z.to_nat seq_len; Z.to_nat dim]
    ∧ ∀ i k, i < b → k < Z.to_nat dim →
        (∀ j, j < Z.to_nat seq_len → get3 x i j k = get3 x' i j k) →
        ∀ j, j < Z.to_nat seq_len → get3 y i j k = get3 y' i j k.
Proof.
  intros dim seq_len mlp_ratio dropout droppath g0 l g1 Hinit
    training b x x' g y g2 y' g2' [Sx Wx] [Sx' Wx'] E E'.
  apply MixerBlock_init_ensures in Hinit
    as (td & cd & _ & _ & (_ & _ & Dt & _) & _).
  set (s := Z.to_nat seq_len) in *. set (d := Z.to_nat dim) in *.
  apply bind_Some in E as (t & ? & E1 & E). apply pure_Some in E1 as [E1 ->].
  apply bind_Some in E as (u & g3 & E2 & E). apply pure_Some in E as [E3 ->].
  apply bind_Some in E' as (t' & ? & E1' & E').
  apply pure_Some in E1' as [E1' ->].
  apply bind_Some in E' as (u' & g3' & E2' & E').
  apply pure_Some in E' as [E3' ->].
  destruct (transpose_total x b s d Sx) as (? & F & Ht).
  rewrite E1 in F. injection F as <-.
  destruct (transpose_total x' b s d Sx') as (? & F & Ht').
  rewrite E1' in F. injection F as <-.
  change [b; d; s] with ([b; d] ++ [s]) in Ht, Ht'.
  destruct (Mlp_forward_ensures _ _ _ _ _ Dt _ _ _ E2) as (_ & [Su _] & _).
  destruct (Mlp_forward_ensures _ _ _ _ _ Dt _ _ _ E2') as (_ & [Su' _] & _).
  destruct Ht as [St Wt], Ht' as [St' Wt']. rewrite St in Su. rewrite St' in Su'.
  destruct (transpose_total u b d s Su) as (? & F & Hy).
  rewrite E3 in F. injection F as <-.
  destruct (transpose_total u' b d s Su') as (? & F & Hy').
  rewrite E3' in F. injection F as <-.
  destruct (Mlp_forward_rowwise _ training t t' g u _ u' _ [b; d] s
              (Z.to_nat td) Dt (conj St Wt) (conj St' Wt') E2 E2')
    as [Hg Hrow].
  split; [done|]. split; [done|]. intros i k Hi Hk Hx j Hj.
  rewrite (transpose_get u y b d s i k j), (transpose_get u' y' b d s i k j)
    by done.
  rewrite (get3_at u b d s), (get3_at u' b d s) by done.
  apply Hrow; [rewrite numel_pair; by apply offset_lt | | done].
  clear j Hj. intros j Hj.
  rewrite <- (get3_at t b d s), <- (get3_at t' b d s) by done.
  rewrite (transpose_get x t b s d i j k), (transpose_get x' t' b s d i j k)
    by done.
  by apply Hx.
Qed.

(** X13. In evaluation mode the class scores of an image depend on
    that image only: when the forward pass of a constructed model returns
    on two batches, of any two sizes, the row of scores of an image of the
    first batch equals the row of scores of every image of the second batch
    that is the same image.  The stochastic-depth layer is taken to return
    its input in evaluation mode. *)
Theorem MlpMixer_eval_per_image :
  DropPath_eval_identity →
  ∀ num_classes image_size in_channels patch_size num_mixer_layers embed_dim
    mlp_ratio dropout droppath patch_embed_norm g0 m g1,
  MlpMixer.init num_classes image_size in_channels patch_size num_mixer_layers
    embed_dim mlp_ratio dropout droppath patch_embed_norm g0 = Some (m, g1) →
  ∀ b b' c h w x x' g y g2 g' y' g2',
    shape x = [b; c; h; w] → shape x' = [b'; c; h; w] →
    MlpMixer.forward m false x g = Some (y, g2) →
    MlpMixer.forward m false x' g' = Some (y', g2') →
    has_shape y [b; Z.to_nat num_classes]
    ∧ has_shape y' [b'; Z.to_nat num_classes]
    ∧ ∀ n n', n < b → n' < b' → same_image c h w x n x' n' →
        row y (Z.to_nat num_classes) n = row y' (Z.to_nat num_classes) n'.
Proof.
  intros HDP num_classes image_size in_channels patch_size num_mixer_layers
    embed_dim mlp_ratio dropout droppath patch_embed_norm g0 m g1 Hinit
    b b' c h w x x' g y g2 g' y' g2' Sx Sx' F F'.
  pose proof (MlpMixer_init_dims _ _ _ _ _ _ _ _ _ _ _ _ _ Hinit)
    as (Hconv & Hps & Hnorm & _ & Hb & (Hns & _) & [[Sw _] [Sb _]]).
  set (e := Z.to_nat embed_dim) in *. set (k := Z.to_nat patch_size) in *.
  set (nc := Z.to_nat num_classes) in *.
  assert (0 < k) as Hk by (unfold k; lia).
  unfold MlpMixer.forward, MlpMixer.forward_features in F, F'.
  apply bind_Some in F as (x4 & g4 & F & Ey).
  apply bind_Some in Ey as (y0 & g5 & Ey & Er).
  apply pure_Some in Ey as [Ey ->]. apply ret_Some in Er as [-> ->].
  apply bind_Some in F as (x1 & g6 & E1 & F). apply pure_Some in E1 as [E1 ->].
  apply bind_Some in F as (x2 & g3 & E2 & F).
  apply bind_Some in F as (x3 & g7 & E3 & F). apply pure_Some in E3 as [E3 ->].
  apply bind_Some in F as (x5 & g8 & E4 & F). apply pure_Some in E4 as [E4 ->].
  apply ret_Some in F as [-> ->].
  apply bind_Some in F' as (x4' & g4' & F' & Ey').
  apply bind_Some in Ey' as (y0' & g5' & Ey' & Er').
  apply pure_Some in Ey' as [Ey' ->]. apply ret_Some in Er' as [-> ->].
  apply bind_Some in F' as (x1' & g6' & E1' & F').
  apply pure_Some in E1' as [E1' ->].
  apply bind_Some in F' as (x2' & g3' & E2' & F').
  apply bind_Some in F' as (x3' & g7' & E3' & F').
  apply pure_Some in E3' as [E3' ->].
  apply bind_Some in F' as (x5' & g8' & E4' & F').
  apply pure_Some in E4' as [E4' ->]. apply ret_Some in F' as [-> ->].
  (* the patch embedding *)
  destruct (PatchEmbedding_forward_inv _ x x1 _ e k E1 Hconv Hnorm Hk)
    as (b0 & h0 & w0 & Sx0 & _ & _ & _).
  rewrite Sx in Sx0. injection Sx0 as <- Hc <- <-.
  rewrite <- Hc in Hconv.
  destruct (PatchEmbedding_forward_per_image _ x x' x1 x1' b b' c h w e k
              Hconv Hnorm Hk Sx Sx' E1 E1') as (H1 & H1' & SS1).
  set (N := Nat.max 1 (h / k) * Nat.max 1 (w / k)) in *.
  (* the mixer blocks *)
  assert (Forall (λ l, ∃ td cd, MixerBlock_dims l e N td cd)
            (MlpMixer.mixer_layers m)) as Hb'.
  { destruct (MlpMixer.mixer_layers m) as [|l rest] eqn:Hl; [constructor|].
    pose proof Hb as Hb0. apply Forall_cons in Hb0 as [[(td & cd & Hd) _] _].
    unfold Sequential.forward in E2. cbn [foldM] in E2.
    apply bind_Some in E2 as (z & gz & E2 & _).
    destruct (MixerBlock_forward_input _ _ _ _ _ _ _ _ _ _ Hd E2) as [b0 S0].
    destruct H1 as [S1 _]. rewrite S1 in S0. injection S0 as _ HN.
    rewrite <- HN in Hb. eapply Forall_impl; [exact Hb|]. by intros ? [? _]. }
  assert (has_shape x2 [b; N; e] ∧ has_shape x2' [b'; N; e]
          ∧ ∀ n n', n < b → n' < b' → same_image c h w x n x' n' →
              same_sequence N e x2 n x2' n') as ([S2 W2] & [S2' W2'] & SS2).
  { destruct (mixer_layers_eval_per_sequence _ x1 x1' g g' x2 g3 x2' g3'
                b b' N e HDP Hb' H1 H1' E2 E2') as (H2 & H2' & SS2).
    split; [done|]. split; [done|]. intros n n' Hn Hn' SI.
    by apply SS2, SS1. }
  (* the final normalization *)
  assert (shape x2 = [b; N] ++ [LayerNorm.normalized_shape (MlpMixer.norm m)])
    as S2n by (by rewrite Hns).
  assert (shape x2' = [b'; N] ++ [LayerNorm.normalized_shape (MlpMixer.norm m)])
    as S2n' by (by rewrite Hns).
  destruct (LayerNorm_forward_total _ x2 _ S2n) as (z & Fz & [S3 W3]).
  rewrite E3 in Fz. injection Fz as <-. rewrite S2 in S3.
  destruct (LayerNorm_forward_total _ x2' _ S2n') as (z & Fz & [S3' W3']).
  rewrite E3' in Fz. injection Fz as <-. rewrite S2' in S3'.
  (* the average and the head *)
  destruct (mean_axis_1_total x3 _ _ _ S3) as (z & Fz & [S4 W4]).
  rewrite E4 in Fz. injection Fz as <-.
  destruct (mean_axis_1_total x3' _ _ _ S3') as (z & Fz & [S4' W4']).
  rewrite E4' in Fz. injection Fz as <-.
  destruct (Linear_forward_total _ x5 [b] _ _ Sw Sb S4) as (z & Fz & Hy).
  rewrite Ey in Fz. injection Fz as <-.
  destruct (Linear_forward_total _ x5' [b'] _ _ Sw Sb S4') as (z & Fz & Hy').
  rewrite Ey' in Fz. injection Fz as <-.
  split; [done|]. split; [done|]. intros n n' Hn Hn' SI.
  unfold row. apply tab_ext. intros j Hj.
  rewrite (Linear_forward_at (MlpMixer.head m) x5 y0 [b] e nc n j),
    (Linear_forward_at (MlpMixer.head m) x5' y0' [b'] e nc n' j); try done;
    try (simpl; lia).
  f_equal. f_equal. apply tab_ext. intros i Hi. f_equal.
  rewrite (mean_axis_1_at x3 x5 b N e n i),
    (mean_axis_1_at x3' x5' b' N e n' i) by done.
  f_equal. f_equal. apply tab_ext. intros q Hq.
  apply (same_sequence_rows N e e x2 x2' x3 x3' b b' n n'); try done.
  - pose proof (LayerNorm_forward_rows _ x2 x2' x3 x3' [b; N] [b'; N]
                  E3 E3' S2n S2n') as H.
    by rewrite Hns in H.
  - by apply SS2.
Qed.

(** X14. Without a normalization layer ([norm_layer=None], the default
    of [MlpMixer]) [self.norm] is an [Identity] and the patch embedding is
    the convolution alone, rearranged: the kernel has shape
    [[embed_dim; in_channels; patch_size; patch_size]], and on a batch of
    [h] by [w] images, channel [o] of embedding [q] of image [n] is the
    flattened patch in row [q // (w // patch_size)] and column
    [q mod (w // patch_size)] of the patch grid, times the flattened kernel
    of output channel [o], plus the bias of [o]. *)
Theorem PatchEmbedding_without_norm :
  ∀ image_size patch_size in_channels embed_dim g0 l g1,
  PatchEmbedding.init image_size patch_size in_channels embed_dim None g0
  = Some (l, g1) →
  PatchEmbedding.norm l = PatchEmbedding.NoNorm Identity.init
  ∧ has_shape (Conv2D.weight (PatchEmbedding.patch_embed l))
      [Z.to_nat embed_dim; Z.to_nat in_channels; Z.to_nat patch_size;
       Z.to_nat patch_size]
  ∧ has_shape (Conv2D.bias (PatchEmbedding.patch_embed l)) [Z.to_nat embed_dim]
  ∧ ∀ b h w x,
      shape x = [b; Z.to_nat in_channels; h; w] →
      Z.to_nat patch_size ≤ h → Z.to_nat patch_size ≤ w →
      ∃ y, PatchEmbedding.forward l x = Some y
           ∧ has_shape y [b; h / Z.to_nat patch_size * (w / Z.to_nat patch_size);
                          Z.to_nat embed_dim]
           ∧ ∀ n q o,
               n < b →
               q < h / Z.to_nat patch_size * (w / Z.to_nat patch_size) →
               o < Z.to_nat embed_dim →
               get3 y n q o
               = radd
                   (rsum (tab (Z.to_nat in_channels * Z.to_nat patch_size
                               * Z.to_nat patch_size)
                      (λ m, rmul
                         (nth m (patch x (Z.to_nat in_channels)
                                   (Z.to_nat patch_size) n
                                   (q / (w / Z.to_nat patch_size))
                                   (q mod (w / Z.to_nat patch_size))) rzero)
                         (at_ (Conv2D.weight (PatchEmbedding.patch_embed l))
                            (o * (Z.to_nat in_channels * Z.to_nat patch_size
                                  * Z.to_nat patch_size) + m)))))
                   (at_ (Conv2D.bias (PatchEmbedding.patch_embed l)) o).
Proof.
  intros image_size patch_size in_channels embed_dim g0 l g1 E.
  apply PatchEmbedding_init_ensures in E
    as (_ & _ & _ & _ & _ & _ & _ & Hconv & Hp & Hnorm).
  pose proof Hconv as (Hw & Hb & _).
  split; [done|]. split; [done|]. split; [done|].
  intros b h w x Sx Hh Hw'.
  set (c := Z.to_nat in_channels) in *. set (k := Z.to_nat patch_size) in *.
  set (e := Z.to_nat embed_dim) in *.
  assert (0 < k) as Hk by (unfold k; lia).
  exists (embedded (PatchEmbedding.patch_embed l) x b c h w e k).
  split; [|split].
  - rewrite (PatchEmbedding_forward_embedded l x b c h w e k) by done.
    by rewrite Hnorm.
  - split; [done|]. unfold wf, embedded. cbn [data shape numel foldr].
    rewrite length_tab3. lia.
  - intros n q o Hn Hq Ho. unfold get3, embedded. cbn [shape].
    unfold at_ at 1. cbn [data]. by rewrite nth_tab3.
Qed.

End FurtherProperties.

(* ================================================================== *)
(** * The properties on the concrete instance *)

Section Witnesses.
Import Example.
#[local] Existing Instance ZScalar.
#[local] Existing Instance ZRandom.
#[local] Existing Instance ZDropPath.

Lemma ZDropPath_eval_identity : DropPath_eval_identity.
Proof. intros l x g. reflexivity. Qed.

Lemma ZDropPath_eval_draws_nothing : DropPath_eval_draws_nothing.
Proof. intros l x. exists (Some x). intros g. reflexivity. Qed.

Lemma MixerBlock_forward_two_stages_witness :
  (∀ a b : Z, (a + b = b + a)%Z)
  ∧ ∃ l g1,
      MixerBlock.init 2 4 (Py.f0_5, Py.f4_0) Py.f0_0 Py.f0_0 seed = Some (l, g1)
      ∧ DropPath_eval_identity ∧ Py.bad_probability Py.f0_0 = false
      ∧ has_shape tokens [1; Z.to_nat 4; Z.to_nat 2]
      ∧ ∃ n1 x1 n2 y,
          LayerNorm.forward (MixerBlock.norm1 l) tokens = Some n1
          ∧ (∀ g, residual (token_mixing l false) tokens g = Some (x1, g))
          ∧ LayerNorm.forward (MixerBlock.norm2 l) x1 = Some n2
          ∧ (∀ g, MixerBlock.forward l false tokens g = Some (y, g))
          ∧ ∀ i j k, i < 1 → j < 4 → k < 2 →
              get3 x1 i j k
              = (get3 tokens i j k
                 + feed_forward (MixerBlock.mlp_tokens l) 4 1
                     (λ j', get3 n1 i j' k) j)%Z
              ∧ get3 y i j k
                = (get3 x1 i j k
                   + feed_forward (MixerBlock.mlp_channels l) 2 8
                       (λ k', get3 n2 i j k') k)%Z.
Proof.
  split; [exact Z.add_comm|].
  destruct (MixerBlock_init_returns 2 4 (Py.f0_5, Py.f4_0) Py.f0_0 Py.f0_0
              1 8 eq_refl eq_refl ltac:(lia) ltac:(lia) ltac:(lia)
              ltac:(lia) seed)%Z as (l & g1 & E & _).
  exists l, g1. split; [done|]. split; [apply ZDropPath_eval_identity|].
  split; [done|]. split; [done|].
  destruct (@MixerBlock_forward_two_stages ZScalar ZRandom ZDropPath
              Z.add_comm l false tokens) as (_ & _ & _ & H).
  destruct (H 2 4 (Py.f0_5, Py.f4_0) Py.f0_0 Py.f0_0 seed g1 1%nat E
              ZDropPath_eval_identity eq_refl ltac:(done))%Z
    as (td & cd & n1 & x1 & n2 & y & Ht & Hc & E1 & Y1 & E2 & Ey & _ & F).
  injection Ht as <-. injection Hc as <-.
  exists n1, x1, n2, y. done.
Defined.

Lemma init_model_built :
  ∃ m g1, init_model seed = Some (m, g1).
Proof.
  destruct (holds_Some (init_model seed) (λ _, true)) as ([m g1] & E & _);
    [by vm_compute|].
  by exists m, g1.
Qed.

Lemma init_model_accepts_image m g1 :
  init_model seed = Some (m, g1) →
  ∃ y g', MlpMixer.forward m true image g1 = Some (y, g').
Proof.
  intros E.
  destruct (holds_Some (init_model seed)
              (λ r, holds (MlpMixer.forward r.1 true image r.2) (λ _, true)))
    as (r & E' & H); [by vm_compute|].
  rewrite E in E'. injection E' as <-.
  apply holds_Some in H as ([y g'] & F & _). by exists y, g'.
Qed.

Lemma init_model_layers m g1 :
  init_model seed = Some (m, g1) →
  length (layer_norms m) = 3 ∧ length (mixer_linears m) = 4.
Proof.
  intros E.
  destruct (holds_Some (init_model seed)
              (λ r, (length (layer_norms r.1) =? 3)
                    && (length (mixer_linears r.1) =? 4)))
    as (r & E' & H); [by vm_compute|].
  rewrite E in E'. injection E' as <-.
  apply andb_true_iff in H as [H1 H2].
  by apply Nat.eqb_eq in H1, H2.
Qed.

Lemma MlpMixer_forward_pipeline_witness :
  ∃ m g1,
    init_model seed = Some (m, g1)
    ∧ DropPath_keeps_shape (DropPath.mk Py.f0_0)
    ∧ ∃ y g' s z, MlpMixer.forward m true image g1 = Some (y, g')
                  ∧ has_shape z [1; s; 2] ∧ has_shape y [1; 2]
                  ∧ ∀ c, c < 2 →
                      at_ y c
                      = affine (MlpMixer.head m) 2 2
                          (λ k, (rsum (tab s (λ j, get3 z 0 j k))
                                 / Z.of_nat s)%Z) c.
Proof.
  destruct init_model_built as (m & g1 & E).
  exists m, g1. split; [done|].
  assert (DropPath_keeps_shape (DropPath.mk Py.f0_0)) as HDP
    by apply DropPath_preserves_keeps, ZDropPath_preserves_shape.
  split; [done|].
  destruct (init_model_accepts_image m g1 E) as (y & g' & F).
  destruct (@MlpMixer_forward_pipeline ZScalar ZRandom ZDropPath
              2 4 1 2 1 2 (Py.f0_5, Py.f4_0) Py.f0_0 Py.f0_0 false seed m g1
              E HDP true image)%Z as (_ & H2 & _).
  destruct (H2 g1 y g' F)
    as (b & h & w & s & x0 & t & z & Sx & _ & _ & _ & Hz & Hy & Hf).
  injection Sx as <- <- <-.
  exists y, g', s, z. split; [done|]. split; [done|]. split; [done|].
  intros c Hc. apply (Hf 0 c); [lia | done].
Defined.

Lemma PatchEmbedding_is_patch_projection_witness :
  ∃ l g1,
    PatchEmbedding.init 4 2 1 2 None seed = Some (l, g1)
    ∧ (0 < 4)%Z ∧ (2 | 4)%Z
    ∧ shape image = [1; Z.to_nat 1; Z.to_nat 4; Z.to_nat 4]
    ∧ PatchEmbedding.forward l image = per_patch_projection l image
    ∧ ∃ y, PatchEmbedding.forward l image = Some y ∧ has_shape y [1; 4; 2].
Proof.
  destruct (PatchEmbedding_init_returns 4 2 1 2 None ltac:(lia) ltac:(lia)
              ltac:(lia) seed)%Z as (l & g1 & E & _).
  exists l, g1. split; [done|]. split; [lia|].
  assert ((2 | 4)%Z) as Hdiv by (by exists 2%Z). split; [done|].
  split; [done|].
  destruct (@PatchEmbedding_is_patch_projection ZScalar ZRandom
              4 2 1 2 None seed l g1 1 image E ltac:(lia) Hdiv eq_refl)%Z
    as (H1 & _ & H3).
  split; [done|].
  apply PatchEmbedding_init_ensures in E
    as (_ & _ & _ & _ & Hnp & _ & _ & _ & _ & Hnorm).
  destruct H3 as (y & Hy & Hs); [by rewrite Hnorm|].
  exists y. split; [done|]. by rewrite Hnp in Hs.
Defined.

Lemma MlpMixer_identical_blocks_witness :
  ∃ m g1,
    (0 ≤ 2)%Z ∧ init_model_two_blocks seed = Some (m, g1)
    ∧ Z.of_nat (length (MlpMixer.mixer_layers m)) = 2%Z
    ∧ Forall (λ b, ∃ g g',
                MixerBlock.init 2
                  (PatchEmbedding.num_patches (MlpMixer.patch_embed m))
                  (Py.f0_5, Py.f4_0) Py.f0_0 Py.f0_0 g = Some (b, g'))
        (MlpMixer.mixer_layers m)
    ∧ ∃ y g' x0 xN,
        MlpMixer.forward m true image g1 = Some (y, g')
        ∧ PatchEmbedding.forward (MlpMixer.patch_embed m) image = Some x0
        ∧ applied_in_order true (MlpMixer.mixer_layers m) x0 g1 xN g'.
Proof.
  destruct (holds_Some (init_model_two_blocks seed)
              (λ r, holds (MlpMixer.forward r.1 true image r.2) (λ _, true)))
    as ([m g1] & E & H); [by vm_compute|].
  apply holds_Some in H as ([y g'] & F & _). cbn [fst snd] in F.
  exists m, g1. split; [lia|]. split; [done|].
  destruct (@MlpMixer_identical_blocks ZScalar ZRandom ZDropPath
              2 4 1 2 2 2 (Py.f0_5, Py.f4_0) Py.f0_0 Py.f0_0 false seed m g1
              ltac:(lia) E)%Z as (H1 & H2 & H3 & _).
  split; [done|]. split; [done|].
  pose proof (proj1 (H3 true image g1 y g') F) as (x0 & xN & E0 & EN & _).
  by exists y, g', x0, xN.
Defined.

Lemma Mlp_two_layer_feed_forward_witness :
  ∃ l g1,
    MixerBlock.init 512 196 (Py.f0_5, Py.f4_0) Py.f0_0 Py.f0_0 seed
    = Some (l, g1)
    ∧ Mlp_dims (MixerBlock.mlp_tokens l) 196 256
    ∧ Mlp_dims (MixerBlock.mlp_channels l) 512 2048.
Proof.
  destruct (MixerBlock_init_returns 512 196 (Py.f0_5, Py.f4_0) Py.f0_0 Py.f0_0
              256 2048 eq_refl eq_refl ltac:(lia) ltac:(lia) ltac:(lia)
              ltac:(lia) seed)%Z as (l & g1 & E & _).
  exists l, g1. split; [done|].
  destruct (@Mlp_two_layer_feed_forward ZScalar ZRandom) as (_ & _ & H3).
  destruct (H3 _ _ _ _ _ _ _ _ E) as (td & cd & Ht & Hc & Dt & Dc).
  injection Ht as <-. injection Hc as <-. by split.
Defined.

Lemma MlpMixer_layer_norm_epsilon_witness :
  ∃ m g1,
    init_model seed = Some (m, g1)
    ∧ Forall (λ n, LayerNorm.epsilon n = Py.f1em6) (layer_norms m)
    ∧ length (layer_norms m) = 3.
Proof.
  destruct init_model_built as (m & g1 & E).
  exists m, g1. split; [done|].
  destruct (@MlpMixer_layer_norm_epsilon ZScalar ZRandom
              2 4 1 2 1 2 (Py.f0_5, Py.f4_0) Py.f0_0 Py.f0_0 false seed m g1 E)%Z
    as (_ & _ & _ & H4).
  split; [done|]. by apply (init_model_layers m g1).
Defined.

Lemma MixerBlock_forward_preserves_shape_witness :
  Py.bad_probability Py.f0_5 = false
  ∧ DropPath_preserves_shape (DropPath.mk Py.f0_5)
  ∧ ∃ l g1,
      MixerBlock.init 2 4 (Py.f0_5, Py.f4_0) Py.f0_5 Py.f0_5 seed = Some (l, g1)
      ∧ has_shape (full [3; 4; 2] 1%Z) [3; Z.to_nat 4; Z.to_nat 2]
      ∧ returns (MixerBlock.forward l true (full [3; 4; 2] 1%Z))
          (λ y, has_shape y [3; Z.to_nat 4; Z.to_nat 2]).
Proof.
  split; [done|]. split; [apply ZDropPath_preserves_shape|].
  destruct (MixerBlock_init_returns 2 4 (Py.f0_5, Py.f4_0) Py.f0_5 Py.f0_5
              1 8 eq_refl eq_refl ltac:(lia) ltac:(lia) ltac:(lia)
              ltac:(lia) seed)%Z as (l & g1 & E & _).
  exists l, g1. split; [done|]. split; [apply has_shape_full|].
  destruct (@MixerBlock_forward_preserves_shape ZScalar ZRandom ZDropPath
              2 4 (Py.f0_5, Py.f4_0) Py.f0_5 Py.f0_5 eq_refl
              (ZDropPath_preserves_shape _))%Z as (H1 & _).
  apply (H1 _ _ _ true 3 _ E). apply has_shape_full.
Defined.

Lemma PatchEmbedding_floor_patches_witness :
  (1 ≤ 2)%Z ∧ (2 ≤ 5)%Z ∧ (1 ≤ 1)%Z ∧ (1 ≤ 2)%Z
  ∧ returns (PatchEmbedding.init 5 2 1 2 None)
      (λ l, PatchEmbedding.num_patches l = 4%Z
            ∧ ∀ b x, shape x = [b; 1; 5; 5] →
                ∃ y, PatchEmbedding.forward l x = Some y
                     ∧ has_shape y [b; 4; 2]).
Proof.
  repeat (split; [lia|]).
  eapply returns_weaken;
    [apply (@PatchEmbedding_floor_patches ZScalar ZRandom 5 2 1 2 None)%Z;
     lia || done|].
  intros l [Hnp H]. split; [done|]. intros b x Sx.
  destruct (H b x Sx) as [(y & Hy & Hs) _]. exists y. split; [done|].
  by rewrite Hnp in Hs.
Defined.

Lemma MlpMixer_initializers_witness :
  ∃ m g1,
    init_model seed = Some (m, g1)
    ∧ Forall (λ b,
                drawn_by (Mlp.fc1 (MixerBlock.mlp_tokens b)) 4 1
                  XavierUniform (Normal Py.f0_0 Py.f1em6)
                ∧ drawn_by (Mlp.fc2 (MixerBlock.mlp_tokens b)) 1 4
                    XavierUniform (Normal Py.f0_0 Py.f1em6)
                ∧ drawn_by (Mlp.fc1 (MixerBlock.mlp_channels b)) 2 8
                    XavierUniform (Normal Py.f0_0 Py.f1em6)
                ∧ drawn_by (Mlp.fc2 (MixerBlock.mlp_channels b)) 8 2
                    XavierUniform (Normal Py.f0_0 Py.f1em6))
        (MlpMixer.mixer_layers m)
    ∧ length (mixer_linears m) = 4
    ∧ initialized_with (MlpMixer.head m) XavierUniform (Constant Py.f0_0)
    ∧ drawn_by (MlpMixer.head m) 2 2 XavierUniform (Constant Py.f0_0).
Proof.
  destruct init_model_built as (m & g1 & E).
  exists m, g1. split; [done|].
  destruct (@MlpMixer_initializers ZScalar ZRandom
              2 4 1 2 1 2 (Py.f0_5, Py.f4_0) Py.f0_0 Py.f0_0 false seed m g1 E)%Z
    as (H1 & _ & _ & H4 & H5).
  pose proof E as E0. unfold init_model in E0.
  apply MlpMixer_init_dims in E0 as (_ & _ & _ & Hnp & _).
  split; [|split; [by apply (init_model_layers m g1)|done]].
  eapply Forall_impl; [exact H1|].
  intros b [(td & cd & Ht & Hc & D1 & D2 & D3 & D4) _].
  injection Ht as <-. injection Hc as <-. rewrite Hnp in D1, D2. done.
Defined.

Lemma build_mlp_mixer_fixed_options_witness :
  ∃ m g1,
    build_mlp_mixer config seed = Some (m, g1)
    ∧ getpath ["MODEL"; "MIXER"; "PATCH_SIZE"] config = Some (CfgInt 32)
    ∧ PatchEmbedding.in_channels (MlpMixer.patch_embed m) = 3%Z
    ∧ PatchEmbedding.patch_size (MlpMixer.patch_embed m) = (16, 16)%Z.
Proof.
  destruct (holds_Some (build_mlp_mixer config seed) (λ _, true))
    as ([m g1] & E & _); [by vm_compute|].
  exists m, g1. split; [done|]. split; [by vm_compute|].
  destruct (@build_mlp_mixer_fixed_options ZScalar ZRandom config seed)
    as (_ & _ & H3).
  destruct (H3 m g1 E) as (Hic & Hps & _). by split.
Defined.

(** C4, as stated, fails: the head of a constructed model does not get a
    Normal bias. *)
Lemma head_bias_is_not_normal :
  ¬ (∀ (SC : Scalar) (RS : RandomSource)
       num_classes image_size in_channels patch_size num_mixer_layers
       embed_dim mlp_ratio dropout droppath patch_embed_norm g0 m g1,
       MlpMixer.init num_classes image_size in_channels patch_size
         num_mixer_layers embed_dim mlp_ratio dropout droppath
         patch_embed_norm g0 = Some (m, g1) →
       Forall (λ fc, initialized_with fc XavierUniform
                       (Normal Py.f0_0 Py.f1em6)) (linear_layers m)).
Proof.
  intros H. destruct init_model_built as (m & g1 & E).
  unfold init_model in E.
  specialize (H ZScalar ZRandom _ _ _ _ _ _ _ _ _ _ _ _ _ E).
  apply Forall_app in H as [_ H]. inversion H as [|?? [_ Hb] _]; subst.
  apply MlpMixer_init_inv in E
    as (nl & g1' & g2 & g3 & g4 & _ & _ & _ & _ & E5 & _).
  apply Linear_init_ensures in E5 as (_ & _ & Hba & _).
  rewrite Hba in Hb. discriminate Hb.
Qed.

(** C9, as stated, fails for a zero patch size (the floor division
    raises), for a negative one (no convolution kernel of negative size),
    without input channels or embedding channels (a parameter has no axis
    of size 0), and for an image smaller than the patch: [num_patches] is
    0, but the forward pass returns one embedding per image, that of the
    one clipped window. *)
Lemma PatchEmbedding_rejected_sizes :
  PatchEmbedding.init 224 0 3 96 None seed = None
  ∧ PatchEmbedding.init 224 (-16) 3 96 None seed = None
  ∧ PatchEmbedding.init 224 16 0 96 None seed = None
  ∧ PatchEmbedding.init 224 16 3 0 None seed = None
  ∧ ∃ l g1, PatchEmbedding.init 8 16 1 2 None seed = Some (l, g1)
            ∧ PatchEmbedding.num_patches l = 0%Z
            ∧ shape small_image = [1; 1; 8; 8]
            ∧ ∃ y, PatchEmbedding.forward l small_image = Some y
                   ∧ has_shape y [1; 1; 2].
Proof.
  split; [by vm_compute|]. split; [by vm_compute|].
  split; [by vm_compute|]. split; [by vm_compute|].
  destruct (PatchEmbedding_init_returns 8 16 1 2 None ltac:(lia) ltac:(lia)
              ltac:(lia) seed)%Z as (l & g1 & E & _).
  exists l, g1. split; [done|].
  apply PatchEmbedding_init_ensures in E
    as (_ & _ & _ & _ & Hnp & _ & _ & Hconv & _ & Hnorm).
  split; [by rewrite Hnp|]. split; [done|].
  destruct (PatchEmbedding_forward_windows l small_image 1 1 8 8 2 16)
    as (y & Ey & Hy); try done; try lia.
  - by rewrite Hnorm.
  - by exists y.
Qed.

(** C8, as stated, fails for a block constructed with a dropout rate
    outside [[0, 1]]: the constructor takes the rate as it is, and the
    forward pass raises on every input, in training and in evaluation
    mode. *)
Lemma MixerBlock_rejected_dropout :
  Py.bad_probability rate_1_5 = true
  ∧ ∃ l g1,
      MixerBlock.init 2 4 (Py.f0_5, Py.f4_0) rate_1_5 Py.f0_0 seed
      = Some (l, g1)
      ∧ has_shape tokens [1; Z.to_nat 4; Z.to_nat 2]
      ∧ ∀ training g, MixerBlock.forward l training tokens g = None.
Proof.
  split; [done|].
  destruct (MixerBlock_init_returns 2 4 (Py.f0_5, Py.f4_0) rate_1_5 Py.f0_0
              1 8 eq_refl eq_refl ltac:(lia) ltac:(lia) ltac:(lia)
              ltac:(lia) seed)%Z as (l & g1 & E & _).
  exists l, g1. split; [done|]. split; [done|]. intros training g.
  destruct (MixerBlock.forward l training tokens g) as [[y g']|] eqn:F;
    [|done].
  apply MixerBlock_init_ensures in E
    as (td & cd & _ & _ & Hd & (Ht & _ & Hdp) & _).
  eapply MixerBlock_forward_ensures in F as (_ & _ & Hp); [|done| |done].
  - rewrite Ht in Hp. done.
  - apply DropPath_preserves_keeps, ZDropPath_preserves_shape.
Qed.

End Witnesses.

(* ================================================================== *)
(** * The further properties on the concrete instance *)

Section FurtherWitnesses.
Import Example.
#[local] Existing Instance ZScalar.
#[local] Existing Instance ZRandom.
#[local] Existing Instance ZDropPath.

Lemma MixerBlock_default_hidden_sizes_witness :
  (0 ≤ 512 < 2 ^ 53)%Z
  ∧ scaled_dim Py.f0_5 512 = Some 256%Z
  ∧ scaled_dim Py.f4_0 512 = Some 2048%Z
  ∧ returns (MixerBlock.init 512 196 (Py.f0_5, Py.f4_0) Py.f0_0 Py.f0_0)
      (λ l, Mlp_dims (MixerBlock.mlp_tokens l) 196 256
            ∧ Mlp_dims (MixerBlock.mlp_channels l) 512 2048)
  ∧ MixerBlock.init 1 196 (Py.f0_5, Py.f4_0) Py.f0_0 Py.f0_0 seed = None.
Proof.
  split; [lia|].
  destruct (@MixerBlock_default_hidden_sizes ZScalar ZRandom
              512 196 Py.f0_0 Py.f0_0 ltac:(lia))%Z as (H1 & H2 & H3 & _).
  split; [done|]. split; [done|]. split; [apply H3; lia|].
  destruct (@MixerBlock_default_hidden_sizes ZScalar ZRandom
              1 196 Py.f0_0 Py.f0_0 ltac:(lia))%Z as (_ & _ & _ & H4).
  destruct (MixerBlock.init 1 196 (Py.f0_5, Py.f4_0) Py.f0_0 Py.f0_0 seed)%Z
    as [[l g']|] eqn:E; [|done].
  apply H4 in E. lia.
Defined.

Lemma build_mlp_mixer_missing_option_witness :
  ["MODEL"; "DROPPATH"] ∈ int_options ++ float_options
  ∧ getpath ["MODEL"; "DROPPATH"] config_without_droppath = None
  ∧ build_mlp_mixer config_without_droppath seed = None.
Proof.
  assert (["MODEL"; "DROPPATH"] ∈ int_options ++ float_options) as Hin
    by (apply (bool_decide_unpack _); by vm_compute).
  assert (getpath ["MODEL"; "DROPPATH"] config_without_droppath = None) as Hm
    by (by vm_compute).
  split; [done|]. split; [done|].
  apply (@build_mlp_mixer_missing_option ZScalar ZRandom
           config_without_droppath ["MODEL"; "DROPPATH"] Hin Hm).
Defined.

Lemma build_mlp_mixer_runs_witness :
  read_options config = Some (2, 32, 1, 2, Py.f0_0, Py.f0_0)%Z
  ∧ (1 ≤ 2)%Z ∧ (16 ≤ 32)%Z ∧ (2 ≤ 2 < 2 ^ 53)%Z
  ∧ Py.bad_probability Py.f0_0 = false
  ∧ DropPath_preserves_shape (DropPath.mk Py.f0_0)
  ∧ returns (build_mlp_mixer config)
      (λ m, PatchEmbedding.num_patches (MlpMixer.patch_embed m) = 4%Z
            ∧ ∀ training b x, shape x = [b; 3; 32; 32] →
                returns (MlpMixer.forward m training x)
                  (λ y, has_shape y [b; 2])).
Proof.
  assert (read_options config = Some (2, 32, 1, 2, Py.f0_0, Py.f0_0)%Z) as Hr
    by (by vm_compute).
  split; [done|]. split; [lia|]. split; [lia|]. split; [lia|].
  split; [done|]. split; [apply ZDropPath_preserves_shape|].
  apply (@build_mlp_mixer_runs ZScalar ZRandom ZDropPath config
           2 32 1 2 Py.f0_0 Py.f0_0 Hr)%Z;
    [lia | lia | lia | done | apply ZDropPath_preserves_shape].
Defined.

Lemma build_mlp_mixer_small_image_witness :
  read_options config_small_image = Some (2, 8, 1, 2, Py.f0_0, Py.f0_0)%Z
  ∧ read_options config_small_image_no_block
    = Some (2, 8, 0, 2, Py.f0_0, Py.f0_0)%Z
  ∧ (0 ≤ 8 < 16)%Z
  ∧ build_mlp_mixer config_small_image seed = None
  ∧ ∃ m g',
      build_mlp_mixer config_small_image_no_block seed = Some (m, g')
      ∧ PatchEmbedding.num_patches (MlpMixer.patch_embed m) = 0%Z
      ∧ MlpMixer.mixer_layers m = []
      ∧ ∃ y, MlpMixer.forward m true small_rgb_image seed = Some (y, seed)
             ∧ has_shape y [1; 2].
Proof.
  assert (read_options config_small_image
          = Some (2, 8, 1, 2, Py.f0_0, Py.f0_0)%Z) as Hr by (by vm_compute).
  assert (read_options config_small_image_no_block
          = Some (2, 8, 0, 2, Py.f0_0, Py.f0_0)%Z) as Hr0 by (by vm_compute).
  split; [done|]. split; [done|]. split; [lia|]. split.
  - destruct (@build_mlp_mixer_small_image ZScalar ZRandom ZDropPath
                config_small_image 2 8 1 2 Py.f0_0 Py.f0_0 Hr ltac:(lia))%Z
      as [H _].
    apply H. lia.
  - destruct (holds_Some (build_mlp_mixer config_small_image_no_block seed)
                (λ _, true)) as ([m g'] & E & _); [by vm_compute|].
    exists m, g'. split; [done|].
    destruct (@build_mlp_mixer_small_image ZScalar ZRandom ZDropPath
                config_small_image_no_block 2 8 0 2 Py.f0_0 Py.f0_0 Hr0
                ltac:(lia))%Z as [_ H].
    destruct (H seed m g' E) as (Hnp & Hl & Hf).
    split; [done|]. split; [done|].
    apply (Hf true 1 8 8 small_rgb_image seed eq_refl); lia.
Defined.

Lemma PatchEmbedding_forward_accepts_witness :
  ∃ l g1,
    PatchEmbedding.init 4 2 1 2 None seed = Some (l, g1)
    ∧ (∃ y, PatchEmbedding.forward l image = Some y ∧ has_shape y [1; 4; 2])
    ∧ (∃ y, PatchEmbedding.forward l pixel = Some y ∧ has_shape y [1; 1; 2])
    ∧ ¬ ∃ y, PatchEmbedding.forward l tokens = Some y.
Proof.
  destruct (PatchEmbedding_init_returns 4 2 1 2 None ltac:(lia) ltac:(lia)
              ltac:(lia) seed)%Z as (l & g1 & E & _).
  exists l, g1. split; [done|].
  split; [|split].
  - destruct (@PatchEmbedding_forward_accepts ZScalar ZRandom
                4 2 1 2 None seed l g1 E I image)%Z as ([_ Hacc] & _ & Hshape).
    destruct Hacc as [y Hy].
    { exists 1, 4, 4. split; [done|]. lia. }
    exists y. split; [done|].
    apply (Hshape y 1 1 4 4 Hy eq_refl); simpl; lia.
  - destruct (@PatchEmbedding_forward_accepts ZScalar ZRandom
                4 2 1 2 None seed l g1 E I pixel)%Z as ([_ Hacc] & Hshape & _).
    destruct Hacc as [y Hy].
    { exists 1, 1, 1. split; [done|]. lia. }
    exists y. split; [done|]. by apply (Hshape y 1 1 1 1).
  - destruct (@PatchEmbedding_forward_accepts ZScalar ZRandom
                4 2 1 2 None seed l g1 E I tokens)%Z as [[Hrej _] _].
    intros Hy. by destruct (Hrej Hy) as (b & h & w & Sx & _).
Defined.

Lemma MixerBlock_forward_accepts_witness :
  ∃ l g1,
    MixerBlock.init 2 4 (Py.f0_5, Py.f4_0) Py.f0_5 Py.f0_5 seed = Some (l, g1)
    ∧ DropPath_preserves_shape (DropPath.mk Py.f0_5)
    ∧ wf tokens
    ∧ (∃ y g', MixerBlock.forward l true tokens seed = Some (y, g'))
    ∧ ¬ ∃ y g', MixerBlock.forward l true image seed = Some (y, g').
Proof.
  destruct (MixerBlock_init_returns 2 4 (Py.f0_5, Py.f4_0) Py.f0_5 Py.f0_5
              1 8 eq_refl eq_refl ltac:(lia) ltac:(lia) ltac:(lia)
              ltac:(lia) seed)%Z as (l & g1 & E & _).
  exists l, g1. split; [done|]. split; [apply ZDropPath_preserves_shape|].
  split; [done|]. split.
  - apply (@MixerBlock_forward_accepts ZScalar ZRandom ZDropPath
             2 4 (Py.f0_5, Py.f4_0) Py.f0_5 Py.f0_5 seed l g1 E
             (ZDropPath_preserves_shape _) true tokens seed eq_refl)%Z.
    split; [by exists 1|done].
  - intros Hy.
    apply (@MixerBlock_forward_accepts ZScalar ZRandom ZDropPath
             2 4 (Py.f0_5, Py.f4_0) Py.f0_5 Py.f0_5 seed l g1 E
             (ZDropPath_preserves_shape _) true image seed eq_refl)%Z in Hy.
    by destruct Hy as [[b Sx] _].
Defined.

Lemma MlpMixer_forward_returns_scores_witness :
  ∃ m g1,
    init_model seed = Some (m, g1)
    ∧ Py.bad_probability Py.f0_0 = false
    ∧ DropPath_preserves_shape (DropPath.mk Py.f0_0)
    ∧ patch_grid 2 image 1 1 (seq_len_of m)
    ∧ returns (MlpMixer.forward m true image) (λ y, has_shape y [1; 2]).
Proof.
  destruct init_model_built as (m & g1 & E).
  exists m, g1. split; [done|]. split; [done|].
  split; [apply ZDropPath_preserves_shape|].
  pose proof E as E0. unfold init_model in E0.
  pose proof (MlpMixer_init_dims _ _ _ _ _ _ _ _ _ _ _ _ _ E0)
    as (_ & _ & _ & Hnp & _).
  pose proof (MlpMixer_init_inv _ _ _ _ _ _ _ _ _ _ _ _ _ E0)
    as (_ & _ & _ & _ & _ & _ & _ & _ & _ & _ & Hnc & _).
  assert (patch_grid 2 image 1 1 (seq_len_of m)) as Hgrid.
  { exists 4, 4. unfold seq_len_of. rewrite Hnp. split; [done|].
    split; [lia|]. split; [lia|]. reflexivity. }
  split; [done|].
  destruct (@MlpMixer_forward_returns_scores ZScalar ZRandom ZDropPath
              2 4 1 2 1 2 (Py.f0_5, Py.f4_0) Py.f0_0 Py.f0_0 false seed m g1
              E eq_refl (ZDropPath_preserves_shape _) true 1 image Hgrid)%Z
    as [_ H].
  by rewrite Hnc in H.
Defined.

Lemma MlpMixer_forward_fixed_resolution_witness :
  ∃ m g1 y g',
    init_model seed = Some (m, g1) ∧ (1 ≤ 1)%Z
    ∧ DropPath_keeps_shape (DropPath.mk Py.f0_0)
    ∧ MlpMixer.forward m true image g1 = Some (y, g')
    ∧ ∃ b, window_grid 2 image b 1 (seq_len_of m).
Proof.
  destruct init_model_built as (m & g1 & E).
  destruct (init_model_accepts_image m g1 E) as (y & g' & F).
  assert (DropPath_keeps_shape (DropPath.mk Py.f0_0)) as HDP
    by apply DropPath_preserves_keeps, ZDropPath_preserves_shape.
  exists m, g1, y, g'. split; [done|]. split; [lia|]. split; [done|].
  split; [done|].
  by destruct (@MlpMixer_forward_fixed_resolution ZScalar ZRandom ZDropPath
                 2 4 1 2 1 2 (Py.f0_5, Py.f4_0) Py.f0_0 Py.f0_0 false seed m g1
                 E ltac:(lia) HDP true image g1 y g' F)%Z as [H _].
Defined.

Lemma MlpMixer_without_blocks_witness :
  ∃ m g1,
    init_model_without_blocks seed = Some (m, g1) ∧ (0 ≤ 0)%Z
    ∧ MlpMixer.mixer_layers m = []
    ∧ ∃ y, MlpMixer.forward m true tall_image seed = Some (y, seed)
           ∧ has_shape y [1; 2].
Proof.
  destruct (holds_Some (init_model_without_blocks seed) (λ _, true))
    as ([m g1] & E & _); [by vm_compute|].
  exists m, g1. split; [done|]. split; [lia|].
  destruct (@MlpMixer_without_blocks ZScalar ZRandom ZDropPath
              2 4 1 2 0 2 (Py.f0_5, Py.f4_0) Py.f0_0 Py.f0_0 false seed m g1
              E ltac:(lia))%Z as [Hl H].
  split; [done|].
  apply (H true 1 6 2 tall_image seed eq_refl); simpl; lia.
Defined.

Lemma MlpMixer_eval_draws_nothing_witness :
  DropPath_eval_draws_nothing
  ∧ ∀ (m : MlpMixer.t) (x : Tensor),
      draws_nothing (MlpMixer.forward m false x).
Proof.
  split; [apply ZDropPath_eval_draws_nothing|]. intros m x.
  destruct (@MlpMixer_eval_draws_nothing ZScalar ZRandom ZDropPath
              ZDropPath_eval_draws_nothing) as (_ & _ & H).
  by destruct (H m x).
Defined.

Lemma channel_mixing_per_token_witness :
  ∃ l g1 y g2 y' g2',
    MixerBlock.init 2 4 (Py.f0_5, Py.f4_0) Py.f0_5 Py.f0_5 seed = Some (l, g1)
    ∧ has_shape tokens [1; Z.to_nat 4; Z.to_nat 2]
    ∧ has_shape tokens_same_token [1; Z.to_nat 4; Z.to_nat 2]
    ∧ (t ← pure_ (LayerNorm.forward (MixerBlock.norm2 l) tokens);
       Mlp.forward (MixerBlock.mlp_channels l) true t) seed = Some (y, g2)
    ∧ (t ← pure_ (LayerNorm.forward (MixerBlock.norm2 l) tokens_same_token);
       Mlp.forward (MixerBlock.mlp_channels l) true t) seed = Some (y', g2')
    ∧ (∀ k, k < 2 → get3 tokens 0 0 k = get3 tokens_same_token 0 0 k)
    ∧ g2' = g2
    ∧ ∀ k, k < 2 → get3 y 0 0 k = get3 y' 0 0 k.
Proof.
  destruct (holds_Some
              (MixerBlock.init 2 4 (Py.f0_5, Py.f4_0) Py.f0_5 Py.f0_5 seed)
              (λ r,
                 holds ((t ← pure_ (LayerNorm.forward (MixerBlock.norm2 r.1)
                                      tokens);
                         Mlp.forward (MixerBlock.mlp_channels r.1) true t) seed)
                   (λ _, true)
                 && holds ((t ← pure_ (LayerNorm.forward (MixerBlock.norm2 r.1)
                                         tokens_same_token);
                            Mlp.forward (MixerBlock.mlp_channels r.1) true t)
                             seed)
                      (λ _, true)))%Z
    as ([l g1] & E & H); [by vm_compute|].
  apply andb_true_iff in H as [H1 H2].
  apply holds_Some in H1 as ([y g2] & F & _).
  apply holds_Some in H2 as ([y' g2'] & F' & _).
  cbn [fst] in F, F'.
  assert (∀ k, k < 2 → get3 tokens 0 0 k = get3 tokens_same_token 0 0 k)
    as Hx.
  { intros k Hk. destruct k as [|[|k]]; [reflexivity | reflexivity | lia]. }
  exists l, g1, y, g2, y', g2'. split; [done|]. split; [done|].
  split; [done|]. split; [done|]. split; [done|]. split; [done|].
  destruct (@channel_mixing_per_token ZScalar ZRandom
              2 4 (Py.f0_5, Py.f4_0) Py.f0_5 Py.f0_5 seed l g1 E
              true 1 tokens tokens_same_token seed y g2 y' g2'
              ltac:(done) ltac:(done) F F')%Z as (Hg & _ & H).
  split; [done|]. apply (H 0 0); [lia | simpl; lia | exact Hx].
Defined.

Lemma token_mixing_per_channel_witness :
  ∃ l g1 y g2 y' g2',
    MixerBlock.init 2 4 (Py.f0_5, Py.f4_0) Py.f0_5 Py.f0_5 seed = Some (l, g1)
    ∧ has_shape tokens [1; Z.to_nat 4; Z.to_nat 2]
    ∧ has_shape tokens_same_channel [1; Z.to_nat 4; Z.to_nat 2]
    ∧ (t ← pure_ (transpose_0_2_1 tokens);
       t ← Mlp.forward (MixerBlock.mlp_tokens l) true t;
       pure_ (transpose_0_2_1 t)) seed = Some (y, g2)
    ∧ (t ← pure_ (transpose_0_2_1 tokens_same_channel);
       t ← Mlp.forward (MixerBlock.mlp_tokens l) true t;
       pure_ (transpose_0_2_1 t)) seed = Some (y', g2')
    ∧ (∀ j, j < 4 → get3 tokens 0 j 0 = get3 tokens_same_channel 0 j 0)
    ∧ g2' = g2
    ∧ ∀ j, j < 4 → get3 y 0 j 0 = get3 y' 0 j 0.
Proof.
  destruct (holds_Some
              (MixerBlock.init 2 4 (Py.f0_5, Py.f4_0) Py.f0_5 Py.f0_5 seed)
              (λ r,
                 holds ((t ← pure_ (transpose_0_2_1 tokens);
                         t ← Mlp.forward (MixerBlock.mlp_tokens r.1) true t;
                         pure_ (transpose_0_2_1 t)) seed)
                   (λ _, true)
                 && holds ((t ← pure_ (transpose_0_2_1 tokens_same_channel);
                            t ← Mlp.forward (MixerBlock.mlp_tokens r.1) true t;
                            pure_ (transpose_0_2_1 t)) seed)
                      (λ _, true)))%Z
    as ([l g1] & E & H); [by vm_compute|].
  apply andb_true_iff in H as [H1 H2].
  apply holds_Some in H1 as ([y g2] & F & _).
  apply holds_Some in H2 as ([y' g2'] & F' & _).
  cbn [fst] in F, F'.
  assert (∀ j, j < 4 → get3 tokens 0 j 0 = get3 tokens_same_channel 0 j 0)
    as Hx.
  { intros j Hj.
    destruct j as [|[|[|[|j]]]]; [reflexivity..|lia]. }
  exists l, g1, y, g2, y', g2'. split; [done|]. split; [done|].
  split; [done|]. split; [done|]. split; [done|]. split; [done|].
  destruct (@token_mixing_per_channel ZScalar ZRandom
              2 4 (Py.f0_5, Py.f4_0) Py.f0_5 Py.f0_5 seed l g1 E
              true 1 tokens tokens_same_channel seed y g2 y' g2'
              ltac:(done) ltac:(done) F F')%Z as (Hg & _ & H).
  split; [done|]. apply (H 0 0); [lia | simpl; lia | exact Hx].
Defined.

Lemma MlpMixer_eval_per_image_witness :
  ∃ m g1 y g2 y' g2',
    DropPath_eval_identity
    ∧ init_model seed = Some (m, g1)
    ∧ MlpMixer.forward m false image g1 = Some (y, g2)
    ∧ MlpMixer.forward m false two_images g1 = Some (y', g2')
    ∧ same_image 1 4 4 image 0 two_images 1
    ∧ row y 2 0 = row y' 2 1.
Proof.
  destruct (holds_Some (init_model seed)
              (λ r, holds (MlpMixer.forward r.1 false image r.2) (λ _, true)
                    && holds (MlpMixer.forward r.1 false two_images r.2)
                         (λ _, true)))
    as ([m g1] & E & H); [by vm_compute|].
  apply andb_true_iff in H as [H1 H2].
  apply holds_Some in H1 as ([y g2] & F & _).
  apply holds_Some in H2 as ([y' g2'] & F' & _).
  cbn [fst snd] in F, F'.
  assert (same_image 1 4 4 image 0 two_images 1) as SI.
  { intros ci i j Hci Hi Hj. destruct ci as [|ci]; [|lia].
    destruct i as [|[|[|[|i]]]]; [..|lia];
      (destruct j as [|[|[|[|j]]]]; [reflexivity..|lia]). }
  exists m, g1, y, g2, y', g2'. split; [apply ZDropPath_eval_identity|].
  split; [done|]. split; [done|]. split; [done|]. split; [done|].
  destruct (@MlpMixer_eval_per_image ZScalar ZRandom ZDropPath
              ZDropPath_eval_identity
              2 4 1 2 1 2 (Py.f0_5, Py.f4_0) Py.f0_0 Py.f0_0 false seed m g1 E
              1 2 1 4 4 image two_images g1 y g2 g1 y' g2'
              eq_refl eq_refl F F')%Z as (_ & _ & H).
  apply (H 0 1); [lia | lia | exact SI].
Defined.

Lemma PatchEmbedding_without_norm_witness :
  ∃ l g1,
    PatchEmbedding.init 4 2 1 2 None seed = Some (l, g1)
    ∧ PatchEmbedding.norm l = PatchEmbedding.NoNorm Identity.init
    ∧ ∃ y, PatchEmbedding.forward l image = Some y ∧ has_shape y [1; 4; 2].
Proof.
  destruct (PatchEmbedding_init_returns 4 2 1 2 None ltac:(lia) ltac:(lia)
              ltac:(lia) seed)%Z as (l & g1 & E & _).
  exists l, g1. split; [done|].
  destruct (@PatchEmbedding_without_norm ZScalar ZRandom
              4 2 1 2 seed l g1 E)%Z as (Hn & _ & _ & H).
  split; [done|].
  destruct (H 1 4 4 image eq_refl ltac:(simpl; lia) ltac:(simpl; lia))
    as (y & Hy & Hs & _).
  by exists y.
Defined.

End FurtherWitnesses.
